(** * Heart-disease dashboard ([foranipy3.py]): model and verification

    The script is a Streamlit page over one pandas table.  The model has
    four layers, each following the source:

    - [Float64]: the binary64 arithmetic that Python and NumPy use for
      the metrics, as exact rationals rounded to nearest-even, and the
      fixed-point formatting of f-strings;
    - [Pandas]: rows, tables, columns, boolean masks, grouping and the
      aggregated frame of the insights tab;
    - [Streamlit]: the state of one running process (file, cache, heap
      of Python objects, rendered elements) and a state-and-exception
      monad over it;
    - [App]: the script itself, statement by statement.

    The theorems follow the definitions. *)

From Stdlib Require Import ZArith QArith Qround Qpower Qabs Lia Lqa.
From Stdlib Require Import String Ascii List DecimalString Sorted.
From stdpp Require Import base list strings.
Import ListNotations.

Open Scope Z_scope.

(** ** Binary64 arithmetic *)

Module Float64.

(** A float is not-a-number, an infinity or a finite rational; the two
    signed zeros are identified (the script never divides by a float
    zero nor prints a negative zero). *)
Inductive float64 : Type :=
| FNaN
| FInf (negative : bool)
| FFin (q : Q).

Definition pow2 (e : Z) : Q := (2 ^ e)%Q.

(** Nearest integer, ties to the even one. *)
Definition round_half_even (x : Q) : Z :=
  let f := Qfloor x in
  match Qcompare (x - inject_Z f) (1 # 2) with
  | Lt => f
  | Gt => f + 1
  | Eq => if Z.even f then f else f + 1
  end.

(** [ilog2 x] is the integer part of the base-2 logarithm of [x > 0]. *)
Definition ilog2 (x : Q) : Z :=
  let a := Z.log2 (Qnum x) - Z.log2 (Zpos (Qden x)) in
  if Qle_bool (pow2 a) x then a else a - 1.

(** Exponent of the unit in the last place: 53 significant bits, and
    the subnormal range below [2^-1022]. *)
Definition ulp_exp (x : Q) : Z := Z.max (ilog2 x - 52) (-1074).

(** Rounding of a positive rational with unbounded exponent. *)
Definition round_pos (x : Q) : Q :=
  (inject_Z (round_half_even (x / pow2 (ulp_exp x))) * pow2 (ulp_exp x))%Q.

(** Rounding to binary64: overflow gives an infinity. *)
Definition round64 (x : Q) : float64 :=
  match Qcompare x 0 with
  | Eq => FFin 0
  | Gt => let r := round_pos x in
          if Qle_bool (pow2 1024) r then FInf false else FFin r
  | Lt => let r := round_pos (- x) in
          if Qle_bool (pow2 1024) r then FInf true else FFin (- r)
  end.

Definition of_Z (n : Z) : float64 := round64 (inject_Z n).

Definition Qnegb (q : Q) : bool := negb (Qle_bool 0 q).
Definition Qzerob (q : Q) : bool := Qeq_bool q 0.

(** IEEE multiplication. *)
Definition fmul (a b : float64) : float64 :=
  match a, b with
  | FNaN, _ | _, FNaN => FNaN
  | FInf s, FInf s' => FInf (xorb s s')
  | FInf s, FFin q | FFin q, FInf s =>
      if Qzerob q then FNaN else FInf (xorb s (Qnegb q))
  | FFin p, FFin q => round64 (p * q)
  end.

(** IEEE division (NumPy semantics: no exception on a zero divisor). *)
Definition fdiv (a b : float64) : float64 :=
  match a, b with
  | FNaN, _ | _, FNaN => FNaN
  | FInf _, FInf _ => FNaN
  | FInf s, FFin q => FInf (xorb s (Qnegb q))
  | FFin _, FInf _ => FFin 0
  | FFin p, FFin q =>
      if Qzerob q then (if Qzerob p then FNaN else FInf (Qnegb p))
      else round64 (p / q)
  end.

(** Decimal digits. *)
Definition digit (d : Z) : ascii := ascii_of_nat (48 + Z.to_nat d).

Fixpoint digits_fixed (width : nat) (n : Z) : string :=
  match width with
  | O => EmptyString
  | S w => digits_fixed w (n / 10) +:+ String (digit (n mod 10)) EmptyString
  end.

Definition decimal (n : Z) : string :=
  (if n <? 0 then "-" else "") +:+ NilZero.string_of_uint (N.to_uint (Z.abs_N n)).

(** The hundredths (for [digits = 2]) nearest to the exact value of a
    finite float: what [format(x, ".2f")] prints, without the point. *)
Definition scaled (digits : nat) (q : Q) : Z :=
  round_half_even (Qabs q * inject_Z (10 ^ Z.of_nat digits)).

(** [format(x, ".<digits>f")]: the exact binary value, correctly rounded
    to [digits] places; no point when there are no places. *)
Definition format_fixed (digits : nat) (x : float64) : string :=
  match x with
  | FNaN => "nan"
  | FInf negative => if negative then "-inf" else "inf"
  | FFin q =>
      let k := scaled digits q in
      (if Qnegb q then "-" else "")
        +:+ decimal (k / 10 ^ Z.of_nat digits)
        +:+ match digits with
            | O => ""
            | S _ => "." +:+ digits_fixed digits (k mod 10 ^ Z.of_nat digits)
            end
  end.

End Float64.
Import Float64.

(** ** The pandas fragment the script uses *)

Module Pandas.

(** One patient.  The file has further clinical columns; the script
    names these seven. *)
Record Row : Type := mkRow {
  age : Z;
  sex : Z;
  cp : Z;
  trestbps : Z;
  chol : Z;
  thalach : Z;
  target : Z
}.

Abbreviation Table := (list Row).

(** The exceptions the script can meet; [OtherError] stands for any
    other class, by its name. *)
Inductive PyExn : Type :=
| FileNotFoundError
| EmptyDataError
| ParserError
| UnicodeDecodeError
| KeyError (key : string)
| IndexError
| IndexingError
| ZeroDivisionError
| OverflowError
| NaNToInteger                              (* a ValueError *)
| LengthMismatch (expected given : nat)     (* a ValueError *)
| AttributeError
| StreamlitJSNumberBoundsError
| OtherError (class_name : string).

Inductive Res (A : Type) : Type :=
| Ok (a : A)
| Raise (e : PyExn).
Arguments Ok {A} a.
Arguments Raise {A} e.

Definition rbind {A B : Type} (r : Res A) (k : A -> Res B) : Res B :=
  match r with
  | Ok a => k a
  | Raise e => Raise e
  end.

Fixpoint rmap {A B : Type} (f : A -> Res B) (l : list A) : Res (list B) :=
  match l with
  | [] => Ok []
  | a :: l' => rbind (f a) (fun b => rbind (rmap f l') (fun bs => Ok (b :: bs)))
  end.

Notation "x <~ r ;; k" := (rbind r (fun x => k))
  (at level 200, r at level 99, k at level 200, only parsing).

(** *** Columns and boolean masks *)

Definition column_names : list string :=
  ["age"; "sex"; "cp"; "trestbps"; "chol"; "thalach"; "target"]%string.

Definition field (name : string) : option (Row -> Z) :=
  if String.eqb name "age" then Some age
  else if String.eqb name "sex" then Some sex
  else if String.eqb name "cp" then Some cp
  else if String.eqb name "trestbps" then Some trestbps
  else if String.eqb name "chol" then Some chol
  else if String.eqb name "thalach" then Some thalach
  else if String.eqb name "target" then Some target
  else None.

(** [df[name]] *)
Definition getitem (df : Table) (name : string) : Res (list Z) :=
  match field name with
  | Some f => Ok (map f df)
  | None => Raise (KeyError name)
  end.

(** [series == v] *)
Definition series_eq (s : list Z) (v : Z) : list bool :=
  map (fun x => x =? v) s.

(** [m1 & m2] on two masks over the same index. *)
Definition series_and (m1 m2 : list bool) : list bool := zip_with andb m1 m2.

(** [series.between(left, right)]: [(series >= left) & (series <= right)]. *)
Definition between (s : list Z) (left right : Z) : list bool :=
  series_and (map (fun x => left <=? x) s) (map (fun x => x <=? right) s).

(** [df[mask]]: the rows whose mask entry is true, in order; a mask that
    does not line up with the frame is refused. *)
Fixpoint getitem_mask (df : Table) (mask : list bool) : Res Table :=
  match df, mask with
  | [], [] => Ok []
  | r :: df', b :: mask' =>
      t <~ getitem_mask df' mask' ;; Ok (if b then r :: t else t)
  | _, _ => Raise IndexingError
  end.

(** [series.min()], [series.max()]: [None] stands for the NaN of an
    empty series. *)
Definition series_min (s : list Z) : option Z :=
  match s with
  | [] => None
  | x :: s' => Some (fold_left Z.min s' x)
  end.

Definition series_max (s : list Z) : option Z :=
  match s with
  | [] => None
  | x :: s' => Some (fold_left Z.max s' x)
  end.

(** [int(x)] *)
Definition py_int (x : option Z) : Res Z :=
  match x with
  | Some n => Ok n
  | None => Raise NaNToInteger
  end.

Definition series_sum (s : list Z) : Z := fold_left Z.add s 0.

(** [series.mean()] on an integer column: the float sum over the float
    count, NaN when there is no row.  The float sum of the column is
    the integer sum converted (exact below [2^53]). *)
Definition series_mean (s : list Z) : float64 :=
  match s with
  | [] => FNaN
  | _ => fdiv (of_Z (series_sum s)) (of_Z (Z.of_nat (length s)))
  end.

(** [a / b] on Python integers. *)
Definition py_truediv (a b : Z) : Res float64 :=
  if b =? 0 then Raise ZeroDivisionError
  else match round64 (inject_Z a / inject_Z b) with
       | FInf _ => Raise OverflowError
       | x => Ok x
       end.

(** *** Grouping and aggregation *)

Fixpoint insert_sorted (k : Z) (ks : list Z) : list Z :=
  match ks with
  | [] => [k]
  | h :: t =>
      if k <? h then k :: ks
      else if k =? h then ks
      else h :: insert_sorted k t
  end.

(** The distinct values of a column, ascending. *)
Definition unique_sorted (s : list Z) : list Z :=
  fold_right insert_sorted [] s.

(** [df.groupby(by)]: one group per distinct key, keys ascending, each
    with its rows in table order. *)
Definition groupby (df : Table) (by_ : string) : Res (list (Z * Table)) :=
  keys <~ getitem df by_ ;;
  rmap (fun k => g <~ getitem_mask df (series_eq keys k) ;; Ok (k, g))
       (unique_sorted keys).

Inductive AggFn : Type := Mean | Std | Min | Max.

Definition agg_name (f : AggFn) : string :=
  match f with
  | Mean => "mean"
  | Std => "std"
  | Min => "min"
  | Max => "max"
  end.

(** A cell of the aggregated frame names its statistic and the values
    it is taken over; [decimals] is set by [round]. *)
Record Cell : Type := mkCell {
  cell_fn : AggFn;
  cell_input : list Z;
  cell_decimals : option nat
}.

Inductive ColLabel : Type :=
| ColPair (column stat : string)
| ColName (name : string).

Inductive RowLabel : Type :=
| RowKey (key : Z)
| RowName (name : string).

Record Summary : Type := mkSummary {
  index : list RowLabel;
  columns : list ColLabel;
  data : list (list Cell)
}.

Definition agg_row (spec : list (string * list AggFn)) (g : Table) : Res (list Cell) :=
  cells <~ rmap (fun cf : string * list AggFn =>
                   col <~ getitem g (fst cf) ;;
                   Ok (map (fun f => mkCell f col None) (snd cf))) spec ;;
  Ok (concat cells).

(** [groups.agg(spec)] *)
Definition agg (groups : list (Z * Table)) (spec : list (string * list AggFn))
  : Res Summary :=
  rows <~ rmap (fun kg : Z * Table => agg_row spec (snd kg)) groups ;;
  Ok {| index := map (fun kg : Z * Table => RowKey (fst kg)) groups;
        columns := flat_map (fun cf : string * list AggFn =>
                               map (fun f => ColPair (fst cf) (agg_name f)) (snd cf)) spec;
        data := rows |}.

(** [frame.round(n)] *)
Definition round_frame (n : nat) (s : Summary) : Summary :=
  {| index := index s;
     columns := columns s;
     data := map (map (fun c => mkCell (cell_fn c) (cell_input c) (Some n))) (data s) |}.

(** [frame.columns = labels] and [frame.index = labels]: the new axis
    must be as long as the old one. *)
Definition set_columns (labels : list ColLabel) (s : Summary) : Res Summary :=
  if Nat.eqb (length labels) (length (columns s))
  then Ok {| index := index s; columns := labels; data := data s |}
  else Raise (LengthMismatch (length (columns s)) (length labels)).

Definition set_index (labels : list RowLabel) (s : Summary) : Res Summary :=
  if Nat.eqb (length labels) (length (index s))
  then Ok {| index := labels; columns := columns s; data := data s |}
  else Raise (LengthMismatch (length (index s)) (length labels)).

End Pandas.
Import Pandas.

(** ** The string methods used for labels *)

Module PyStr.

Definition is_lower (c : ascii) : bool :=
  let n := nat_of_ascii c in (Nat.leb 97 n && Nat.leb n 122)%bool.

Definition is_upper (c : ascii) : bool :=
  let n := nat_of_ascii c in (Nat.leb 65 n && Nat.leb n 90)%bool.

Definition to_upper (c : ascii) : ascii :=
  if is_lower c then ascii_of_nat (nat_of_ascii c - 32) else c.

Definition to_lower (c : ascii) : ascii :=
  if is_upper c then ascii_of_nat (nat_of_ascii c + 32) else c.

(** [str.title()]: a letter that follows a non-letter is upper-cased,
    one that follows a letter is lower-cased. *)
Fixpoint title_from (prev_cased : bool) (s : string) : string :=
  match s with
  | EmptyString => EmptyString
  | String c s' =>
      if is_lower c
      then String (if prev_cased then c else to_upper c) (title_from true s')
      else if is_upper c
      then String (if prev_cased then to_lower c else c) (title_from true s')
      else String c (title_from false s')
  end.

Definition title (s : string) : string := title_from false s.

(** [str.replace(old, new)] for one-character strings. *)
Fixpoint replace (old new : ascii) (s : string) : string :=
  match s with
  | EmptyString => EmptyString
  | String c s' => String (if Ascii.eqb c old then new else c) (replace old new s')
  end.

(** Names written in ASCII, as the column and statistic names are. *)
Definition ascii_only (s : string) : Prop :=
  Forall (fun c => (nat_of_ascii c < 128)%nat) (list_ascii_of_string s).

End PyStr.

(** ** One Streamlit process *)

Module Streamlit.

(** Plotly figures, as the calls that built them. *)
Inductive Trace : Type :=
| TPie (counted : list (option string))
| THistogram (frame : Table) (x color : string)
| TScatter (frame : Table) (x y color size : string)
| THeatmap (corr_of : Table)
| TViolin (x : list Z) (name side line_color : string).

Inductive FigOp : Type :=
| Subplots (rows cols : Z) (subplot_titles : list string)
| AddTrace (t : Trace) (row col : Z)
| UpdateLayout (settings : list (string * string))
| UpdateXaxes (title_text : string) (row col : Z)
| UpdateYaxes (title_text : string) (row col : Z).

Definition Figure : Type := list FigOp.

(** What the page shows, in order. *)
Inductive Element : Type :=
| EPageConfig (page_title layout : string)
| ETitle (text : string)
| ESidebarHeader (text : string)
| ESidebarCheckbox (label : string)
| ESubheader (text : string)
| EDataFrame (t : Table)
| ESummaryFrame (s : Summary)
| EColumns (n : nat)
| EMetric (label value : string)
| ETabs (names : list string)
| EPlotlyChart (f : Figure)
| ESlider (label : string) (min_value max_value : Z) (value : Z * Z)
| ESelectbox (label : string) (options : list string)
| EWrite (text : string)
| EMarkdown (text : string).

(** Python objects that the script binds to names. *)
Inductive Obj : Type :=
| ODataFrame (t : Table)
| OSummary (s : Summary)
| OFigure (f : Figure).

(** What is at a path: nothing, something [read_csv] refuses, with the
    exception it raises on it (EmptyDataError, ParserError,
    UnicodeDecodeError, ...), or a table. *)
Inductive CsvFile : Type :=
| NoFile
| BadCsv (refused_with : PyExn)
| GoodCsv (t : Table).

Record State : Type := mkState {
  files : string -> CsvFile;   (* the file system, never written *)
  reads : list string;         (* paths opened so far *)
  cache : option Table;        (* the [st.cache_data] entry of [load_data] *)
  heap : list Obj;             (* objects of the current run *)
  out : list Element           (* elements rendered by the current run *)
}.

Definition set_reads (r : list string) (s : State) : State :=
  mkState (files s) r (cache s) (heap s) (out s).
Definition set_cache (c : option Table) (s : State) : State :=
  mkState (files s) (reads s) c (heap s) (out s).
Definition set_heap (h : list Obj) (s : State) : State :=
  mkState (files s) (reads s) (cache s) h (out s).
Definition set_out (o : list Element) (s : State) : State :=
  mkState (files s) (reads s) (cache s) (heap s) o.

(** The file system is changed from outside only. *)
Definition set_files (f : string -> CsvFile) (s : State) : State :=
  mkState f (reads s) (cache s) (heap s) (out s).

(** State and exceptions: an exception keeps the state reached. *)
Definition M (A : Type) : Type := State -> Res A * State.

Definition ret {A : Type} (a : A) : M A := fun s => (Ok a, s).

Definition bind {A B : Type} (m : M A) (k : A -> M B) : M B :=
  fun s => match m s with
           | (Ok a, s') => k a s'
           | (Raise e, s') => (Raise e, s')
           end.

Definition lift {A : Type} (r : Res A) : M A := fun s => (r, s).

Notation "x <- m ;; k" := (bind m (fun x => k))
  (at level 200, m at level 99, k at level 200, only parsing).
Notation "m >> k" := (bind m (fun _ => k))
  (at level 200, k at level 200, only parsing).

Definition emit (e : Element) : M unit :=
  fun s => (Ok tt, set_out (out s ++ [e]) s).

(** A new object gets the next free location. *)
Definition alloc (o : Obj) : M nat :=
  fun s => (Ok (length (heap s)), set_heap (heap s ++ [o]) s).

Definition read_frame (l : nat) : M Table :=
  fun s => match heap s !! l with
           | Some (ODataFrame t) => (Ok t, s)
           | _ => (Raise AttributeError, s)
           end.

Definition read_summary (l : nat) : M Summary :=
  fun s => match heap s !! l with
           | Some (OSummary t) => (Ok t, s)
           | _ => (Raise AttributeError, s)
           end.

Definition read_figure (l : nat) : M Figure :=
  fun s => match heap s !! l with
           | Some (OFigure f) => (Ok f, s)
           | _ => (Raise AttributeError, s)
           end.

(** In-place update of the object at [l]. *)
Definition store (l : nat) (o : Obj) : M unit :=
  fun s => (Ok tt, set_heap (<[l := o]> (heap s)) s).

(** [fig.add_trace(..)], [fig.update_layout(..)], ...: the figure at [l]
    is changed in place. *)
Definition update_figure (l : nat) (op : FigOp) : M unit :=
  f <- read_figure l ;; store l (OFigure (f ++ [op])).

Fixpoint for_each {A : Type} (l : list A) (body : A -> M unit) : M unit :=
  match l with
  | [] => ret tt
  | a :: l' => body a >> for_each l' body
  end.

Fixpoint enumerate_from {A : Type} (i : Z) (l : list A) : list (Z * A) :=
  match l with
  | [] => []
  | a :: l' => (i, a) :: enumerate_from (i + 1) l'
  end.

Definition enumerate {A : Type} (l : list A) : list (Z * A) := enumerate_from 0 l.

(** [pd.read_csv(path)] *)
Definition parse (f : CsvFile) : Res Table :=
  match f with
  | NoFile => Raise FileNotFoundError
  | BadCsv e => Raise e
  | GoodCsv t => Ok t
  end.

Definition read_csv (path : string) : M Table :=
  fun s => (parse (files s path), set_reads (reads s ++ [path]) s).

(** [@st.cache_data] on a function without arguments: a stored value is
    handed out again without running the body; an exception stores
    nothing. *)
Definition cache_data (body : M Table) : M Table :=
  fun s => match cache s with
           | Some t => (Ok t, s)
           | None =>
               match body s with
               | (Ok t, s') => (Ok t, set_cache (Some t) s')
               | (Raise e, s') => (Raise e, s')
               end
           end.

(** The widget values of one run. *)
Inductive Gender : Type := Both | Female | Male.

Definition gender_label (g : Gender) : string :=
  match g with
  | Both => "Both"
  | Female => "Female"
  | Male => "Male"
  end.

Record Inputs : Type := mkInputs {
  show_raw_data : bool;
  age_slider : option (Z * Z);   (* [None]: the slider was not moved *)
  gender_choice : Gender
}.

Definition checkbox (label : string) (inp : Inputs) : M bool :=
  emit (ESidebarCheckbox label) >> ret (show_raw_data inp).

(** The integers that the browser holds exactly. *)
Definition MAX_SAFE_INTEGER : Z := 2 ^ 53 - 1.
Definition MIN_SAFE_INTEGER : Z := - (2 ^ 53 - 1).

Definition validate_int_bounds (v : Z) : Res unit :=
  if v <? MIN_SAFE_INTEGER then Raise StreamlitJSNumberBoundsError
  else if MAX_SAFE_INTEGER <? v then Raise StreamlitJSNumberBoundsError
  else Ok tt.

(** [st.slider(label, min_value, max_value, value=(start, end))] on
    integers.  A reversed [value] is put in order, the bounds are widened
    until they contain it, and the widened bounds must be integers that the
    browser holds exactly.  The widget is shown with the widened bounds and
    returns where it stands: at [value] until it is moved. *)
Definition slider (label : string) (min_value max_value : Z) (value : Z * Z)
           (inp : Inputs) : M (Z * Z) :=
  let min_value := Z.min min_value max_value in
  let max_value := Z.max min_value max_value in
  let value := if snd value <? fst value then (snd value, fst value) else value in
  let min_value := Z.min (fst value) min_value in
  let max_value := Z.max (snd value) max_value in
  lift (validate_int_bounds min_value) >>
  lift (validate_int_bounds max_value) >>
  emit (ESlider label min_value max_value value) >>
  ret (match age_slider inp with Some v => v | None => value end).

Definition selectbox (label : string) (options : list Gender) (inp : Inputs)
  : M string :=
  emit (ESelectbox label (map gender_label options)) >>
  ret (gender_label (gender_choice inp)).

End Streamlit.
Import Streamlit.

(** ** The script *)

Module App.

(** Lines 15-18: [load_data], under [st.cache_data]. *)
Definition load_data_body : M Table := read_csv "heart.csv".

Definition load_data : M nat :=
  t <- cache_data load_data_body ;; alloc (ODataFrame t).

(** Line 35: [df['target'].mean() * 100]. *)
Definition prevalence (df : Table) : Res float64 :=
  tg <~ getitem df "target" ;; Ok (fmul (series_mean tg) (of_Z 100)).

Definition prevalence_metric (df : Table) : Res string :=
  p <~ prevalence df ;; Ok (format_fixed 2 p +:+ "%").

(** Line 37: [df['age'].mean()]. *)
Definition average_age_metric (df : Table) : Res string :=
  a <~ getitem df "age" ;; Ok (format_fixed 1 (series_mean a) +:+ " years").

(** Line 39: [len(df[df['sex'] == 1]) / len(df[df['sex'] == 0])]. *)
Definition gender_ratio (df : Table) : Res float64 :=
  s1 <~ getitem df "sex" ;;
  males <~ getitem_mask df (series_eq s1 1) ;;
  s0 <~ getitem df "sex" ;;
  females <~ getitem_mask df (series_eq s0 0) ;;
  py_truediv (Z.of_nat (length males)) (Z.of_nat (length females)).

Definition gender_ratio_metric (df : Table) : Res string :=
  r <~ gender_ratio df ;; Ok (format_fixed 2 r).

(** Lines 31-40. *)
Definition metrics_panel (df : nat) : M unit :=
  emit (EColumns 4) >>
  t <- read_frame df ;;
  emit (EMetric "Total Patients" (decimal (Z.of_nat (length t)))) >>
  t <- read_frame df ;;
  p <- lift (prevalence_metric t) ;;
  emit (EMetric "Heart Disease Prevalence" p) >>
  t <- read_frame df ;;
  a <- lift (average_age_metric t) ;;
  emit (EMetric "Average Age" a) >>
  t <- read_frame df ;;
  r <- lift (gender_ratio_metric t) ;;
  emit (EMetric "Male to Female Ratio" r).

(** Line 49: [df['sex'].map({0: "Female", 1: "Male"})]; the pie takes
    the counts of these labels. *)
Definition sex_label (v : Z) : option string :=
  if v =? 0 then Some "Female"%string
  else if v =? 1 then Some "Male"%string
  else None.

(** Lines 45-59. *)
Definition distribution_section (df : nat) : M unit :=
  emit (ESubheader "Distribution of Patients") >>
  t <- read_frame df ;;
  sx <- lift (getitem t "sex") ;;
  let gender_counts := map sex_label sx in
  fig1 <- alloc (OFigure [AddTrace (TPie gender_counts) 1 1;
                          UpdateLayout [("title", "Gender Distribution")]%string]) ;;
  f <- read_figure fig1 ;;
  emit (EPlotlyChart f) >>
  t <- read_frame df ;;
  fig2 <- alloc (OFigure [AddTrace (THistogram t "age" "target") 1 1;
                          UpdateLayout [("title", "Age Distribution by Disease Status")]%string]) ;;
  f <- read_figure fig2 ;;
  emit (EPlotlyChart f) >>
  t <- read_frame df ;;
  fig3 <- alloc (OFigure [AddTrace (THistogram t "cp" "target") 1 1;
                          UpdateLayout [("title", "Chest Pain Types by Disease Status")]%string]) ;;
  f <- read_figure fig3 ;;
  emit (EPlotlyChart f).

Definition features : list string := ["age"; "thalach"; "chol"; "trestbps"]%string.

(** Lines 78-84: one turn of the loop over [enumerate(features)]. *)
Definition violin_pair (df fig6 : nat) (step : Z * string) : M unit :=
  let i := fst step in
  let feature := snd step in
  let row := i / 2 + 1 in
  let col := i mod 2 + 1 in
  t <- read_frame df ;;
  x0 <- lift (tg <~ getitem t "target" ;;
              g <~ getitem_mask t (series_eq tg 0) ;; getitem g feature) ;;
  update_figure fig6 (AddTrace (TViolin x0 "No Disease" "negative" "green") row col) >>
  t <- read_frame df ;;
  x1 <- lift (tg <~ getitem t "target" ;;
              g <~ getitem_mask t (series_eq tg 1) ;; getitem g feature) ;;
  update_figure fig6 (AddTrace (TViolin x1 "Disease" "positive" "red") row col) >>
  update_figure fig6 (UpdateXaxes (PyStr.title feature) row col) >>
  update_figure fig6 (UpdateYaxes "Frequency" row col).

(** Lines 61-87. *)
Definition relationship_section (df : nat) : M unit :=
  emit (ESubheader "Feature Relationships") >>
  t <- read_frame df ;;
  fig4 <- alloc (OFigure [AddTrace (TScatter t "age" "thalach" "target" "chol") 1 1;
                          UpdateLayout [("title", "Heart Rate vs Age (Cholesterol Size)")]%string]) ;;
  f <- read_figure fig4 ;;
  emit (EPlotlyChart f) >>
  t <- read_frame df ;;
  fig5 <- alloc (OFigure [AddTrace (THeatmap t) 1 1]) ;;
  update_figure fig5 (UpdateLayout [("title", "Feature Correlation Matrix");
                                    ("xaxis_title", "Features");
                                    ("yaxis_title", "Features")]%string) >>
  f <- read_figure fig5 ;;
  emit (EPlotlyChart f) >>
  fig6 <- alloc (OFigure [Subplots 2 2 features]) ;;
  for_each (enumerate features) (violin_pair df fig6) >>
  update_figure fig6 (UpdateLayout [("height", "800");
                                    ("title", "Feature Distribution by Heart Disease Status")]%string) >>
  f <- read_figure fig6 ;;
  emit (EPlotlyChart f).

(** Lines 93-98: the aggregation dictionary. *)
Definition agg_spec : list (string * list AggFn) :=
  [("age", [Mean; Std; Min; Max]);
   ("thalach", [Mean; Std]);
   ("chol", [Mean; Std]);
   ("trestbps", [Mean; Std])]%string.

Definition grouped (df : Table) : Res Summary :=
  groups <~ groupby df "target" ;;
  s <~ agg groups agg_spec ;;
  Ok (round_frame 2 s).

(** Line 101: the new label of one column. *)
Definition column_title (c : ColLabel) : Res ColLabel :=
  let join (a b : string) :=
    ColName (PyStr.title (PyStr.replace "_" " " (a +:+ "_" +:+ b))) in
  match c with
  | ColPair a b => Ok (join a b)
  | ColName (String a (String b _)) =>
      Ok (join (String a EmptyString) (String b EmptyString))
  | ColName _ => Raise IndexError
  end.

Definition row_labels : list RowLabel :=
  [RowName "No Heart Disease"; RowName "Heart Disease"].

(** Lines 93-103, on the table alone: the frame shown, or the
    exception. *)
Definition summary (df : Table) : Res Summary :=
  s <~ grouped df ;;
  labels <~ rmap column_title (columns s) ;;
  s <~ set_columns labels s ;;
  set_index row_labels s.

(** Lines 90-103, with [summary] as an object that is assigned to. *)
Definition insights_section (df : nat) : M unit :=
  emit (ESubheader "Statistical Insights") >>
  t <- read_frame df ;;
  s <- lift (grouped t) ;;
  summary_ <- alloc (OSummary s) ;;
  s <- read_summary summary_ ;;
  labels <- lift (rmap column_title (columns s)) ;;
  s <- read_summary summary_ ;;
  s' <- lift (set_columns labels s) ;;
  store summary_ (OSummary s') >>
  s <- read_summary summary_ ;;
  s' <- lift (set_index row_labels s) ;;
  store summary_ (OSummary s') >>
  s <- read_summary summary_ ;;
  emit (ESummaryFrame s).

(** Lines 112-117. *)
Definition filtered_df (gender : string) (age_range : Z * Z) (df : Table)
  : Res Table :=
  if String.eqb gender "Female" then
    a <~ getitem df "age" ;;
    s <~ getitem df "sex" ;;
    getitem_mask df (series_and (between a (fst age_range) (snd age_range))
                                (series_eq s 0))
  else if String.eqb gender "Male" then
    a <~ getitem df "age" ;;
    s <~ getitem df "sex" ;;
    getitem_mask df (series_and (between a (fst age_range) (snd age_range))
                                (series_eq s 1))
  else
    a <~ getitem df "age" ;;
    getitem_mask df (between a (fst age_range) (snd age_range)).

(** Line 109: the bounds of the slider. *)
Definition slider_bounds (df : Table) : Res (Z * Z) :=
  a <~ getitem df "age" ;;
  lo <~ py_int (series_min a) ;;
  a <~ getitem df "age" ;;
  hi <~ py_int (series_max a) ;;
  Ok (lo, hi).

(** Lines 105-120. *)
Definition filter_section (df : nat) (inp : Inputs) : M unit :=
  emit (ESubheader "Filter Data for Custom Analysis") >>
  t <- read_frame df ;;
  bounds <- lift (slider_bounds t) ;;
  age_range <- slider "Select Age Range" (fst bounds) (snd bounds) (30, 70) inp ;;
  gender <- selectbox "Select Gender" [Both; Female; Male] inp ;;
  t <- read_frame df ;;
  ft <- lift (filtered_df gender age_range t) ;;
  filtered <- alloc (ODataFrame ft) ;;
  ft <- read_frame filtered ;;
  emit (EWrite ("Filtered Data: " +:+ decimal (Z.of_nat (length ft)) +:+ " patients")) >>
  ft <- read_frame filtered ;;
  emit (EDataFrame ft).

Definition footer : M unit :=
  emit (EMarkdown "---") >>
  emit (EMarkdown "
    **Data Dictionary:**
    - target: Heart disease presence (1: Yes, 0: No)
    - sex: Gender (1: Male, 0: Female)
    - cp: Chest pain type
    - thalach: Maximum heart rate achieved
    - chol: Cholesterol level
    ").

(** What follows the load, lines 22-133. *)
Definition page (df : nat) (inp : Inputs) : M unit :=
  emit (ESidebarHeader "Explore Data") >>
  show <- checkbox "Show Raw Data" inp ;;
  (if show : bool
   then emit (ESubheader "Raw Data") >>
        t <- read_frame df ;; emit (EDataFrame t)
   else ret tt) >>
  metrics_panel df >>
  emit (ETabs ["Patient Distribution"; "Feature Relationships"; "Advanced Insights"]%string) >>
  distribution_section df >>
  relationship_section df >>
  insights_section df >>
  filter_section df inp >>
  footer.

(** The whole script, lines 9-133. *)
Definition script (inp : Inputs) : M unit :=
  emit (EPageConfig "Heart Disease Analysis" "wide") >>
  emit (ETitle "Heart Disease Analysis - A New Perspective") >>
  df <- load_data ;;
  page df inp.

(** A process starts with nothing cached; every interaction runs the
    script again on a fresh heap and page, with the cache kept. *)
Definition start (fs : string -> CsvFile) : State := mkState fs [] None [] [].

Definition rerun (s : State) : State :=
  mkState (files s) (reads s) (cache s) [] [].

End App.
Import App.

(** ** What a command leaves alone *)

Module Frame.

(** [untouched n s s']: the objects at locations below [n], the file
    system, the read log and the cache are the same in [s'] as in [s]. *)
Definition untouched (n : nat) (s s' : State) : Prop :=
  (n <= length (heap s'))%nat /\
  (forall l : nat, (l < n)%nat -> heap s' !! l = heap s !! l) /\
  files s' = files s /\ reads s' = reads s /\ cache s' = cache s.

(** [frame n m Q]: run from a heap with at least [n] objects, [m]
    leaves the first [n] untouched, however it ends, and a returned
    value satisfies [Q]. *)
Definition frame {A : Type} (n : nat) (m : M A) (Q : A -> Prop) : Prop :=
  forall s : State, (n <= length (heap s))%nat ->
    untouched n s (snd (m s)) /\ (forall a : A, fst (m s) = Ok a -> Q a).

End Frame.
Import Frame.

(** ** The properties stated of the script *)

Module Spec.

#[global] Instance Gender_eq_dec : EqDecision Gender.
Proof. solve_decision. Defined.

(** A row is selected when its age lies in the inclusive range and its
    sex matches the gender chosen: 0 for Female, 1 for Male. *)
Definition in_selection (g : Gender) (lo hi : Z) (r : Row) : Prop :=
  (lo <= age r <= hi) /\ (g = Female -> sex r = 0) /\ (g = Male -> sex r = 1).

#[global] Instance in_selection_dec g lo hi r : Decision (in_selection g lo hi r).
Proof. unfold in_selection. apply _. Defined.

(** A column is binary when each of its values is 0 or 1. *)
Definition binary (f : Row -> Z) (df : Table) : Prop :=
  Forall (fun r => f r = 0 \/ f r = 1) df.

(** The mean of a column, as an exact rational. *)
Definition mean (s : list Z) : Q :=
  (inject_Z (series_sum s) / inject_Z (Z.of_nat (length s)))%Q.

(** The column labels of the summary, as shown. *)
Definition titles : list ColLabel :=
  [ColName "Age Mean"; ColName "Age Std"; ColName "Age Min"; ColName "Age Max";
   ColName "Thalach Mean"; ColName "Thalach Std";
   ColName "Chol Mean"; ColName "Chol Std";
   ColName "Trestbps Mean"; ColName "Trestbps Std"].

End Spec.
Import Spec.

(** ** Sample tables *)

Module Examples.

(** Four patients, both sexes, both outcomes. *)
Definition patients : Table :=
  [mkRow 63 1 3 145 233 150 1; mkRow 67 1 0 160 286 108 0;
   mkRow 41 0 1 130 204 172 1; mkRow 62 0 0 140 268 160 0].

(** No row of sex 0. *)
Definition men : Table :=
  [mkRow 63 1 3 145 233 150 1; mkRow 67 1 0 160 286 108 0].

(** Disease status coded 1 and 2 instead of 0 and 1. *)
Definition coded_1_2 : Table :=
  [mkRow 63 1 3 145 233 150 2; mkRow 67 1 0 160 286 108 1;
   mkRow 41 0 1 130 204 172 2].

(** One outcome only. *)
Definition all_diseased : Table :=
  [mkRow 63 1 3 145 233 150 1; mkRow 41 0 1 130 204 172 1].

(** One age beyond what the browser holds exactly. *)
Definition beyond_browser : Table :=
  [mkRow (2 ^ 53 + 1) 0 0 120 200 150 0; mkRow 50 1 2 130 240 160 1].

Definition only (t : CsvFile) (path : string) : CsvFile :=
  if String.eqb path "heart.csv" then t else NoFile.

Definition untouched_widgets : Inputs := mkInputs false None Both.

End Examples.
Import Examples.

(** ** Counting rows *)

Module Counts.

(** The number of rows whose sex is [v]. *)
Definition with_sex (v : Z) (df : Table) : nat :=
  length (filter (fun r => sex r = v) df).

(** The same number, as a rational. *)
Definition sex_count (v : Z) (df : Table) : Q :=
  inject_Z (Z.of_nat (with_sex v df)).

End Counts.
Import Counts.

(** ** What the charts show *)

Module Charts.

(** The rows of the table with a given disease status. *)
Definition with_target (v : Z) (df : Table) : Table :=
  filter (fun r => target r = v) df.

Definition pie_figure (df : Table) : Figure :=
  [AddTrace (TPie (map (fun r => sex_label (sex r)) df)) 1 1;
   UpdateLayout [("title", "Gender Distribution")]%string].

Definition age_histogram (df : Table) : Figure :=
  [AddTrace (THistogram df "age" "target") 1 1;
   UpdateLayout [("title", "Age Distribution by Disease Status")]%string].

Definition cp_histogram (df : Table) : Figure :=
  [AddTrace (THistogram df "cp" "target") 1 1;
   UpdateLayout [("title", "Chest Pain Types by Disease Status")]%string].

Definition scatter_figure (df : Table) : Figure :=
  [AddTrace (TScatter df "age" "thalach" "target" "chol") 1 1;
   UpdateLayout [("title", "Heart Rate vs Age (Cholesterol Size)")]%string].

Definition heatmap_figure (df : Table) : Figure :=
  [AddTrace (THeatmap df) 1 1;
   UpdateLayout [("title", "Feature Correlation Matrix");
                 ("xaxis_title", "Features");
                 ("yaxis_title", "Features")]%string].

(** The two half violins of one feature in one cell of the grid, with the
    axis titles of the cell. *)
Definition violin_cell (df : Table) (column : Row -> Z) (axis : string) (row col : Z)
  : list FigOp :=
  [AddTrace (TViolin (map column (with_target 0 df)) "No Disease" "negative" "green") row col;
   AddTrace (TViolin (map column (with_target 1 df)) "Disease" "positive" "red") row col;
   UpdateXaxes axis row col;
   UpdateYaxes "Frequency" row col].

Definition violin_figure (df : Table) : Figure :=
  [Subplots 2 2 ["age"; "thalach"; "chol"; "trestbps"]%string]
    ++ violin_cell df age "Age" 1 1
    ++ violin_cell df thalach "Thalach" 1 2
    ++ violin_cell df chol "Chol" 2 1
    ++ violin_cell df trestbps "Trestbps" 2 2
    ++ [UpdateLayout [("height", "800");
                      ("title", "Feature Distribution by Heart Disease Status")]%string].

(** Plotly takes the cholesterol as the size of the scatter markers and
    refuses a negative size: the charts are as below for the tables that
    have none. *)
Definition sizes_valid (df : Table) : Prop := Forall (fun r => 0 <= chol r) df.

(** The age range of this run: where the slider was put, or where it
    starts. *)
Definition slider_value (inp : Inputs) : Z * Z :=
  match age_slider inp with
  | Some v => v
  | None => (30, 70)
  end.

(** The rows the filter section shows. *)
Definition shown (inp : Inputs) (df : Table) : Table :=
  filter (in_selection (gender_choice inp) (fst (slider_value inp)) (snd (slider_value inp)))
         df.

(** The slider takes the ages that the browser holds exactly: up to
    [2^53 - 1] in absolute value. *)
Definition safe_ages (df : Table) : Prop :=
  Forall (fun r => - (2 ^ 53 - 1) <= age r <= 2 ^ 53 - 1) df.

End Charts.
Import Charts.

(** ** What the summary holds *)

Module Statistics.

(** One statistic of one column over the rows of a group, rounded to two
    decimals. *)
Definition statistic (f : AggFn) (column : Row -> Z) (g : Table) : Cell :=
  mkCell f (map column g) (Some 2%nat).

(** The row of a group, under the ten titles. *)
Definition group_row (g : Table) : list Cell :=
  [statistic Mean age g; statistic Std age g; statistic Min age g; statistic Max age g;
   statistic Mean thalach g; statistic Std thalach g;
   statistic Mean chol g; statistic Std chol g;
   statistic Mean trestbps g; statistic Std trestbps g].

End Statistics.
Import Statistics.

(** ** What a complete run renders *)

Module Rendering.

(** The sidebar, and the raw table when the box is ticked. *)
Definition sidebar_elements (inp : Inputs) (df : Table) : list Element :=
  [ESidebarHeader "Explore Data"; ESidebarCheckbox "Show Raw Data"]
    ++ (if show_raw_data inp then [ESubheader "Raw Data"; EDataFrame df] else []).

(** What follows the sidebar up to the tabs. *)
Definition metric_elements (df : Table) (p a r : string) : list Element :=
  [EColumns 4;
   EMetric "Total Patients" (decimal (Z.of_nat (length df)));
   EMetric "Heart Disease Prevalence" p;
   EMetric "Average Age" a;
   EMetric "Male to Female Ratio" r].

(** The tabs, on a table whose least age is [lo] and whose greatest age
    is [hi]: the slider runs from the lesser of 30 and [lo] to the greater
    of 70 and [hi]. *)
Definition tab_elements (inp : Inputs) (df : Table) (sm : Summary) (lo hi : Z)
  : list Element :=
  [ETabs ["Patient Distribution"; "Feature Relationships"; "Advanced Insights"]%string;
   ESubheader "Distribution of Patients";
   EPlotlyChart (pie_figure df);
   EPlotlyChart (age_histogram df);
   EPlotlyChart (cp_histogram df);
   ESubheader "Feature Relationships";
   EPlotlyChart (scatter_figure df);
   EPlotlyChart (heatmap_figure df);
   EPlotlyChart (violin_figure df);
   ESubheader "Statistical Insights";
   ESummaryFrame sm;
   ESubheader "Filter Data for Custom Analysis";
   ESlider "Select Age Range" (Z.min 30 lo) (Z.max 70 hi) (30, 70);
   ESelectbox "Select Gender" ["Both"; "Female"; "Male"];
   EWrite ("Filtered Data: "
             +:+ decimal (Z.of_nat (length (shown inp df))) +:+ " patients");
   EDataFrame (shown inp df)].

(** The objects of a complete run, the loaded table first. *)
Definition run_objects (inp : Inputs) (df : Table) (sm : Summary) : list Obj :=
  [ODataFrame df;
   OFigure (pie_figure df); OFigure (age_histogram df); OFigure (cp_histogram df);
   OFigure (scatter_figure df); OFigure (heatmap_figure df); OFigure (violin_figure df);
   OSummary sm;
   ODataFrame (shown inp df)].

(** The two closing paragraphs. *)
Definition footer_elements : list Element :=
  [EMarkdown "---";
   EMarkdown "
    **Data Dictionary:**
    - target: Heart disease presence (1: Yes, 0: No)
    - sex: Gender (1: Male, 0: Female)
    - cp: Chest pain type
    - thalach: Maximum heart rate achieved
    - chol: Cholesterol level
    "].

End Rendering.
Import Rendering.

(** * Verification *)

(** ** Rounding to binary64 is monotone *)

Section Rounding.

Local Open Scope Q_scope.

Lemma round_half_even_bounds x :
  inject_Z (Qfloor x) <= inject_Z (round_half_even x) /\
  (round_half_even x <= Qfloor x + 1)%Z.
Proof.
  unfold round_half_even. cbv zeta.
  destruct (Qcompare (x - inject_Z (Qfloor x)) (1 # 2)); try destruct (Z.even (Qfloor x));
    split; try lia; rewrite <- Zle_Qle; lia.
Qed.

Lemma round_half_even_Z n : round_half_even (inject_Z n) = n.
Proof.
  unfold round_half_even. rewrite Qfloor_Z.
  assert (H : Qcompare (inject_Z n - inject_Z n) (1 # 2) = Lt).
  { rewrite <- Qlt_alt. lra. }
  now rewrite H.
Qed.

Lemma round_half_even_mono x y : x <= y -> (round_half_even x <= round_half_even y)%Z.
Proof.
  intros Hxy.
  pose proof (Qfloor_resp_le _ _ Hxy) as Hf.
  destruct (Z.eq_dec (Qfloor x) (Qfloor y)) as [E|N].
  - unfold round_half_even. cbv zeta. rewrite <- E.
    destruct (Qcompare_spec (x - inject_Z (Qfloor x)) (1#2)) as [H1|H1|H1];
    destruct (Qcompare_spec (y - inject_Z (Qfloor x)) (1#2)) as [H2|H2|H2];
      try destruct (Z.even (Qfloor x)); try lia; exfalso; lra.
  - pose proof (round_half_even_bounds x) as [_ Hx].
    pose proof (round_half_even_bounds y) as [Hy _].
    rewrite <- Zle_Qle in Hy. lia.
Qed.

Lemma pow2_pos e : 0 < pow2 e.
Proof. apply Qpower_0_lt. reflexivity. Qed.

Lemma pow2_add a b : pow2 (a + b) == pow2 a * pow2 b.
Proof. apply Qpower_plus. discriminate. Qed.

Lemma pow2_succ a : pow2 (a + 1) == 2 * pow2 a.
Proof. rewrite pow2_add. change (pow2 1) with 2. ring. Qed.

Lemma pow2_pred a : 2 * pow2 (a - 1) == pow2 a.
Proof. rewrite <- pow2_succ. now replace (a - 1 + 1)%Z with a by lia. Qed.

Lemma pow2_Z n : (0 <= n)%Z -> pow2 n == inject_Z (2 ^ n).
Proof. intros H. unfold pow2. now rewrite Zpower_Qpower. Qed.

Lemma pow2_le a b : (a <= b)%Z -> pow2 a <= pow2 b.
Proof. intros H. apply Qpower_le_compat_l; [exact H | discriminate]. Qed.

Lemma pow2_lt_inv a b : pow2 a < pow2 b -> (a < b)%Z.
Proof.
  intros H. destruct (Z_lt_le_dec a b) as [L|L]; [exact L|].
  apply pow2_le in L. lra.
Qed.

Lemma ilog2_spec x : 0 < x -> pow2 (ilog2 x) <= x /\ x < pow2 (ilog2 x + 1).
Proof.
  intros Hx. destruct x as [n d]. 
  assert (Hn : (0 < n)%Z).
  { unfold Qlt in Hx. simpl in Hx. lia. }
  unfold ilog2. cbn [Qnum Qden].
  set (an := Z.log2 n). set (ad := Z.log2 (Z.pos d)).
  pose proof (Z.log2_spec n Hn) as [Hn1 Hn2]. fold an in Hn1, Hn2.
  pose proof (Z.log2_spec (Z.pos d) eq_refl) as [Hd1 Hd2]. fold ad in Hd1, Hd2.
  assert (Han : (0 <= an)%Z) by apply Z.log2_nonneg.
  assert (Had : (0 <= ad)%Z) by apply Z.log2_nonneg.
  assert (HP : pow2 (an - ad) * inject_Z (2 ^ ad) == inject_Z (2 ^ an)).
  { rewrite <- !pow2_Z by assumption. rewrite <- pow2_add.
    now replace (an - ad + ad)%Z with an by lia. }
  assert (HX : (n # d) * inject_Z (Z.pos d) == inject_Z n).
  { unfold Qeq. simpl. rewrite Pos.mul_1_r. ring. }
  rewrite Z.pow_succ_r in Hn2, Hd2 by assumption.
  rewrite Zle_Qle in Hn1, Hd1. rewrite Zlt_Qlt in Hn2, Hd2.
  rewrite inject_Z_mult in Hn2, Hd2.
  change (inject_Z 2) with 2 in Hn2, Hd2.
  pose proof (pow2_pos (an - ad)) as HPp.
  assert (HDp : 0 < inject_Z (2 ^ ad)).
  { rewrite <- pow2_Z by assumption. apply pow2_pos. }
  set (P := pow2 (an - ad)) in *. set (D := inject_Z (2 ^ ad)) in *.
  set (N := inject_Z (2 ^ an)) in *. set (x := n # d) in *.
  set (dq := inject_Z (Z.pos d)) in *. set (nq := inject_Z n) in *.
  destruct (Qle_bool P x) eqn:E.
  - apply Qle_bool_iff in E. split; [exact E|].
    rewrite pow2_succ. fold P.
    destruct (Qlt_le_dec x (2 * P)) as [L|L]; [exact L|exfalso].
    nra.
  - assert (E' : x < P).
    { destruct (Qlt_le_dec x P) as [L|L]; [exact L|].
      apply Qle_bool_iff in L. congruence. }
    replace (an - ad - 1 + 1)%Z with (an - ad)%Z by lia. fold P.
    split; [|exact E'].
    assert (HQ : 2 * pow2 (an - ad - 1) == P) by apply pow2_pred.
    set (Q' := pow2 (an - ad - 1)) in *.
    destruct (Qlt_le_dec x Q') as [L|L]; [exfalso|exact L].
    nra.
Qed.

Lemma ilog2_mono x y : 0 < x -> x <= y -> (ilog2 x <= ilog2 y)%Z.
Proof.
  intros Hx Hxy.
  destruct (ilog2_spec x Hx) as [Lx _].
  destruct (ilog2_spec y) as [_ Uy]; [lra|].
  assert (H : pow2 (ilog2 x) < pow2 (ilog2 y + 1)) by lra.
  apply pow2_lt_inv in H. lia.
Qed.

Lemma ulp_exp_mono x y : 0 < x -> x <= y -> (ulp_exp x <= ulp_exp y)%Z.
Proof. intros Hx Hxy. pose proof (ilog2_mono x y Hx Hxy). unfold ulp_exp. lia. Qed.

Lemma div_pow2_lt x a b : x < pow2 (a + b) -> x / pow2 b < pow2 a.
Proof.
  intros H. apply Qlt_shift_div_r; [apply pow2_pos|]. now rewrite <- pow2_add.
Qed.

Lemma div_pow2_le x a b : pow2 (a + b) <= x -> pow2 a <= x / pow2 b.
Proof.
  intros H. apply Qle_shift_div_l; [apply pow2_pos|]. now rewrite <- pow2_add.
Qed.

Lemma scaled_upper x : 0 < x -> x / pow2 (ulp_exp x) < pow2 53.
Proof.
  intros Hx. apply div_pow2_lt.
  destruct (ilog2_spec x Hx) as [_ U].
  eapply Qlt_le_trans; [exact U|]. apply pow2_le. unfold ulp_exp. lia.
Qed.

Lemma scaled_lower x : 0 < x -> (-1074 < ulp_exp x)%Z -> pow2 52 <= x / pow2 (ulp_exp x).
Proof.
  intros Hx He. apply div_pow2_le.
  destruct (ilog2_spec x Hx) as [L _].
  eapply Qle_trans; [|exact L]. apply pow2_le. unfold ulp_exp in *. lia.
Qed.

Lemma round_pos_mono x y : 0 < x -> x <= y -> round_pos x <= round_pos y.
Proof.
  intros Hx Hxy. assert (Hy : 0 < y) by lra.
  pose proof (ulp_exp_mono x y Hx Hxy) as He.
  unfold round_pos.
  destruct (Z.eq_dec (ulp_exp x) (ulp_exp y)) as [E|N].
  - rewrite <- E. apply Qmult_le_compat_r; [|apply Qlt_le_weak, pow2_pos].
    rewrite <- Zle_Qle. apply round_half_even_mono.
    apply Qmult_le_compat_r; [exact Hxy|].
    apply Qlt_le_weak, Qinv_lt_0_compat, pow2_pos.
  - assert (Hlt : (ulp_exp x < ulp_exp y)%Z) by lia.
    apply Qle_trans with (pow2 (53 + ulp_exp x)).
    + rewrite pow2_add. apply Qmult_le_compat_r; [|apply Qlt_le_weak, pow2_pos].
      rewrite (pow2_Z 53) by lia. rewrite <- Zle_Qle.
      rewrite <- (round_half_even_Z (2 ^ 53)).
      apply round_half_even_mono. rewrite <- pow2_Z by lia.
      apply Qlt_le_weak, scaled_upper, Hx.
    + apply Qle_trans with (pow2 (52 + ulp_exp y)); [apply pow2_le; lia|].
      rewrite pow2_add. apply Qmult_le_compat_r; [|apply Qlt_le_weak, pow2_pos].
      rewrite (pow2_Z 52) by lia. rewrite <- Zle_Qle.
      rewrite <- (round_half_even_Z (2 ^ 52)).
      apply round_half_even_mono. rewrite <- pow2_Z by lia.
      apply scaled_lower; [exact Hy|].
      assert ((-1074 <= ulp_exp x)%Z) by (unfold ulp_exp; lia). lia.
Qed.

Lemma round_pos_nonneg x : 0 < x -> 0 <= round_pos x.
Proof.
  intros Hx. unfold round_pos.
  apply Qmult_le_0_compat; [|apply Qlt_le_weak, pow2_pos].
  change 0 with (inject_Z 0). rewrite <- Zle_Qle.
  rewrite <- (round_half_even_Z 0).
  apply round_half_even_mono. change (inject_Z 0) with 0.
  apply Qlt_le_weak. apply Qlt_shift_div_l; [apply pow2_pos|]. lra.
Qed.

Lemma round_half_even_comp x y : x == y -> round_half_even x = round_half_even y.
Proof.
  intros E. apply Z.le_antisymm; apply round_half_even_mono; rewrite E; apply Qle_refl.
Qed.

Lemma round_half_even_error y : Qabs (inject_Z (round_half_even y) - y) <= 1 # 2.
Proof.
  pose proof (Qfloor_le y) as Hl. pose proof (Qlt_floor y) as Hu.
  rewrite inject_Z_plus in Hu. change (inject_Z 1) with 1 in Hu.
  apply Qabs_Qle_condition. unfold round_half_even. cbv zeta.
  destruct (Qcompare_spec (y - inject_Z (Qfloor y)) (1 # 2)) as [H|H|H];
    try destruct (Z.even (Qfloor y));
    rewrite ?inject_Z_plus; change (inject_Z 1) with 1; split; lra.
Qed.

Lemma round_pos_error x : 0 < x -> Qabs (round_pos x - x) <= pow2 (ulp_exp x - 1).
Proof.
  intros Hx. unfold round_pos.
  pose proof (pow2_pos (ulp_exp x)) as HP.
  pose proof (pow2_pred (ulp_exp x)) as Hh.
  set (P := pow2 (ulp_exp x)) in *. set (H := pow2 (ulp_exp x - 1)) in *.
  pose proof (round_half_even_error (x / P)) as He.
  set (k := inject_Z (round_half_even (x / P))) in *.
  assert (Hy : x / P * P == x) by (field; lra).
  set (y := x / P) in *.
  apply Qabs_Qle_condition in He. destruct He as [He1 He2].
  apply Qabs_Qle_condition. split; nra.
Qed.

Lemma ulp_exp_le x e :
  0 < x -> x < pow2 (e + 53) -> (-1074 <= e)%Z -> (ulp_exp x <= e)%Z.
Proof.
  intros Hx Hlt He. destruct (ilog2_spec x Hx) as [L _].
  assert (H : pow2 (ilog2 x) < pow2 (e + 53)) by lra.
  apply pow2_lt_inv in H. unfold ulp_exp. lia.
Qed.

(** Integers of at most 53 bits are floats. *)
Lemma round_pos_Z n : (0 < n <= 2 ^ 53)%Z -> round_pos (inject_Z n) == inject_Z n.
Proof.
  intros [Hn Hle].
  destruct (Z.eq_dec n (2 ^ 53)%Z) as [->|Hne]; [vm_compute; reflexivity|].
  assert (Hq : 0 < inject_Z n) by (change 0 with (inject_Z 0); now rewrite <- Zlt_Qlt).
  assert (He : (ulp_exp (inject_Z n) <= 0)%Z).
  { apply ulp_exp_le; [exact Hq| |lia].
    rewrite pow2_Z by lia. rewrite <- Zlt_Qlt. simpl (0 + 53)%Z. lia. }
  unfold round_pos. set (e := ulp_exp (inject_Z n)) in *.
  assert (Hs : inject_Z n / pow2 e == inject_Z (n * 2 ^ (- e))).
  { rewrite inject_Z_mult, <- pow2_Z by lia. unfold pow2. rewrite Qpower_opp.
    field. apply Qpower_not_0. discriminate. }
  assert (Hr : round_half_even (inject_Z n / pow2 e) = (n * 2 ^ (- e))%Z).
  { rewrite <- (round_half_even_Z (n * 2 ^ (- e))).
    apply round_half_even_comp, Hs. }
  rewrite Hr, inject_Z_mult, <- pow2_Z by lia.
  rewrite <- Qmult_assoc, <- pow2_add.
  replace (- e + e)%Z with 0%Z by lia. change (pow2 0) with 1. ring.
Qed.

(** A float bounds the rounding of whatever it bounds. *)
Lemma round64_bounded x b :
  0 <= x -> x <= b -> round_pos b == b -> b < pow2 1024 ->
  exists r, round64 x = FFin r /\ 0 <= r /\ r <= b.
Proof.
  intros H0 Hb Hex Hfin. unfold round64.
  destruct (Qcompare_spec x 0) as [E|E|E].
  - exists 0. repeat split; lra.
  - exfalso. lra.
  - assert (Hr : round_pos x <= b).
    { rewrite <- Hex. apply round_pos_mono; assumption. }
    destruct (Qle_bool (pow2 1024) (round_pos x)) eqn:Ho.
    + apply Qle_bool_iff in Ho. exfalso. lra.
    + exists (round_pos x). repeat split; [apply round_pos_nonneg|]; assumption.
Qed.

Lemma round64_error x b e :
  0 < x -> x <= b -> round_pos b == b -> b < pow2 1024 ->
  b < pow2 (e + 53) -> (-1074 <= e)%Z ->
  exists r, round64 x = FFin r /\ 0 <= r /\ r <= b /\ Qabs (r - x) <= pow2 (e - 1).
Proof.
  intros H0 Hb Hex Hfin Hbe He.
  assert (Hx : 0 <= x) by lra.
  destruct (round64_bounded x b Hx Hb Hex Hfin) as (r & Hr & Hr0 & Hrb).
  exists r. repeat split; try assumption.
  unfold round64 in Hr. destruct (Qcompare_spec x 0) as [E|E|E]; try (exfalso; lra).
  destruct (Qle_bool (pow2 1024) (round_pos x)); [discriminate|].
  injection Hr as <-.
  eapply Qle_trans; [apply round_pos_error, H0|].
  apply pow2_le. assert (ulp_exp x <= e)%Z; [|lia].
  apply ulp_exp_le; [exact H0|lra|exact He].
Qed.

Lemma of_Z_exact n : (0 <= n <= 2 ^ 53)%Z -> exists r, of_Z n = FFin r /\ r == inject_Z n.
Proof.
  intros [H0 Hle]. unfold of_Z.
  destruct (Z.eq_dec n 0%Z) as [->|Hne]; [exists 0; split; reflexivity|].
  assert (Hn : (0 < n <= 2 ^ 53)%Z) by lia.
  pose proof (round_pos_Z n Hn) as Hex.
  assert (Hq : 0 < inject_Z n) by (change 0 with (inject_Z 0); rewrite <- Zlt_Qlt; lia).
  assert (Hfin : inject_Z n < pow2 1024).
  { rewrite pow2_Z by lia. rewrite <- Zlt_Qlt.
    apply Z.le_lt_trans with (2 ^ 53)%Z; [lia|]. apply Z.pow_lt_mono_r; lia. }
  destruct (round64_bounded (inject_Z n) (inject_Z n)) as (r & Hr & _ & Hrb);
    try assumption; try lra.
  exists r. split; [exact Hr|].
  unfold round64 in Hr. destruct (Qcompare_spec (inject_Z n) 0) as [E|E|E]; try (exfalso; lra).
  destruct (Qle_bool (pow2 1024) (round_pos (inject_Z n))); [discriminate|].
  injection Hr as <-. exact Hex.
Qed.

End Rounding.

(** ** Known values

    The decimal 0.1 is not a float; the nearest one is a little above it.
    Printing rounds the exact binary value, so 2.675 prints as 2.67, 0.005
    as 0.01, and the tie 0.125 goes to the even 0.12, as in Python. *)

Example tenth_as_float :
  match round64 (1 # 10) with
  | FFin q => (q == 3602879701896397 # 36028797018963968)%Q
  | _ => False
  end.
Proof. vm_compute. reflexivity. Qed.

Example format_two_places :
  map (fun q => format_fixed 2 (round64 q)) [2675 # 1000; 1 # 200; 1 # 8; -1 # 1000]%Q
  = ["2.67"; "0.01"; "0.12"; "-0.00"]%string.
Proof. vm_compute. reflexivity. Qed.

Example format_one_place :
  map (fun q => format_fixed 1 (round64 q)) [163 # 3; 1 # 4; 12345678 # 10]%Q
  = ["54.3"; "0.2"; "1234567.8"]%string.
Proof. vm_compute. reflexivity. Qed.

Example truediv_values :
  match py_truediv 207 96 with
  | Ok (FFin q) => (q == 69 # 32)%Q
  | _ => False
  end /\
  py_truediv 1 0 = Raise ZeroDivisionError.
Proof. split; vm_compute; reflexivity. Qed.

(** Closed instances of [binary]. *)
Ltac solve_binary :=
  unfold binary;
  repeat first [apply Forall_nil_2 | apply Forall_cons_2; [cbn; lia|]].

(** ** Masks select by predicate *)

Section Masks.

Implicit Types (df : Table) (r : Row).

Lemma getitem_mask_filter df (p : Row -> bool) :
  getitem_mask df (map p df) = Ok (filter (fun r => p r = true) df).
Proof.
  induction df as [|r df IH]; [reflexivity|].
  cbn [map getitem_mask]. rewrite IH. cbn [rbind].
  destruct (p r) eqn:E.
  - now rewrite filter_cons_True.
  - rewrite filter_cons_False; [reflexivity|congruence].
Qed.

Lemma series_eq_map df (f : Row -> Z) v :
  series_eq (map f df) v = map (fun r => f r =? v) df.
Proof. unfold series_eq. now rewrite map_map. Qed.

Lemma series_and_map df (p q : Row -> bool) :
  series_and (map p df) (map q df) = map (fun r => p r && q r) df.
Proof.
  unfold series_and. induction df as [|r df IH]; [reflexivity|].
  cbn. now rewrite IH.
Qed.

Lemma between_map df (f : Row -> Z) lo hi :
  between (map f df) lo hi = map (fun r => (lo <=? f r) && (f r <=? hi)) df.
Proof. unfold between. rewrite !map_map. apply series_and_map. Qed.

(** The three branches of the filter, as predicates on a row. *)
Lemma filtered_df_filter df g lo hi :
  filtered_df (gender_label g) (lo, hi) df = Ok (filter (in_selection g lo hi) df).
Proof.
  unfold filtered_df, getitem. destruct g; cbn -[between series_and series_eq getitem_mask];
    rewrite ?between_map, ?series_eq_map, ?series_and_map, getitem_mask_filter;
    f_equal; apply list_filter_iff; intros r; unfold in_selection;
    rewrite ?andb_true_iff, ?Z.leb_le, ?Z.eqb_eq; intuition congruence.
Qed.

End Masks.

(** C1. For every table, age range and gender choice, the filter returns
    exactly the rows of the table, in table order, whose age lies in the
    inclusive range and whose sex is 0 when Female is chosen and 1 when
    Male is chosen.  On a table with ages 29, 45, 71, range (30, 70) and
    Both, it returns the one row of age 45. *)
Theorem filter_exact :
  (forall (df : Table) (g : Gender) (lo hi : Z),
      filtered_df (gender_label g) (lo, hi) df
      = Ok (filter (in_selection g lo hi) df)) /\
  (forall r1 r2 r3 : Row,
      age r1 = 29 -> age r2 = 45 -> age r3 = 71 ->
      filtered_df (gender_label Both) (30, 70) [r1; r2; r3] = Ok [r2]).
Proof.
  split; [intros; apply filtered_df_filter|].
  intros r1 r2 r3 H1 H2 H3. rewrite filtered_df_filter.
  rewrite filter_cons_False by (unfold in_selection; lia).
  rewrite filter_cons_True by (unfold in_selection; repeat split; (lia || discriminate)).
  rewrite filter_cons_False by (unfold in_selection; lia).
  reflexivity.
Qed.

Lemma filter_exact_witness :
  filtered_df (gender_label Both) (30, 70)
    [mkRow 29 1 3 130 204 202 1; mkRow 45 0 1 112 160 138 0; mkRow 71 0 0 112 149 125 1]
  = Ok [mkRow 45 0 1 112 160 138 0].
Proof. apply (proj2 filter_exact); reflexivity. Defined.

(** ** Extremes of a column *)

Section Extremes.

Lemma fold_min_spec (s : list Z) (a : Z) :
  fold_left Z.min s a <= a /\
  Forall (fun x => fold_left Z.min s a <= x) s /\
  (fold_left Z.min s a = a \/ fold_left Z.min s a ∈ s).
Proof.
  revert a. induction s as [|x s IH]; intros a; cbn [fold_left].
  - repeat split; [lia|constructor|now left].
  - destruct (IH (Z.min a x)) as (H1 & H2 & H3). repeat split.
    + lia.
    + constructor; [lia|exact H2].
    + destruct H3 as [H3|H3].
      * destruct (Z.min_spec a x) as [[_ E]|[_ E]]; rewrite E in H3 |- *.
        -- now left.
        -- right. rewrite H3. apply list_elem_of_here.
      * right. now apply list_elem_of_further.
Qed.

Lemma fold_max_spec (s : list Z) (a : Z) :
  a <= fold_left Z.max s a /\
  Forall (fun x => x <= fold_left Z.max s a) s /\
  (fold_left Z.max s a = a \/ fold_left Z.max s a ∈ s).
Proof.
  revert a. induction s as [|x s IH]; intros a; cbn [fold_left].
  - repeat split; [lia|constructor|now left].
  - destruct (IH (Z.max a x)) as (H1 & H2 & H3). repeat split.
    + lia.
    + constructor; [lia|exact H2].
    + destruct H3 as [H3|H3].
      * destruct (Z.max_spec a x) as [[_ E]|[_ E]]; rewrite E in H3 |- *.
        -- right. rewrite H3. apply list_elem_of_here.
        -- now left.
      * right. now apply list_elem_of_further.
Qed.

Lemma series_min_spec (s : list Z) :
  s <> [] ->
  exists m, series_min s = Some m /\ m ∈ s /\ Forall (fun x => m <= x) s.
Proof.
  destruct s as [|a s]; [congruence|intros _].
  destruct (fold_min_spec s a) as (H1 & H2 & H3).
  exists (fold_left Z.min s a). split; [reflexivity|]. split.
  - destruct H3 as [->|H3]; [apply list_elem_of_here|now apply list_elem_of_further].
  - constructor; assumption.
Qed.

Lemma series_max_spec (s : list Z) :
  s <> [] ->
  exists m, series_max s = Some m /\ m ∈ s /\ Forall (fun x => x <= m) s.
Proof.
  destruct s as [|a s]; [congruence|intros _].
  destruct (fold_max_spec s a) as (H1 & H2 & H3).
  exists (fold_left Z.max s a). split; [reflexivity|]. split.
  - destruct H3 as [->|H3]; [apply list_elem_of_here|now apply list_elem_of_further].
  - constructor; assumption.
Qed.

Lemma filter_all {A : Type} (P : A -> Prop) `{!forall x, Decision (P x)} (l : list A) :
  Forall P l -> filter P l = l.
Proof.
  induction 1 as [|x l Hx _ IH]; [reflexivity|].
  rewrite filter_cons_True by assumption. now rewrite IH.
Qed.

End Extremes.

(** C5. On a table with at least one row, the slider bounds are the
    least and the greatest age of the table, and filtering with that
    range and Both returns the whole table. *)
Theorem filter_full_range (df : Table) :
  df <> [] ->
  exists lo hi : Z,
    slider_bounds df = Ok (lo, hi) /\
    (exists r, r ∈ df /\ age r = lo) /\
    (exists r, r ∈ df /\ age r = hi) /\
    (forall r, r ∈ df -> lo <= age r <= hi) /\
    filtered_df (gender_label Both) (lo, hi) df = Ok df.
Proof.
  intros Hne.
  assert (Hs : map age df <> []) by (destruct df; [congruence|discriminate]).
  destruct (series_min_spec _ Hs) as (lo & Elo & Ilo & Flo).
  destruct (series_max_spec _ Hs) as (hi & Ehi & Ihi & Fhi).
  exists lo, hi.
  assert (Hall : forall r, r ∈ df -> lo <= age r <= hi).
  { intros r Hr. rewrite Forall_forall in Flo, Fhi.
    split; [apply Flo|apply Fhi]; apply list_elem_of_fmap; exists r; auto. }
  repeat split.
  - unfold slider_bounds, getitem. cbn [field String.eqb rbind]. cbn -[series_min series_max].
    now rewrite Elo, Ehi.
  - apply list_elem_of_fmap in Ilo as (r & -> & Hr). now exists r.
  - apply list_elem_of_fmap in Ihi as (r & -> & Hr). now exists r.
  - now apply Hall.
  - now apply Hall.
  - rewrite filtered_df_filter. f_equal. apply filter_all.
    apply Forall_forall. intros r Hr. unfold in_selection.
    repeat split; try discriminate; now apply Hall.
Qed.

Lemma filter_full_range_witness :
  exists lo hi : Z,
    slider_bounds [mkRow 63 1 3 145 233 150 1; mkRow 37 1 2 130 250 187 1] = Ok (lo, hi) /\
    filtered_df (gender_label Both) (lo, hi)
      [mkRow 63 1 3 145 233 150 1; mkRow 37 1 2 130 250 187 1]
    = Ok [mkRow 63 1 3 145 233 150 1; mkRow 37 1 2 130 250 187 1].
Proof.
  destruct (filter_full_range [mkRow 63 1 3 145 233 150 1; mkRow 37 1 2 130 250 187 1])
    as (lo & hi & H1 & _ & _ & _ & H2); [discriminate|].
  exists lo, hi. split; assumption.
Defined.

(** ** The two genders split the selection *)

Section Partition.

Lemma filter_split {A : Type} (P Q R : A -> Prop)
      `{!forall x, Decision (P x)} `{!forall x, Decision (Q x)}
      `{!forall x, Decision (R x)} (l : list A) :
  Forall (fun x => (R x <-> P x \/ Q x) /\ ~ (P x /\ Q x)) l ->
  filter P l ++ filter Q l ≡ₚ filter R l.
Proof.
  induction 1 as [|x l [Hx Hn] _ IH]; [reflexivity|].
  destruct (decide (P x)) as [HP|HP]; destruct (decide (Q x)) as [HQ|HQ].
  - tauto.
  - rewrite (filter_cons_True P), (filter_cons_False Q), (filter_cons_True R) by tauto.
    cbn. now rewrite IH.
  - rewrite (filter_cons_False P), (filter_cons_True Q), (filter_cons_True R) by tauto.
    rewrite <- Permutation_middle. now rewrite IH.
  - rewrite (filter_cons_False P), (filter_cons_False Q), (filter_cons_False R) by tauto.
    exact IH.
Qed.

Lemma filter_Forall {A : Type} (P : A -> Prop) `{!forall x, Decision (P x)} (l : list A) :
  Forall P (filter P l).
Proof. apply Forall_forall. intros x Hx. now apply list_elem_of_filter in Hx. Qed.

Lemma sublist_filter_weaken {A : Type} (P R : A -> Prop)
      `{!forall x, Decision (P x)} `{!forall x, Decision (R x)} (l : list A) :
  (forall x, P x -> R x) -> filter P l `sublist_of` filter R l.
Proof.
  intros HPR. induction l as [|x l IH]; [reflexivity|].
  destruct (decide (P x)) as [HP|HP].
  - rewrite (filter_cons_True P), (filter_cons_True R) by auto.
    now apply sublist_skip.
  - rewrite (filter_cons_False P) by assumption.
    destruct (decide (R x)) as [HR|HR].
    + rewrite (filter_cons_True R) by assumption. now apply sublist_cons.
    + now rewrite (filter_cons_False R) by assumption.
Qed.

End Partition.

(** C10. On a table whose sex column is binary, and for every age range,
    the rows returned for Female and those returned for Male partition the
    rows returned for Both: each is taken from the Both rows in order, the
    Female rows all have sex 0 and the Male rows all have sex 1, together
    they are the Both rows, and their counts add up. *)
Theorem filter_gender_partition (df : Table) (lo hi : Z) :
  binary sex df ->
  exists tb tf tm : Table,
    filtered_df (gender_label Both) (lo, hi) df = Ok tb /\
    filtered_df (gender_label Female) (lo, hi) df = Ok tf /\
    filtered_df (gender_label Male) (lo, hi) df = Ok tm /\
    tf ++ tm ≡ₚ tb /\
    tf `sublist_of` tb /\ tm `sublist_of` tb /\
    Forall (fun r => sex r = 0) tf /\ Forall (fun r => sex r = 1) tm /\
    (length tf + length tm = length tb)%nat.
Proof.
  intros Hbin. rewrite !filtered_df_filter.
  eexists _, _, _. split; [reflexivity|]. split; [reflexivity|]. split; [reflexivity|].
  assert (HP : filter (in_selection Female lo hi) df ++ filter (in_selection Male lo hi) df
               ≡ₚ filter (in_selection Both lo hi) df).
  { apply filter_split. unfold binary in Hbin. rewrite Forall_forall in Hbin |- *.
    intros r Hr. specialize (Hbin r Hr). unfold in_selection.
    split; [split|]; intros; intuition (try discriminate; try lia). }
  repeat split.
  - exact HP.
  - apply sublist_filter_weaken. unfold in_selection. intuition discriminate.
  - apply sublist_filter_weaken. unfold in_selection. intuition discriminate.
  - eapply Forall_impl; [apply filter_Forall|]. unfold in_selection. cbn. tauto.
  - eapply Forall_impl; [apply filter_Forall|]. unfold in_selection. cbn. tauto.
  - rewrite <- length_app. now rewrite HP.
Qed.

Lemma filter_gender_partition_witness :
  exists tb tf tm : Table,
    filtered_df (gender_label Both) (30, 70)
      [mkRow 63 1 3 145 233 150 1; mkRow 41 0 1 130 204 172 1; mkRow 77 1 0 125 304 162 0] = Ok tb /\
    filtered_df (gender_label Female) (30, 70)
      [mkRow 63 1 3 145 233 150 1; mkRow 41 0 1 130 204 172 1; mkRow 77 1 0 125 304 162 0] = Ok tf /\
    filtered_df (gender_label Male) (30, 70)
      [mkRow 63 1 3 145 233 150 1; mkRow 41 0 1 130 204 172 1; mkRow 77 1 0 125 304 162 0] = Ok tm /\
    (length tf + length tm = length tb)%nat.
Proof.
  destruct (filter_gender_partition
              [mkRow 63 1 3 145 233 150 1; mkRow 41 0 1 130 204 172 1; mkRow 77 1 0 125 304 162 0]
              30 70) as (tb & tf & tm & H1 & H2 & H3 & _ & _ & _ & _ & _ & H4).
  - solve_binary.
  - exists tb, tf, tm. repeat split; assumption.
Defined.

(** ** The prevalence metric *)

Section Prevalence.

Local Open Scope Q_scope.

Lemma round64_zero x : x == 0 -> round64 x = FFin 0.
Proof. intros E. unfold round64. apply Qeq_alt in E. now rewrite E. Qed.

Lemma Qzerob_false q : 0 < q -> Qzerob q = false.
Proof.
  intros H. unfold Qzerob. destruct (Qeq_bool q 0) eqn:E; [|reflexivity].
  apply Qeq_bool_iff in E. lra.
Qed.

Lemma Qnegb_false q : 0 <= q -> Qnegb q = false.
Proof. intros H. unfold Qnegb. apply Qle_bool_iff in H. now rewrite H. Qed.

Lemma series_sum_from (s : list Z) (a : Z) :
  fold_left Z.add s a = (a + series_sum s)%Z.
Proof.
  unfold series_sum. revert a. induction s as [|x s IH]; intros a; cbn [fold_left].
  - lia.
  - rewrite (IH (a + x)%Z), (IH (0 + x)%Z). lia.
Qed.

Lemma series_sum_cons (x : Z) (s : list Z) :
  series_sum (x :: s) = (x + series_sum s)%Z.
Proof. unfold series_sum at 1. cbn [fold_left]. now rewrite series_sum_from. Qed.

Lemma series_sum_binary (f : Row -> Z) (df : Table) :
  binary f df ->
  (0 <= series_sum (map f df) <= Z.of_nat (length df))%Z.
Proof.
  induction 1 as [|r df Hr _ IH]; [cbn; lia|].
  cbn [map length]. rewrite series_sum_cons. lia.
Qed.

Lemma float_one : round_pos 1 == 1.
Proof. vm_compute. reflexivity. Qed.

Lemma float_hundred : round_pos 100 == 100.
Proof. vm_compute. reflexivity. Qed.

Lemma float_finite (n : Z) : (0 <= n <= 2 ^ 53)%Z -> inject_Z n < pow2 1024.
Proof.
  intros H. rewrite pow2_Z by lia. rewrite <- Zlt_Qlt.
  apply Z.le_lt_trans with (2 ^ 53)%Z; [lia|]. apply Z.pow_lt_mono_r; lia.
Qed.

(** The float mean of a binary column lies in [0, 1], next to the exact
    mean. *)
Lemma mean_binary (k n : Z) :
  (0 <= k <= n)%Z -> (0 < n <= 2 ^ 53)%Z ->
  exists m, fdiv (of_Z k) (of_Z n) = FFin m /\ 0 <= m /\ m <= 1 /\
            Qabs (m - inject_Z k / inject_Z n) <= pow2 (-53).
Proof.
  intros Hk Hn.
  destruct (of_Z_exact k) as (pk & -> & Ek); [lia|].
  destruct (of_Z_exact n) as (pn & -> & En); [lia|].
  assert (Hnq : 0 < inject_Z n) by (change 0 with (inject_Z 0); rewrite <- Zlt_Qlt; lia).
  assert (Hkq : 0 <= inject_Z k) by (change 0 with (inject_Z 0); rewrite <- Zle_Qle; lia).
  assert (Hkn : inject_Z k <= inject_Z n) by (rewrite <- Zle_Qle; lia).
  cbn [fdiv]. rewrite Qzerob_false by lra.
  assert (Ex : pk / pn == inject_Z k / inject_Z n) by now rewrite Ek, En.
  assert (Hx1 : inject_Z k / inject_Z n <= 1).
  { apply Qle_shift_div_r; [exact Hnq|lra]. }
  assert (Hx0 : 0 <= inject_Z k / inject_Z n).
  { apply Qle_shift_div_l; [exact Hnq|lra]. }
  destruct (Qlt_le_dec 0 (pk / pn)) as [Hpos|Hz].
  - destruct (round64_error (pk / pn) 1 (-52)) as (m & Hm & Hm0 & Hm1 & Herr);
      [exact Hpos | rewrite Ex; exact Hx1 | apply float_one | apply float_finite; lia
      | vm_compute; reflexivity | lia |].
    exists m. repeat split; try assumption.
    rewrite <- Ex. exact Herr.
  - assert (E0 : pk / pn == 0) by lra.
    rewrite (round64_zero _ E0). exists 0. repeat split; try lra.
    rewrite <- Ex, E0. vm_compute. discriminate.
Qed.

(** Times 100: in [0, 100], next to the exact product. *)
Lemma times_100 (m : Q) :
  0 <= m -> m <= 1 ->
  exists q, fmul (FFin m) (of_Z 100) = FFin q /\ 0 <= q /\ q <= 100 /\
            Qabs (q - 100 * m) <= pow2 (-47).
Proof.
  intros H0 H1.
  destruct (of_Z_exact 100) as (c & -> & Ec); [lia|].
  change (inject_Z 100) with 100 in Ec.
  cbn [fmul].
  assert (Ey : m * c == 100 * m) by (rewrite Ec; ring).
  destruct (Qlt_le_dec 0 (m * c)) as [Hpos|Hz].
  - destruct (round64_error (m * c) 100 (-46)) as (q & Hq & Hq0 & Hq1 & Herr);
      [exact Hpos | rewrite Ey; lra | apply float_hundred | apply float_finite; lia
      | vm_compute; reflexivity | lia |].
    exists q. repeat split; try assumption.
    rewrite <- Ey. exact Herr.
  - assert (E0 : m * c == 0) by lra.
    rewrite (round64_zero _ E0). exists 0. repeat split; try lra.
    rewrite <- Ey, E0. vm_compute. discriminate.
Qed.

(** The hundredths printed for a value in [0, 100]. *)
Lemma scaled_percent (q : Q) :
  0 <= q -> q <= 100 ->
  (0 <= scaled 2 q <= 10000)%Z /\
  Qabs (inject_Z (scaled 2 q) - 100 * q) <= 1 # 2.
Proof.
  intros H0 H1. unfold scaled.
  change (inject_Z (10 ^ Z.of_nat 2)) with 100.
  rewrite (round_half_even_comp (Qabs q * 100) (q * 100))
    by (rewrite (Qabs_pos q H0); reflexivity).
  repeat split.
  - rewrite <- (round_half_even_Z 0). apply round_half_even_mono.
    change (inject_Z 0) with 0. lra.
  - rewrite <- (round_half_even_Z 10000). apply round_half_even_mono.
    change (inject_Z 10000) with 10000. lra.
  - assert (E : 100 * q == q * 100) by ring. rewrite E.
    apply round_half_even_error.
Qed.

End Prevalence.

(** C4. The prevalence metric is the float mean of the target column
    times 100, printed with two decimals and a percent sign.  On a table
    with at least one row (and at most 2^53, so that counts are floats)
    whose target column is binary, the value is a finite float in
    [0, 100], within 2^-45 of a hundred times the exact mean, and the text
    is the nearest number of hundredths: integer part, point, two digits,
    percent sign. *)
Theorem prevalence_in_range :
  (forall df : Table,
      prevalence_metric df
      = Ok (format_fixed 2 (fmul (series_mean (map target df)) (of_Z 100)) +:+ "%")) /\
  (forall df : Table,
      df <> [] -> Z.of_nat (length df) <= 2 ^ 53 -> binary target df ->
      exists q : Q,
        prevalence df = Ok (FFin q) /\
        (0 <= q)%Q /\ (q <= 100)%Q /\
        (Qabs (q - 100 * mean (map target df)) <= pow2 (-45))%Q /\
        0 <= scaled 2 q <= 10000 /\
        (Qabs (inject_Z (scaled 2 q) - 100 * q) <= 1 # 2)%Q /\
        prevalence_metric df
        = Ok ((decimal (scaled 2 q / 100) +:+ "." +:+ digits_fixed 2 (scaled 2 q mod 100))
                +:+ "%")).
Proof.
  split; [reflexivity|].
  intros df Hne Hlen Hbin.
  pose proof (series_sum_binary target df Hbin) as Hsum.
  assert (Hn : 0 < Z.of_nat (length df)) by (destruct df; [congruence|cbn; lia]).
  destruct (mean_binary (series_sum (map target df)) (Z.of_nat (length df)))
    as (m & Hm & Hm0 & Hm1 & Hme); [lia|lia|].
  destruct (times_100 m Hm0 Hm1) as (q & Hq & Hq0 & Hq1 & Hqe).
  destruct (scaled_percent q Hq0 Hq1) as (Hk & Hke).
  assert (Hmean : series_mean (map target df) = FFin m).
  { unfold series_mean. rewrite length_map.
    destruct df; [congruence|exact Hm]. }
  assert (Hprev : prevalence df = Ok (FFin q)).
  { unfold prevalence, getitem. cbn [field String.eqb rbind].
    cbn -[series_mean of_Z fmul]. now rewrite Hmean, Hq. }
  exists q. repeat split; try assumption; try lia.
  - unfold mean. rewrite length_map.
    set (x := (inject_Z (series_sum (map target df)) / inject_Z (Z.of_nat (length df)))%Q) in *.
    apply Qabs_Qle_condition in Hme, Hqe. apply Qabs_Qle_condition.
    assert (E53 : (pow2 (-53) == 1 # 9007199254740992)%Q) by (vm_compute; reflexivity).
    assert (E47 : (pow2 (-47) == 1 # 140737488355328)%Q) by (vm_compute; reflexivity).
    assert (E45 : (pow2 (-45) == 1 # 35184372088832)%Q) by (vm_compute; reflexivity).
    rewrite E53 in Hme. rewrite E47 in Hqe. rewrite E45.
    split; lra.
  - unfold prevalence_metric. rewrite Hprev. cbn [rbind].
    unfold format_fixed. now rewrite (Qnegb_false q Hq0).
Qed.

Lemma prevalence_in_range_witness :
  exists q : Q,
    prevalence [mkRow 63 1 3 145 233 150 1; mkRow 67 1 0 160 286 108 0;
                mkRow 41 0 1 130 204 172 1] = Ok (FFin q) /\
    (0 <= q)%Q /\ (q <= 100)%Q /\
    prevalence_metric [mkRow 63 1 3 145 233 150 1; mkRow 67 1 0 160 286 108 0;
                       mkRow 41 0 1 130 204 172 1] = Ok "66.67%".
Proof.
  destruct (proj2 prevalence_in_range
              [mkRow 63 1 3 145 233 150 1; mkRow 67 1 0 160 286 108 0;
               mkRow 41 0 1 130 204 172 1])
    as (q & H1 & H2 & H3 & _).
  - discriminate.
  - cbn. lia.
  - solve_binary.
  - exists q. split; [exact H1|]. split; [exact H2|]. split; [exact H3|].
    vm_compute. reflexivity.
Defined.

(** ** Running the script step by step *)

Section Steps.

Context {A B : Type}.

Lemma bind_emit (e : Element) (k : unit -> M B) (s : State) :
  bind (emit e) k s = k tt (set_out (out s ++ [e]) s).
Proof. reflexivity. Qed.

Lemma bind_lift_ok (a : A) (k : A -> M B) (s : State) :
  bind (lift (Ok a)) k s = k a s.
Proof. reflexivity. Qed.

Lemma bind_lift_raise (e : PyExn) (k : A -> M B) (s : State) :
  bind (lift (Raise e)) k s = (Raise e, s).
Proof. reflexivity. Qed.

Lemma bind_read_frame (l : nat) (t : Table) (k : Table -> M B) (s : State) :
  heap s !! l = Some (ODataFrame t) -> bind (read_frame l) k s = k t s.
Proof. intros H. unfold bind, read_frame. now rewrite H. Qed.

Lemma bind_alloc (o : Obj) (k : nat -> M B) (s : State) :
  bind (alloc o) k s = k (length (heap s)) (set_heap (heap s ++ [o]) s).
Proof. reflexivity. Qed.

Lemma bind_read_summary (l : nat) (sm : Summary) (k : Summary -> M B) (s : State) :
  heap s !! l = Some (OSummary sm) -> bind (read_summary l) k s = k sm s.
Proof. intros H. unfold bind, read_summary. now rewrite H. Qed.

Lemma bind_store (l : nat) (o : Obj) (k : unit -> M B) (s : State) :
  bind (store l o) k s = k tt (set_heap (<[l := o]> (heap s)) s).
Proof. reflexivity. Qed.

End Steps.

(** ** The gender ratio *)

Section GenderRatio.

Lemma filter_length_zero {X : Type} (P : X -> Prop) `{!forall x, Decision (P x)} (l : list X) :
  length (filter P l) = 0%nat <-> Forall (fun x => ~ P x) l.
Proof.
  induction l as [|x l IH].
  - split; [constructor|reflexivity].
  - destruct (decide (P x)) as [HP|HP].
    + rewrite filter_cons_True by assumption. cbn. split; [discriminate|].
      intros HF. apply Forall_cons in HF as [HF _]. contradiction.
    + rewrite filter_cons_False by assumption. rewrite IH. split.
      * intros HF. now constructor.
      * intros HF. now apply Forall_cons in HF as [_ HF].
Qed.

Lemma prevalence_ok :
  (forall df : Table, exists p, prevalence_metric df = Ok p) /\
  (forall df : Table, exists a, average_age_metric df = Ok a).
Proof. split; intros df; eexists; reflexivity. Qed.

Lemma gender_ratio_counts (df : Table) :
  gender_ratio df
  = py_truediv (Z.of_nat (length (filter (fun r => sex r = 1) df)))
               (Z.of_nat (length (filter (fun r => sex r = 0) df))).
Proof.
  unfold gender_ratio, getitem. cbn [field String.eqb rbind].
  cbn -[series_eq getitem_mask py_truediv].
  rewrite !series_eq_map, !getitem_mask_filter. cbn [rbind].
  f_equal; do 2 f_equal; apply list_filter_iff; intros r; apply Z.eqb_eq.
Qed.

Lemma py_truediv_zero (a b : Z) :
  py_truediv a b = Raise ZeroDivisionError <-> b = 0.
Proof.
  unfold py_truediv. destruct (Z.eqb_spec b 0) as [E|E].
  - tauto.
  - split; [|contradiction].
    destruct (round64 _); discriminate.
Qed.

End GenderRatio.

(** C2, as the code has it.  The gender ratio raises ZeroDivisionError
    exactly on the tables without a row of sex 0.  Nothing catches it:
    on such a table the metrics panel shows the first three metrics and
    stops with that exception; no ratio, and no placeholder for it, is
    shown. *)
Theorem gender_ratio_zero_division (df : Table) :
  (gender_ratio df = Raise ZeroDivisionError <-> Forall (fun r => sex r <> 0) df) /\
  (Forall (fun r => sex r <> 0) df ->
   gender_ratio_metric df = Raise ZeroDivisionError /\
   forall (l : nat) (s : State),
     heap s !! l = Some (ODataFrame df) ->
     exists (p a : string) (s' : State),
       metrics_panel l s = (Raise ZeroDivisionError, s') /\
       heap s' = heap s /\
       out s' = out s ++ [EColumns 4;
                          EMetric "Total Patients" (decimal (Z.of_nat (length df)));
                          EMetric "Heart Disease Prevalence" p;
                          EMetric "Average Age" a]).
Proof.
  assert (Hiff : gender_ratio df = Raise ZeroDivisionError
                 <-> Forall (fun r => sex r <> 0) df).
  { rewrite gender_ratio_counts, py_truediv_zero.
    rewrite <- (filter_length_zero (fun r => sex r = 0)). lia. }
  split; [exact Hiff|]. intros Hno. apply Hiff in Hno.
  assert (Hm : gender_ratio_metric df = Raise ZeroDivisionError).
  { unfold gender_ratio_metric. now rewrite Hno. }
  split; [exact Hm|]. intros l s Hl.
  destruct (proj1 prevalence_ok df) as [p Hp].
  destruct (proj2 prevalence_ok df) as [a Ha].
  exists p, a. eexists. unfold metrics_panel.
  rewrite bind_emit, (bind_read_frame l df), bind_emit by exact Hl.
  rewrite (bind_read_frame l df), Hp, bind_lift_ok, bind_emit by exact Hl.
  rewrite (bind_read_frame l df), Ha, bind_lift_ok, bind_emit by exact Hl.
  rewrite (bind_read_frame l df), Hm, bind_lift_raise by exact Hl.
  split; [reflexivity|]. split; [reflexivity|].
  cbn. rewrite <- !app_assoc. reflexivity.
Qed.

Lemma gender_ratio_zero_division_witness :
  Forall (fun r => sex r <> 0) men /\
  gender_ratio men = Raise ZeroDivisionError /\
  gender_ratio_metric men = Raise ZeroDivisionError /\
  fst (metrics_panel 0 (mkState (only (GoodCsv men)) [] None [ODataFrame men] []))
  = Raise ZeroDivisionError.
Proof.
  assert (Hm : Forall (fun r => sex r <> 0) men).
  { repeat (apply Forall_cons_2; [cbn; lia|]). apply Forall_nil_2. }
  split; [exact Hm|].
  split; [apply (proj1 (gender_ratio_zero_division men)), Hm|].
  destruct (proj2 (gender_ratio_zero_division men) Hm) as [H1 H2].
  split; [exact H1|].
  destruct (H2 0%nat (mkState (only (GoodCsv men)) [] None [ODataFrame men] []) eq_refl)
    as (p & a & s' & E & _).
  now rewrite E.
Defined.

(** C2 as stated fails on a table of men: the metric is an
    uncaught ZeroDivisionError, the run of the script ends with it after
    the third metric, and nothing stands in for the ratio. *)
Lemma gender_ratio_no_sentinel :
  Forall (fun r => sex r <> 0) men /\
  ~ (exists text, gender_ratio_metric men = Ok text) /\
  fst (script untouched_widgets (start (only (GoodCsv men)))) = Raise ZeroDivisionError /\
  out (snd (script untouched_widgets (start (only (GoodCsv men)))))
  = [EPageConfig "Heart Disease Analysis" "wide";
     ETitle "Heart Disease Analysis - A New Perspective";
     ESidebarHeader "Explore Data";
     ESidebarCheckbox "Show Raw Data";
     EColumns 4;
     EMetric "Total Patients" "2";
     EMetric "Heart Disease Prevalence" "50.00%";
     EMetric "Average Age" "65.0 years"].
Proof.
  split; [repeat (apply Forall_cons_2; [cbn; lia|]); apply Forall_nil_2|].
  split; [intros [text H]; vm_compute in H; discriminate|].
  split; vm_compute; reflexivity.
Qed.

(** ** Frame rules *)

Section FrameRules.

Context {A B : Type}.
Implicit Types (n l : nat) (s : State).

Lemma untouched_refl n s : (n <= length (heap s))%nat -> untouched n s s.
Proof. unfold untouched. auto. Qed.

Lemma untouched_trans n s1 s2 s3 :
  untouched n s1 s2 -> untouched n s2 s3 -> untouched n s1 s3.
Proof.
  intros (_ & H1 & F1 & R1 & C1) (L2 & H2 & F2 & R2 & C2).
  repeat split; try congruence.
  intros l Hl. now rewrite H2, H1.
Qed.

Lemma frame_weaken n (m : M A) (Q Q' : A -> Prop) :
  frame n m Q -> (forall a, Q a -> Q' a) -> frame n m Q'.
Proof.
  intros Hm HQ s Hs. destruct (Hm s Hs) as [Hu Hq]. split; [exact Hu|auto].
Qed.

Lemma frame_bind n (m : M A) (k : A -> M B) (Q : A -> Prop) (R : B -> Prop) :
  frame n m Q -> (forall a, Q a -> frame n (k a) R) -> frame n (bind m k) R.
Proof.
  intros Hm Hk s Hs. destruct (Hm s Hs) as [Hu Hq]. unfold bind.
  destruct (m s) as [[a|e] s'] eqn:E; cbn [fst snd] in *.
  - destruct Hu as (Hs' & Hu). destruct (Hk a (Hq a eq_refl) s' Hs') as [Hu' Hr].
    split; [|exact Hr].
    eapply untouched_trans; [split; [exact Hs'|exact Hu]|exact Hu'].
  - split; [exact Hu|discriminate].
Qed.

Lemma frame_ret n (a : A) : frame n (ret a) (fun x => x = a).
Proof.
  intros s Hs. split; [now apply untouched_refl|].
  cbn. intros x Hx. congruence.
Qed.

Lemma frame_lift n (r : Res A) : frame n (lift r) (fun _ => True).
Proof. intros s Hs. split; [now apply untouched_refl|auto]. Qed.

End FrameRules.

Section FramePrimitives.

Implicit Types (n l : nat) (s : State).

Lemma frame_done n : frame n (ret tt) (fun _ => True).
Proof. eapply frame_weaken; [apply frame_ret|auto]. Qed.

Lemma frame_emit n (e : Element) : frame n (emit e) (fun _ => True).
Proof. intros s Hs. split; [|auto]. unfold untouched. cbn. auto. Qed.

Lemma frame_alloc n (o : Obj) : frame n (alloc o) (fun l => (n <= l)%nat).
Proof.
  intros s Hs. split.
  - unfold untouched. cbn. rewrite length_app. repeat split; try lia.
    intros l Hl. apply lookup_app_l. lia.
  - cbn. intros l Hl. injection Hl as <-. exact Hs.
Qed.

Lemma frame_read_frame n l : frame n (read_frame l) (fun _ => True).
Proof.
  intros s Hs. unfold read_frame.
  destruct (heap s !! l) as [[| |]|]; (split; [now apply untouched_refl|auto]).
Qed.

Lemma frame_read_summary n l : frame n (read_summary l) (fun _ => True).
Proof.
  intros s Hs. unfold read_summary.
  destruct (heap s !! l) as [[| |]|]; (split; [now apply untouched_refl|auto]).
Qed.

Lemma frame_read_figure n l : frame n (read_figure l) (fun _ => True).
Proof.
  intros s Hs. unfold read_figure.
  destruct (heap s !! l) as [[| |]|]; (split; [now apply untouched_refl|auto]).
Qed.

(** An update in place at or above [n] leaves what is below [n]. *)
Lemma frame_store n l (o : Obj) : (n <= l)%nat -> frame n (store l o) (fun _ => True).
Proof.
  intros Hl s Hs. split; [|auto].
  unfold untouched. cbn. rewrite length_insert. repeat split; try lia.
  intros l' Hl'. apply list_lookup_insert_ne. lia.
Qed.

Lemma frame_update_figure n l (op : FigOp) :
  (n <= l)%nat -> frame n (update_figure l op) (fun _ => True).
Proof.
  intros Hl. unfold update_figure.
  eapply frame_bind; [apply frame_read_figure|].
  intros f _. now apply frame_store.
Qed.

Lemma frame_for_each {X : Type} n (xs : list X) (body : X -> M unit) :
  (forall x, frame n (body x) (fun _ => True)) ->
  frame n (for_each xs body) (fun _ => True).
Proof.
  intros Hb. induction xs as [|x xs IH]; cbn [for_each].
  - apply frame_done.
  - eapply frame_bind; [apply Hb|]. intros _ _. exact IH.
Qed.

Lemma frame_checkbox n (label : string) (inp : Inputs) :
  frame n (checkbox label inp) (fun _ => True).
Proof.
  unfold checkbox. eapply frame_bind; [apply frame_emit|].
  intros _ _. eapply frame_weaken; [apply frame_ret|auto].
Qed.

Lemma frame_slider n (label : string) (lo hi : Z) (v : Z * Z) (inp : Inputs) :
  frame n (slider label lo hi v inp) (fun _ => True).
Proof.
  unfold slider. cbv zeta.
  eapply frame_bind; [apply frame_lift|]. intros _ _.
  eapply frame_bind; [apply frame_lift|]. intros _ _.
  eapply frame_bind; [apply frame_emit|].
  intros _ _. eapply frame_weaken; [apply frame_ret|auto].
Qed.

Lemma frame_selectbox n (label : string) (options : list Gender) (inp : Inputs) :
  frame n (selectbox label options inp) (fun _ => True).
Proof.
  unfold selectbox. eapply frame_bind; [apply frame_emit|].
  intros _ _. eapply frame_weaken; [apply frame_ret|auto].
Qed.

End FramePrimitives.

Create HintDb frame.

#[local] Hint Resolve frame_done frame_emit frame_alloc frame_read_frame
  frame_read_summary frame_read_figure frame_lift frame_checkbox frame_slider
  frame_selectbox : frame.
#[local] Hint Extern 1 (frame _ (store _ _) _) => apply frame_store; lia : frame.
#[local] Hint Extern 1 (frame _ (update_figure _ _) _) =>
  apply frame_update_figure; lia : frame.

(** One statement of a block: its rule, then the rest of the block. *)
Ltac frame_step :=
  lazymatch goal with
  | |- frame _ (bind _ _) _ =>
      eapply frame_bind; [solve [eauto with frame]|intros ? ?; cbv beta in *]
  | |- frame _ _ _ => solve [eauto with frame]
  end.

Ltac frame_block := repeat frame_step.

(** ** The sections of the page leave the table alone *)

Section FrameSections.

Implicit Types (n df : nat).

Lemma frame_metrics_panel n df : frame n (metrics_panel df) (fun _ => True).
Proof. unfold metrics_panel. frame_block. Qed.

Lemma frame_distribution_section n df :
  frame n (distribution_section df) (fun _ => True).
Proof. unfold distribution_section. frame_block. Qed.

Lemma frame_violin_pair n df fig6 (step : Z * string) :
  (n <= fig6)%nat -> frame n (violin_pair df fig6 step) (fun _ => True).
Proof. intros H. unfold violin_pair. cbv zeta. frame_block. Qed.

Lemma frame_relationship_section n df :
  frame n (relationship_section df) (fun _ => True).
Proof.
  unfold relationship_section. do 11 frame_step.
  eapply frame_bind.
  { apply frame_for_each. intros x. now apply frame_violin_pair. }
  intros _ _. frame_block.
Qed.

Lemma frame_insights_section n df : frame n (insights_section df) (fun _ => True).
Proof. unfold insights_section. frame_block. Qed.

Lemma frame_filter_section n df (inp : Inputs) :
  frame n (filter_section df inp) (fun _ => True).
Proof. unfold filter_section. frame_block. Qed.

Lemma frame_footer n : frame n footer (fun _ => True).
Proof. unfold footer. frame_block. Qed.

Lemma frame_page n df (inp : Inputs) : frame n (page df inp) (fun _ => True).
Proof.
  unfold page. do 2 frame_step.
  eapply frame_bind.
  { match goal with |- frame _ (if ?b then _ else _) _ => destruct b end; frame_block. }
  intros _ _.
  eapply frame_bind; [apply frame_metrics_panel|intros _ _].
  frame_step.
  eapply frame_bind; [apply frame_distribution_section|intros _ _].
  eapply frame_bind; [apply frame_relationship_section|intros _ _].
  eapply frame_bind; [apply frame_insights_section|intros _ _].
  eapply frame_bind; [apply frame_filter_section|intros _ _].
  apply frame_footer.
Qed.

(** What a frame gives for one object. *)
Lemma frame_keeps {X : Type} (m : M X) (Q : X -> Prop) (l : nat) (o : Obj) (s : State) :
  frame (S l) m Q -> heap s !! l = Some o ->
  heap (snd (m s)) !! l = Some o /\ cache (snd (m s)) = cache s /\
  reads (snd (m s)) = reads s.
Proof.
  intros Hm Hl.
  assert (Hs : (S l <= length (heap s))%nat).
  { apply lookup_lt_Some in Hl. lia. }
  destruct (Hm s Hs) as [(_ & Hh & _ & Hr & Hc) _].
  rewrite Hh by lia. auto.
Qed.

Lemma keeps_table (m : M unit) (l : nat) (t : Table) (s : State) :
  frame (S l) m (fun _ => True) -> heap s !! l = Some (ODataFrame t) ->
  heap (snd (m s)) !! l = Some (ODataFrame t) /\ cache (snd (m s)) = cache s.
Proof.
  intros Hm Hl. destruct (frame_keeps m _ l _ s Hm Hl) as (H1 & H2 & _). auto.
Qed.

End FrameSections.

(** C8. Whatever the state in which the loaded table sits at a location,
    and however the operation ends, the metrics panel, each of the three
    sections of the page (the third being the summary and the filter) and
    the page as a whole leave at that location the same table, row for
    row; the cached table is left as it is too. *)
Theorem table_immutable (df : nat) (t : Table) (inp : Inputs) (s : State) :
  heap s !! df = Some (ODataFrame t) ->
  Forall (fun op : M unit =>
            heap (snd (op s)) !! df = Some (ODataFrame t) /\
            cache (snd (op s)) = cache s)
         [metrics_panel df;
          distribution_section df;
          relationship_section df;
          insights_section df;
          filter_section df inp;
          page df inp].
Proof.
  intros Hdf.
  repeat apply Forall_cons_2; [..|apply Forall_nil_2];
    (eapply keeps_table; [|exact Hdf]);
    auto using frame_metrics_panel, frame_distribution_section,
      frame_relationship_section, frame_insights_section, frame_filter_section,
      frame_page.
Qed.

Lemma table_immutable_witness :
  Forall (fun op : M unit =>
            heap (snd (op (mkState (only (GoodCsv patients)) [] None
                                   [ODataFrame patients] [])))
              !! 0%nat = Some (ODataFrame patients) /\
            cache (snd (op (mkState (only (GoodCsv patients)) [] None
                                    [ODataFrame patients] []))) = None)
         [metrics_panel 0;
          distribution_section 0;
          relationship_section 0;
          insights_section 0;
          filter_section 0 untouched_widgets;
          page 0 untouched_widgets].
Proof.
  apply (table_immutable 0 patients untouched_widgets
           (mkState (only (GoodCsv patients)) [] None [ODataFrame patients] [])).
  reflexivity.
Defined.

(** ** Group keys *)

Section GroupKeys.

Implicit Types (k : Z) (ks s : list Z).

Lemma insert_sorted_elem k k' ks : k' ∈ insert_sorted k ks <-> k' = k \/ k' ∈ ks.
Proof.
  induction ks as [|h t IH]; cbn [insert_sorted].
  - rewrite list_elem_of_singleton, elem_of_nil. tauto.
  - destruct (Z.ltb_spec k h) as [L|L]; [now rewrite elem_of_cons|].
    destruct (Z.eqb_spec k h) as [E|E].
    + subst h. rewrite elem_of_cons. tauto.
    + rewrite !elem_of_cons, IH. tauto.
Qed.

Lemma insert_sorted_sorted k ks :
  StronglySorted Z.lt ks -> StronglySorted Z.lt (insert_sorted k ks).
Proof.
  induction 1 as [|h t Ht IH Hh]; cbn [insert_sorted].
  - repeat constructor.
  - destruct (Z.ltb_spec k h) as [L|L].
    + constructor; [now constructor|].
      constructor; [exact L|]. eapply Forall_impl; [exact Hh|]. cbn. lia.
    + destruct (Z.eqb_spec k h) as [E|E]; [now constructor|].
      constructor; [exact IH|].
      apply Forall_forall. intros x Hx. apply insert_sorted_elem in Hx as [->|Hx].
      * lia.
      * rewrite Forall_forall in Hh. now apply Hh.
Qed.

Lemma unique_sorted_elem k s : k ∈ unique_sorted s <-> k ∈ s.
Proof.
  unfold unique_sorted. induction s as [|x s IH]; cbn [fold_right].
  - tauto.
  - rewrite insert_sorted_elem, IH, elem_of_cons. tauto.
Qed.

Lemma unique_sorted_sorted s : StronglySorted Z.lt (unique_sorted s).
Proof.
  unfold unique_sorted. induction s as [|x s IH]; cbn [fold_right].
  - constructor.
  - now apply insert_sorted_sorted.
Qed.

Lemma sorted_NoDup ks : StronglySorted Z.lt ks -> NoDup ks.
Proof.
  induction 1 as [|h t Ht IH Hh]; constructor; [|exact IH].
  intros Hin. rewrite Forall_forall in Hh. specialize (Hh h Hin). lia.
Qed.

(** However the distinct values are listed, there are as many of them as
    there are groups. *)
Lemma distinct_count s ks :
  NoDup ks -> (forall k, k ∈ ks <-> k ∈ s) -> length (unique_sorted s) = length ks.
Proof.
  intros Hnd Hks. apply Permutation_length, NoDup_Permutation.
  - apply sorted_NoDup, unique_sorted_sorted.
  - exact Hnd.
  - intros k. now rewrite unique_sorted_elem, Hks.
Qed.

(** A binary column with both values has the keys 0 and 1. *)
Lemma unique_sorted_binary s :
  Forall (fun x => x = 0 \/ x = 1) s -> 0 ∈ s -> 1 ∈ s -> unique_sorted s = [0; 1].
Proof.
  intros Hb H0 H1.
  pose proof (unique_sorted_sorted s) as Hs.
  assert (Hk : forall k, k ∈ unique_sorted s <-> k = 0 \/ k = 1).
  { intros k. rewrite unique_sorted_elem. split.
    - intros Hk. rewrite Forall_forall in Hb. now apply Hb.
    - intros [->| ->]; assumption. }
  destruct (unique_sorted s) as [|a [|b [|c t]]].
  - exfalso. apply (elem_of_nil 0), Hk. now left.
  - exfalso.
    assert (Ha0 : 0 ∈ [a]) by (apply Hk; now left).
    assert (Ha1 : 1 ∈ [a]) by (apply Hk; now right).
    apply list_elem_of_singleton in Ha0, Ha1. lia.
  - inversion Hs as [|? ? _ Hab]; subst. apply Forall_cons in Hab as [Hab _].
    assert (Ha : a = 0 \/ a = 1) by (apply Hk, list_elem_of_here).
    assert (Hb' : b = 0 \/ b = 1) by (apply Hk, list_elem_of_further, list_elem_of_here).
    f_equal; [lia|f_equal; lia].
  - exfalso. inversion Hs as [|? ? Hs' Hab]; subst.
    inversion Hs' as [|? ? _ Hbc]; subst.
    apply Forall_cons in Hab as [Hab _]. apply Forall_cons in Hbc as [Hbc _].
    assert (Ha : a = 0 \/ a = 1) by (apply Hk, list_elem_of_here).
    assert (Hc : c = 0 \/ c = 1).
    { apply Hk. do 2 apply list_elem_of_further. apply list_elem_of_here. }
    lia.
Qed.

End GroupKeys.

(** ** The aggregated frame *)

Section Aggregation.

Implicit Types (df g : Table).

Lemma rmap_Forall2 {X Y : Type} (f : X -> Res Y) (P : X -> Y -> Prop) (l : list X) :
  (forall x, exists y, f x = Ok y /\ P x y) ->
  exists ys, rmap f l = Ok ys /\ Forall2 P l ys.
Proof.
  intros Hf. induction l as [|x l (ys & E & HP)].
  - exists []. split; [reflexivity|constructor].
  - destruct (Hf x) as (y & Ey & Hy). exists (y :: ys).
    cbn [rmap]. rewrite Ey, E. split; [reflexivity|now constructor].
Qed.

Lemma groupby_target df :
  groupby df "target"
  = Ok (map (fun k => (k, filter (fun r => target r = k) df))
            (unique_sorted (map target df))).
Proof.
  unfold groupby, getitem. cbn [field String.eqb rbind].
  cbn -[unique_sorted series_eq getitem_mask rmap].
  induction (unique_sorted (map target df)) as [|k ks IH]; [reflexivity|].
  cbn [rmap map]. rewrite IH, series_eq_map, getitem_mask_filter. cbn [rbind].
  do 3 f_equal. apply list_filter_iff. intros r. apply Z.eqb_eq.
Qed.

(** Every cell of a group's row is taken over one value per row of the
    group. *)
Lemma agg_row_cells g :
  exists cells,
    agg_row agg_spec g = Ok cells /\
    map cell_fn cells = [Mean; Std; Min; Max; Mean; Std; Mean; Std; Mean; Std] /\
    Forall (fun c => length (cell_input c) = length g) cells.
Proof.
  eexists. split; [reflexivity|]. split; [reflexivity|].
  repeat (apply Forall_cons_2; [cbn; apply length_map|]). apply Forall_nil_2.
Qed.

(** The frame that [agg] and [round] return: one row per distinct target
    value, ascending. *)
Lemma grouped_rows df :
  exists rows,
    Forall2 (fun k cells =>
               map cell_fn cells = [Mean; Std; Min; Max; Mean; Std; Mean; Std; Mean; Std] /\
               Forall (fun c => cell_decimals c = Some 2%nat /\
                                length (cell_input c)
                                = length (filter (fun r => target r = k) df)) cells)
            (unique_sorted (map target df)) rows /\
    grouped df
    = Ok {| index := map RowKey (unique_sorted (map target df));
            columns := flat_map (fun cf : string * list AggFn =>
                                   map (fun f => ColPair (fst cf) (agg_name f)) (snd cf))
                                agg_spec;
            data := rows |}.
Proof.
  unfold grouped. rewrite groupby_target. cbn [rbind]. unfold agg.
  set (ks := unique_sorted (map target df)).
  destruct (rmap_Forall2
              (fun kg : Z * Table => agg_row agg_spec (snd kg))
              (fun kg cells =>
                 map cell_fn cells = [Mean; Std; Min; Max; Mean; Std; Mean; Std; Mean; Std] /\
                 Forall (fun c => length (cell_input c) = length (snd kg)) cells)
              (map (fun k => (k, filter (fun r => target r = k) df)) ks))
    as (rows & Erows & Hrows).
  { intros [k g]. destruct (agg_row_cells g) as (cells & E & L & F).
    exists cells. auto. }
  rewrite Erows. cbn [rbind].
  exists (map (map (fun c => mkCell (cell_fn c) (cell_input c) (Some 2%nat))) rows).
  split.
  - apply Forall2_fmap_l in Hrows. apply Forall2_fmap_r.
    eapply Forall2_impl; [exact Hrows|].
    cbn. intros k cells [L F]. split; [now rewrite map_map|].
    apply Forall_fmap. eapply Forall_impl; [exact F|]. cbn. auto.
  - unfold round_frame. cbn [columns index data].
    rewrite map_map. cbn [fst].
    reflexivity.
Qed.

(** The frame before the row labels are assigned has the ten titled
    columns. *)
Lemma summary_before_index df :
  exists rows,
    Forall2 (fun k cells =>
               map cell_fn cells = [Mean; Std; Min; Max; Mean; Std; Mean; Std; Mean; Std] /\
               Forall (fun c => cell_decimals c = Some 2%nat /\
                                length (cell_input c)
                                = length (filter (fun r => target r = k) df)) cells)
            (unique_sorted (map target df)) rows /\
    summary df
    = set_index row_labels
        {| index := map RowKey (unique_sorted (map target df));
           columns := titles;
           data := rows |}.
Proof.
  destruct (grouped_rows df) as (rows & Hrows & E).
  exists rows. split; [exact Hrows|].
  unfold summary. rewrite E. reflexivity.
Qed.

Lemma binary_split (f : Row -> Z) df :
  binary f df ->
  (length (filter (fun r => f r = 0%Z) df) + length (filter (fun r => f r = 1%Z) df)
   = length df)%nat.
Proof.
  induction 1 as [|r df [E|E] _ IH]; [reflexivity| |].
  - rewrite (filter_cons_True (fun r => f r = 0)), (filter_cons_False (fun r => f r = 1))
      by (cbn; lia). cbn [length]. lia.
  - rewrite (filter_cons_False (fun r => f r = 0)), (filter_cons_True (fun r => f r = 1))
      by (cbn; lia). cbn [length]. lia.
Qed.

(** The row of a group before rounding. *)
Lemma agg_row_group g :
  agg_row agg_spec g
  = Ok (map (fun c => mkCell (cell_fn c) (cell_input c) None) (group_row g)).
Proof. reflexivity. Qed.

(** The aggregated frame, cell by cell: the row of a key holds the
    statistics of the rows with that key. *)
Lemma grouped_groups df :
  grouped df
  = Ok {| index := map RowKey (unique_sorted (map target df));
          columns := flat_map (fun cf : string * list AggFn =>
                                 map (fun f => ColPair (fst cf) (agg_name f)) (snd cf))
                              agg_spec;
          data := map (fun k => group_row (with_target k df))
                      (unique_sorted (map target df)) |}.
Proof.
  unfold grouped. rewrite groupby_target. cbn [rbind]. unfold agg.
  set (ks := unique_sorted (map target df)).
  assert (E : rmap (fun kg : Z * Table => agg_row agg_spec (snd kg))
                   (map (fun k => (k, filter (fun r => target r = k) df)) ks)
              = Ok (map (fun k => map (fun c => mkCell (cell_fn c) (cell_input c) None)
                                      (group_row (with_target k df))) ks)).
  { induction ks as [|k ks IH]; [reflexivity|].
    cbn [map rmap snd]. rewrite IH, agg_row_group. reflexivity. }
  rewrite E. cbn [rbind]. unfold round_frame. cbn [index columns data].
  rewrite !map_map. cbn [fst]. reflexivity.
Qed.

Lemma summary_groups df :
  summary df
  = set_index row_labels
      {| index := map RowKey (unique_sorted (map target df));
         columns := titles;
         data := map (fun k => group_row (with_target k df))
                     (unique_sorted (map target df)) |}.
Proof. unfold summary. rewrite grouped_groups. reflexivity. Qed.

(** With two distinct values in the target column, the first row of the
    summary is that of the smaller value and the second that of the
    larger. *)
Lemma summary_of_two_keys df (ks : list Z) :
  NoDup ks -> (forall k, k ∈ ks <-> k ∈ map target df) -> length ks = 2%nat ->
  exists k0 k1 : Z,
    k0 < k1 /\
    (forall k, k ∈ map target df <-> k = k0 \/ k = k1) /\
    groupby df "target" = Ok [(k0, with_target k0 df); (k1, with_target k1 df)] /\
    summary df
    = Ok {| index := [RowName "No Heart Disease"; RowName "Heart Disease"];
            columns := titles;
            data := [group_row (with_target k0 df); group_row (with_target k1 df)] |}.
Proof.
  intros Hnd Hks H2.
  pose proof (distinct_count (map target df) ks Hnd Hks) as Hlen. rewrite H2 in Hlen.
  pose proof (unique_sorted_sorted (map target df)) as Hs.
  pose proof (fun k => unique_sorted_elem k (map target df)) as Hel.
  pose proof (groupby_target df) as Hg. pose proof (summary_groups df) as Hsm.
  destruct (unique_sorted (map target df)) as [|k0 [|k1 [|? ?]]]; try discriminate.
  exists k0, k1. split; [|split; [|split]].
  - inversion Hs as [|? ? _ Hf]; subst. now apply Forall_cons in Hf as [Hf _].
  - intros k. rewrite <- Hel, !elem_of_cons, elem_of_nil. tauto.
  - exact Hg.
  - exact Hsm.
Qed.

End Aggregation.

(** ** The insights section shows the summary *)

Section Insights.

Lemma lookup_last (h : list Obj) (o : Obj) : (h ++ [o]) !! length h = Some o.
Proof. now apply list_lookup_middle. Qed.

Lemma insert_last (h : list Obj) (o o' : Obj) : <[length h := o']> (h ++ [o]) = h ++ [o'].
Proof.
  rewrite insert_app_r_alt by lia. now replace (length h - length h)%nat with 0%nat by lia.
Qed.

Ltac read_last :=
  erewrite bind_read_summary; [|cbn [heap set_heap set_out]; apply lookup_last].

(** The section ends as [summary] does, and shows the frame when there
    is one. *)
Lemma insights_section_summary (l : nat) (t : Table) (s : State) :
  heap s !! l = Some (ODataFrame t) ->
  fst (insights_section l s)
  = match summary t with Ok _ => Ok tt | Raise e => Raise e end /\
  out (snd (insights_section l s))
  = out s ++ ESubheader "Statistical Insights"
          :: match summary t with Ok sm => [ESummaryFrame sm] | Raise _ => [] end.
Proof.
  intros Hl. destruct (grouped_rows t) as (rows & _ & E).
  assert (Es : summary t
               = set_index row_labels
                   {| index := map RowKey (unique_sorted (map target t));
                      columns := titles; data := rows |}).
  { unfold summary. rewrite E. reflexivity. }
  unfold insights_section.
  rewrite bind_emit, (bind_read_frame l t), E, bind_lift_ok, bind_alloc by exact Hl.
  cbn [heap set_heap set_out files reads cache out].
  read_last.
  cbn [columns]. change (rmap column_title _) with (Ok titles).
  rewrite bind_lift_ok.
  read_last.
  change (set_columns titles _)
    with (Ok {| index := map RowKey (unique_sorted (map target t));
                columns := titles; data := rows |}).
  rewrite bind_lift_ok, bind_store.
  cbn [heap set_heap set_out files reads cache out].
  rewrite insert_last.
  read_last.
  rewrite <- Es.
  destruct (summary t) as [sm|e].
  - rewrite bind_lift_ok, bind_store.
    cbn [heap set_heap set_out files reads cache out].
    rewrite insert_last.
    read_last.
    cbn. rewrite <- app_assoc. split; reflexivity.
  - rewrite bind_lift_raise. cbn. split; reflexivity.
Qed.

End Insights.

(** C6. On a table whose target column is binary with both values
    present, grouping gives the two groups of target 0 and target 1, the
    summary has exactly two rows, labelled, each cell rounded to two
    decimals and aggregated over one value per row of its group, and the
    sizes of the two groups add up to the number of rows of the table.  The
    insights section shows that frame. *)
Theorem summary_two_groups (df : Table) :
  binary target df -> 0 ∈ map target df -> 1 ∈ map target df ->
  exists (g0 g1 : Table) (row0 row1 : list Cell),
    groupby df "target" = Ok [(0, g0); (1, g1)] /\
    summary df = Ok {| index := row_labels; columns := titles; data := [row0; row1] |} /\
    Forall (fun c => cell_decimals c = Some 2%nat /\ length (cell_input c) = length g0) row0 /\
    Forall (fun c => cell_decimals c = Some 2%nat /\ length (cell_input c) = length g1) row1 /\
    (length g0 + length g1 = length df)%nat /\
    forall (l : nat) (s : State),
      heap s !! l = Some (ODataFrame df) ->
      fst (insights_section l s) = Ok tt /\
      out (snd (insights_section l s))
      = out s ++ [ESubheader "Statistical Insights";
                  ESummaryFrame {| index := row_labels; columns := titles;
                                   data := [row0; row1] |}].
Proof.
  intros Hbin H0 H1.
  assert (Hks : unique_sorted (map target df) = [0; 1]).
  { apply unique_sorted_binary; try assumption.
    unfold binary in Hbin. now apply Forall_fmap. }
  destruct (summary_before_index df) as (rows & Hrows & Es).
  rewrite Hks in Hrows, Es.
  destruct rows as [|row0 [|row1 [|? ?]]];
    try (exfalso; apply Forall2_length in Hrows; discriminate).
  apply Forall2_cons in Hrows as [[_ F0] Hrows].
  apply Forall2_cons in Hrows as [[_ F1] _].
  exists (filter (fun r => target r = 0) df), (filter (fun r => target r = 1) df), row0, row1.
  split; [rewrite groupby_target, Hks; reflexivity|].
  split; [rewrite Es; reflexivity|].
  split; [exact F0|]. split; [exact F1|].
  split; [now apply binary_split|].
  intros l s Hl. destruct (insights_section_summary l df s Hl) as [Hr Ho].
  rewrite Hr, Ho, Es. split; reflexivity.
Qed.

Lemma summary_two_groups_witness :
  binary target patients /\
  exists (g0 g1 : Table) (row0 row1 : list Cell),
    groupby patients "target" = Ok [(0, g0); (1, g1)] /\
    summary patients
    = Ok {| index := row_labels; columns := titles; data := [row0; row1] |} /\
    (length g0 + length g1 = length patients)%nat.
Proof.
  assert (Hb : binary target patients) by solve_binary.
  split; [exact Hb|].
  destruct (summary_two_groups patients Hb) as (g0 & g1 & row0 & row1 & H1 & H2 & _ & _ & H3 & _).
  - apply list_elem_of_In. cbn. tauto.
  - apply list_elem_of_In. cbn. tauto.
  - exists g0, g1, row0, row1. auto.
Defined.

(** C9, as the code has it.  The summary is built exactly when the target
    column has two distinct values, whichever they are: the label "No Heart
    Disease" goes to the row of statistics of the rows with the smaller
    value and the label "Heart Disease" to that of the rows with the larger
    one, and the insights section shows that frame.  With any other number
    of distinct values the assignment of the two row labels raises the
    length mismatch, in [summary] and in the insights section.  When the
    column is binary, two distinct values means that 0 and 1 are both
    present. *)
Theorem summary_needs_two_values :
  (forall (df : Table) (ks : list Z),
      NoDup ks -> (forall k, k ∈ ks <-> k ∈ map target df) ->
      (length ks = 2%nat ->
       exists k0 k1 : Z,
         k0 < k1 /\
         (forall k, k ∈ map target df <-> k = k0 \/ k = k1) /\
         groupby df "target" = Ok [(k0, with_target k0 df); (k1, with_target k1 df)] /\
         summary df
         = Ok {| index := [RowName "No Heart Disease"; RowName "Heart Disease"];
                 columns := titles;
                 data := [group_row (with_target k0 df);
                          group_row (with_target k1 df)] |} /\
         forall (l : nat) (s : State),
           heap s !! l = Some (ODataFrame df) ->
           fst (insights_section l s) = Ok tt /\
           out (snd (insights_section l s))
           = out s ++ [ESubheader "Statistical Insights";
                       ESummaryFrame
                         {| index := [RowName "No Heart Disease"; RowName "Heart Disease"];
                            columns := titles;
                            data := [group_row (with_target k0 df);
                                     group_row (with_target k1 df)] |}]) /\
      (length ks <> 2%nat ->
       summary df = Raise (LengthMismatch (length ks) 2) /\
       forall (l : nat) (s : State),
         heap s !! l = Some (ODataFrame df) ->
         fst (insights_section l s) = Raise (LengthMismatch (length ks) 2))) /\
  (forall df : Table,
      binary target df ->
      ((exists sm, summary df = Ok sm) <-> 0 ∈ map target df /\ 1 ∈ map target df)).
Proof.
  assert (Hno : forall (df : Table) (ks : list Z),
      NoDup ks -> (forall k, k ∈ ks <-> k ∈ map target df) ->
      length ks <> 2%nat -> summary df = Raise (LengthMismatch (length ks) 2)).
  { intros df ks Hnd Hks H2.
    pose proof (distinct_count (map target df) ks Hnd Hks) as Hlen.
    rewrite summary_groups. unfold set_index. cbn [index columns data].
    rewrite length_map, Hlen. cbn [length row_labels].
    destruct (Nat.eqb_spec 2 (length ks)); [congruence|reflexivity]. }
  split.
  - intros df ks Hnd Hks. split; intros H2.
    + destruct (summary_of_two_keys df ks Hnd Hks H2) as (k0 & k1 & Hlt & Hel & Hg & Hsm).
      exists k0, k1. split; [exact Hlt|]. split; [exact Hel|].
      split; [exact Hg|]. split; [exact Hsm|].
      intros l s Hl. destruct (insights_section_summary l df s Hl) as [Hr Ho].
      rewrite Hr, Ho, Hsm. split; reflexivity.
    + split; [now apply Hno|].
      intros l s Hl. destruct (insights_section_summary l df s Hl) as [Hr _].
      now rewrite Hr, (Hno df ks Hnd Hks H2).
  - intros df Hbin.
    pose proof (sorted_NoDup _ (unique_sorted_sorted (map target df))) as Hnd.
    assert (Hks : forall k, k ∈ unique_sorted (map target df) <-> k ∈ map target df).
    { intros k. apply unique_sorted_elem. }
    assert (Hb : Forall (fun x => x = 0 \/ x = 1) (map target df)).
    { unfold binary in Hbin. now apply Forall_fmap. }
    split.
    + intros [sm Hsm].
      destruct (Nat.eq_dec (length (unique_sorted (map target df))) 2%nat) as [H2|H2];
        [|rewrite (Hno df _ Hnd Hks H2) in Hsm; discriminate].
      destruct (summary_of_two_keys df _ Hnd Hks H2) as (a & b & Hab & Hel & _).
      rewrite Forall_forall in Hb.
      assert (Ha : a ∈ map target df) by (apply Hel; now left).
      assert (Hb' : b ∈ map target df) by (apply Hel; now right).
      pose proof (Hb a Ha) as Ha01. pose proof (Hb b Hb') as Hb01.
      assert (a = 0) by lia. assert (b = 1) by lia. subst. auto.
    + intros [H0 H1].
      destruct (summary_of_two_keys df _ Hnd Hks) as (k0 & k1 & _ & _ & _ & Hsm).
      * now rewrite (unique_sorted_binary _ Hb H0 H1).
      * eauto.
Qed.

Lemma summary_needs_two_values_witness :
  NoDup [1] /\
  summary all_diseased = Raise (LengthMismatch 1 2) /\
  NoDup [1; 2] /\
  (exists k0 k1 : Z,
      k0 < k1 /\
      summary coded_1_2
      = Ok {| index := [RowName "No Heart Disease"; RowName "Heart Disease"];
              columns := titles;
              data := [group_row (with_target k0 coded_1_2);
                       group_row (with_target k1 coded_1_2)] |}) /\
  binary target patients /\
  exists sm, summary patients = Ok sm.
Proof.
  assert (Hnd : NoDup [1]) by (repeat constructor; apply not_elem_of_nil).
  assert (Hnd2 : NoDup [1; 2]).
  { apply NoDup_cons. split; [rewrite list_elem_of_singleton; lia|apply NoDup_singleton]. }
  assert (Hb : binary target patients) by solve_binary.
  split; [exact Hnd|]. split; [|split; [exact Hnd2|split; [|split; [exact Hb|]]]].
  - apply (proj2 (proj1 summary_needs_two_values all_diseased [1] Hnd
                          (fun k => ltac:(cbn; rewrite !elem_of_cons, !elem_of_nil; tauto)))).
    cbn. lia.
  - destruct (proj1 (proj1 summary_needs_two_values coded_1_2 [1; 2] Hnd2
                             (fun k => ltac:(cbn; rewrite !elem_of_cons, !elem_of_nil; lia)))
                    eq_refl) as (k0 & k1 & Hlt & _ & _ & Hsm & _).
    exists k0, k1. split; [exact Hlt|exact Hsm].
  - apply (proj2 summary_needs_two_values patients Hb).
    split; apply list_elem_of_In; cbn; tauto.
Defined.

(** C9 as stated fails on a table whose outcomes are coded 1 and
    2: the summary is built although no row has target 0. *)
Lemma summary_without_zero :
  (exists sm, summary coded_1_2 = Ok sm /\ index sm = row_labels) /\
  0 ∉ map target coded_1_2.
Proof.
  split.
  - eexists. split; reflexivity.
  - cbn. rewrite !elem_of_cons, elem_of_nil. lia.
Qed.


(** ** Loading *)

Section Loading.

Implicit Types (s : State) (t : Table).

Lemma load_data_miss s t :
  cache s = None -> parse (files s "heart.csv") = Ok t ->
  load_data s
  = (Ok (length (heap s)),
     mkState (files s) (reads s ++ ["heart.csv"]) (Some t)
             (heap s ++ [ODataFrame t]) (out s)).
Proof.
  intros Hc Hp. unfold load_data, bind, cache_data, load_data_body, read_csv.
  rewrite Hc, Hp. reflexivity.
Qed.

Lemma load_data_hit s t :
  cache s = Some t ->
  load_data s = (Ok (length (heap s)), set_heap (heap s ++ [ODataFrame t]) s).
Proof.
  intros Hc. unfold load_data, bind, cache_data. rewrite Hc. reflexivity.
Qed.

Lemma load_data_fail s (e : PyExn) :
  cache s = None -> parse (files s "heart.csv") = Raise e ->
  load_data s = (Raise e, set_reads (reads s ++ ["heart.csv"]) s).
Proof.
  intros Hc Hp. unfold load_data, bind, cache_data, load_data_body, read_csv.
  rewrite Hc, Hp. reflexivity.
Qed.

(** The script is the title, the load, and the page on what was loaded. *)
Lemma script_unfold (inp : Inputs) s :
  script inp s
  = match load_data
            (set_out ((out s ++ [EPageConfig "Heart Disease Analysis" "wide"])
                        ++ [ETitle "Heart Disease Analysis - A New Perspective"]) s) with
    | (Ok df, s') => page df inp s'
    | (Raise e, s') => (Raise e, s')
    end.
Proof. reflexivity. Qed.

(** A run that starts with the table cached, or with a readable file,
    has that table as its first object to the end, and reads the file
    only if nothing was cached. *)
Lemma script_loads (inp : Inputs) s t :
  heap s = [] ->
  (cache s = Some t \/ (cache s = None /\ parse (files s "heart.csv") = Ok t)) ->
  heap (snd (script inp s)) !! 0%nat = Some (ODataFrame t) /\
  cache (snd (script inp s)) = Some t /\
  reads (snd (script inp s))
  = match cache s with Some _ => reads s | None => reads s ++ ["heart.csv"] end.
Proof.
  intros Hh Hc. rewrite script_unfold.
  set (s0 := set_out _ s).
  assert (H0 : heap s0 = []) by exact Hh.
  destruct Hc as [Hc|[Hc Hp]].
  - rewrite (load_data_hit s0 t Hc), H0, Hc. cbn [length app].
    destruct (frame_keeps (page 0 inp) _ 0 (ODataFrame t)
                (set_heap [ODataFrame t] s0) (frame_page 1 0 inp) eq_refl)
      as (H1 & H2 & H3).
    rewrite H1, H2, H3. auto.
  - rewrite (load_data_miss s0 t Hc Hp), H0, Hc. cbn [length app].
    destruct (frame_keeps (page 0 inp) _ 0 (ODataFrame t)
                (mkState (files s0) (reads s0 ++ ["heart.csv"]) (Some t)
                         [ODataFrame t] (out s0))
                (frame_page 1 0 inp) eq_refl)
      as (H1 & H2 & H3).
    rewrite H1, H2, H3. auto.
Qed.

(** A run that finds nothing cached and a file that [read_csv] refuses
    ends at the load, with what [read_csv] raised. *)
Lemma script_fails_at_load (inp : Inputs) s (e : PyExn) :
  cache s = None -> parse (files s "heart.csv") = Raise e ->
  script inp s
  = (Raise e,
     mkState (files s) (reads s ++ ["heart.csv"]) None (heap s)
             (out s ++ [EPageConfig "Heart Disease Analysis" "wide";
                        ETitle "Heart Disease Analysis - A New Perspective"])).
Proof.
  intros Hc Hp. rewrite script_unfold, (load_data_fail _ e) by assumption.
  unfold set_reads, set_out. cbn [files reads cache heap out].
  rewrite Hc, <- app_assoc. reflexivity.
Qed.

End Loading.

(** C7. Let the file parse to a table.  The first call of the loader in
    a process reads the file once and caches the table.  Any process
    started on the same file content loads the same table: same rows,
    hence the same row count, under the same columns.  Every later call in
    the process returns the cached table without reading, whatever has
    become of the file; so a second run of the script works on the same
    table and the file has still been read once. *)
Theorem load_data_cached (fs : string -> CsvFile) (t : Table) :
  parse (fs "heart.csv") = Ok t ->
  load_data (start fs)
  = (Ok 0%nat, mkState fs ["heart.csv"] (Some t) [ODataFrame t] []) /\
  (forall fs' : string -> CsvFile,
      fs' "heart.csv" = fs "heart.csv" ->
      heap (snd (load_data (start fs'))) = [ODataFrame t]) /\
  (forall s : State,
      cache s = Some t ->
      load_data s = (Ok (length (heap s)), set_heap (heap s ++ [ODataFrame t]) s)) /\
  (forall (inp inp' : Inputs) (fs' : string -> CsvFile),
      let s1 := snd (script inp (start fs)) in
      let s2 := snd (script inp' (rerun (set_files fs' s1))) in
      heap s1 !! 0%nat = Some (ODataFrame t) /\
      heap s2 !! 0%nat = Some (ODataFrame t) /\
      reads s1 = ["heart.csv"] /\ reads s2 = ["heart.csv"]).
Proof.
  intros Hp. split; [|split; [|split]].
  - now apply (load_data_miss (start fs) t).
  - intros fs' E. rewrite (load_data_miss (start fs') t); [reflexivity..|].
    cbn. now rewrite E.
  - intros s Hc. now apply load_data_hit.
  - intros inp inp' fs' s1 s2.
    destruct (script_loads inp (start fs) t eq_refl) as (H1 & C1 & R1); [right; auto|].
    fold s1 in H1, C1, R1. cbn in R1.
    destruct (script_loads inp' (rerun (set_files fs' s1)) t eq_refl) as (H2 & C2 & R2);
      [left; exact C1|].
    fold s2 in H2, C2, R2. cbn [rerun set_files cache reads] in R2.
    rewrite C1, R1 in R2. auto.
Qed.

Lemma load_data_cached_witness :
  parse (only (GoodCsv patients) "heart.csv") = Ok patients /\
  load_data (start (only (GoodCsv patients)))
  = (Ok 0%nat, mkState (only (GoodCsv patients)) ["heart.csv"] (Some patients)
                       [ODataFrame patients] []) /\
  reads (snd (script untouched_widgets
                (rerun (set_files (only NoFile)
                          (snd (script untouched_widgets
                                  (start (only (GoodCsv patients)))))))))
  = ["heart.csv"].
Proof.
  split; [reflexivity|].
  destruct (load_data_cached (only (GoodCsv patients)) patients eq_refl)
    as (H1 & _ & _ & H4).
  split; [exact H1|].
  destruct (H4 untouched_widgets untouched_widgets (only NoFile)) as (_ & _ & _ & R).
  exact R.
Defined.

(** C3, as the code has it.  When the file is missing or cannot be
    parsed, the loader raises what [read_csv] raised, unchanged and
    whatever its class: nothing wraps it.  Nothing is cached and nothing
    catches the exception: the run ends with it, having rendered the page
    configuration and the title that precede the load and nothing else.
    The script has no way out of its own: with the file as it was, every
    later run ends the same way; and whatever has become of the file, a
    later run reads it again, ends in the same manner with what [read_csv]
    raises then, and works on the table only if the file has become
    readable. *)
Theorem load_failure_fatal (s : State) (inp : Inputs) (e : PyExn) :
  cache s = None -> parse (files s "heart.csv") = Raise e ->
  load_data s = (Raise e, set_reads (reads s ++ ["heart.csv"]) s) /\
  script inp s
  = (Raise e,
     mkState (files s) (reads s ++ ["heart.csv"]) None (heap s)
             (out s ++ [EPageConfig "Heart Disease Analysis" "wide";
                        ETitle "Heart Disease Analysis - A New Perspective"])) /\
  (forall inp' : Inputs,
      fst (script inp' (rerun (snd (script inp s)))) = Raise e /\
      out (snd (script inp' (rerun (snd (script inp s)))))
      = [EPageConfig "Heart Disease Analysis" "wide";
         ETitle "Heart Disease Analysis - A New Perspective"]) /\
  (forall (inp' : Inputs) (fs' : string -> CsvFile),
      (forall e' : PyExn,
          parse (fs' "heart.csv") = Raise e' ->
          script inp' (rerun (set_files fs' (snd (script inp s))))
          = (Raise e',
             mkState fs' ((reads s ++ ["heart.csv"]) ++ ["heart.csv"]) None []
                     [EPageConfig "Heart Disease Analysis" "wide";
                      ETitle "Heart Disease Analysis - A New Perspective"])) /\
      (forall t : Table,
          parse (fs' "heart.csv") = Ok t ->
          heap (snd (script inp' (rerun (set_files fs' (snd (script inp s))))))
            !! 0%nat = Some (ODataFrame t) /\
          reads (snd (script inp' (rerun (set_files fs' (snd (script inp s))))))
          = (reads s ++ ["heart.csv"]) ++ ["heart.csv"])).
Proof.
  intros Hc Hp.
  pose proof (script_fails_at_load inp s e Hc Hp) as Hrun.
  split; [now apply load_data_fail|]. split; [exact Hrun|]. split.
  - intros inp'. rewrite Hrun. cbn [snd].
    rewrite (script_fails_at_load inp' _ e); [split; reflexivity|reflexivity|exact Hp].
  - intros inp' fs'. rewrite Hrun. cbn [snd]. split.
    + intros e' Hp'.
      rewrite (script_fails_at_load inp' _ e'); [reflexivity|reflexivity|exact Hp'].
    + intros t Ht.
      match goal with
      | |- context [script inp' ?s0] =>
          destruct (script_loads inp' s0 t eq_refl) as (H1 & _ & H3);
            [right; split; [reflexivity|exact Ht]|]
      end.
      rewrite H1, H3. split; reflexivity.
Qed.

Lemma load_failure_fatal_witness :
  parse (files (start (only NoFile)) "heart.csv") = Raise FileNotFoundError /\
  script untouched_widgets (start (only NoFile))
  = (Raise FileNotFoundError,
     mkState (only NoFile) ["heart.csv"] None []
             [EPageConfig "Heart Disease Analysis" "wide";
              ETitle "Heart Disease Analysis - A New Perspective"]) /\
  fst (script untouched_widgets
         (rerun (set_files (only (BadCsv UnicodeDecodeError))
                   (snd (script untouched_widgets (start (only NoFile)))))))
  = Raise UnicodeDecodeError.
Proof.
  split; [reflexivity|].
  destruct (load_failure_fatal (start (only NoFile)) untouched_widgets
              FileNotFoundError eq_refl eq_refl) as (_ & H & _ & L).
  split; [exact H|].
  destruct (L untouched_widgets (only (BadCsv UnicodeDecodeError))) as [F _].
  now rewrite (F UnicodeDecodeError eq_refl).
Defined.

(** C3 as stated fails: a missing file and a file that does not parse
    end the run with two different exceptions, those of [read_csv] and
    neither of them a DataLoadError, and the page configuration and the
    title have been rendered by then. *)
Lemma load_failure_kinds :
  fst (script untouched_widgets (start (only NoFile))) = Raise FileNotFoundError /\
  fst (script untouched_widgets (start (only (BadCsv ParserError)))) = Raise ParserError /\
  FileNotFoundError <> ParserError /\
  FileNotFoundError <> OtherError "DataLoadError" /\
  ParserError <> OtherError "DataLoadError" /\
  out (snd (script untouched_widgets (start (only NoFile))))
  = [EPageConfig "Heart Disease Analysis" "wide";
     ETitle "Heart Disease Analysis - A New Perspective"].
Proof. repeat split; try reflexivity; discriminate. Qed.

(** * Further properties of the script *)

(** ** Quotients of counts *)

Section Quotients.

Local Open Scope Q_scope.

Lemma round_pos_comp x y : 0 < x -> x == y -> round_pos x == round_pos y.
Proof.
  intros Hx E. assert (Hy : 0 < y) by (rewrite <- E; exact Hx).
  apply Qle_antisym; apply round_pos_mono; try assumption; rewrite E; apply Qle_refl.
Qed.

(** In the normal range the rounding error is at most [2^-53] of the
    value. *)
Lemma round_pos_rel_error x :
  pow2 (-1022) <= x -> Qabs (round_pos x - x) <= x * pow2 (-53).
Proof.
  intros Hn. pose proof (pow2_pos (-1022)) as Hp.
  assert (Hx : 0 < x) by lra.
  destruct (ilog2_spec x Hx) as [L U].
  assert (Hl : (-1022 <= ilog2 x)%Z).
  { assert (H : pow2 (-1022) < pow2 (ilog2 x + 1)) by lra.
    apply pow2_lt_inv in H. lia. }
  assert (He : ulp_exp x = (ilog2 x - 52)%Z) by (unfold ulp_exp; lia).
  eapply Qle_trans; [apply round_pos_error, Hx|].
  rewrite He. replace (ilog2 x - 52 - 1)%Z with (ilog2 x + -53)%Z by lia.
  rewrite pow2_add. apply Qmult_le_compat_r; [exact L|].
  apply Qlt_le_weak, pow2_pos.
Qed.

Lemma inject_Z_pos (n : Z) : (0 < n)%Z -> 0 < inject_Z n.
Proof. intros H. change 0 with (inject_Z 0). now rewrite <- Zlt_Qlt. Qed.

Lemma inject_Z_nonneg (n : Z) : (0 <= n)%Z -> 0 <= inject_Z n.
Proof. intros H. change 0 with (inject_Z 0). now rewrite <- Zle_Qle. Qed.

(** The float nearest to a quotient of two counts: finite, within
    [2^-53] of the quotient in relative terms, and on the same side of
    every count as the quotient. *)
Lemma quotient_float (a b : Z) (x : Q) :
  (0 <= a <= 2 ^ 53)%Z -> (0 < b <= 2 ^ 53)%Z ->
  x == inject_Z a / inject_Z b ->
  exists q,
    round64 x = FFin q /\
    0 <= q /\
    Qabs (q - inject_Z a / inject_Z b) <= inject_Z a / inject_Z b * pow2 (-53) /\
    (forall c : Z, (0 <= c <= 2 ^ 53)%Z ->
                   inject_Z c <= inject_Z a / inject_Z b -> inject_Z c <= q) /\
    (forall c : Z, (0 <= c <= 2 ^ 53)%Z ->
                   inject_Z a / inject_Z b <= inject_Z c -> q <= inject_Z c).
Proof.
  intros Ha Hb Ex.
  pose proof (inject_Z_pos b (proj1 Hb)) as Hbq.
  pose proof (inject_Z_nonneg a (proj1 Ha)) as Haq.
  set (y := inject_Z a / inject_Z b) in *.
  assert (Hy0 : 0 <= y) by (apply Qle_shift_div_l; [exact Hbq|lra]).
  destruct (Z.eq_dec a 0%Z) as [Ea|Ea].
  - assert (Ey : y == 0) by (unfold y; rewrite Ea; field; lra).
    rewrite round64_zero by (rewrite Ex; exact Ey).
    exists 0. split; [reflexivity|]. split; [lra|]. split; [|split].
    + rewrite Ey. vm_compute. discriminate.
    + intros c Hc Hcy. lra.
    + intros c Hc Hcy. apply inject_Z_nonneg. lia.
  - assert (Ha1 : 1 <= inject_Z a).
    { change 1 with (inject_Z 1). rewrite <- Zle_Qle. lia. }
    assert (Hb53 : inject_Z b <= inject_Z (2 ^ 53)) by (rewrite <- Zle_Qle; lia).
    assert (Ha53 : inject_Z a <= inject_Z (2 ^ 53)) by (rewrite <- Zle_Qle; lia).
    assert (Hb1 : 1 <= inject_Z b).
    { change 1 with (inject_Z 1). rewrite <- Zle_Qle. lia. }
    assert (E53 : inject_Z (2 ^ 53) == 9007199254740992) by reflexivity.
    assert (Hylo : 1 # 9007199254740992 <= y).
    { apply Qle_shift_div_l; [exact Hbq|]. rewrite E53 in Hb53. lra. }
    assert (Hyhi : y <= inject_Z (2 ^ 53)).
    { apply Qle_shift_div_r; [exact Hbq|]. rewrite E53 in *. nra. }
    assert (Hx : 0 < x) by (rewrite Ex; lra).
    assert (Hr53 : round_pos x <= inject_Z (2 ^ 53)).
    { rewrite <- (round_pos_Z (2 ^ 53)) by lia.
      apply round_pos_mono; [exact Hx|]. rewrite Ex. exact Hyhi. }
    assert (Hfin : round64 x = FFin (round_pos x)).
    { unfold round64. destruct (Qcompare_spec x 0) as [E|E|E]; try (exfalso; lra).
      destruct (Qle_bool (pow2 1024) (round_pos x)) eqn:Ho; [|reflexivity].
      apply Qle_bool_iff in Ho. exfalso.
      pose proof (float_finite (2 ^ 53)) as Hf. assert (inject_Z (2 ^ 53) < pow2 1024) by (apply Hf; lia).
      lra. }
    exists (round_pos x). split; [exact Hfin|].
    split; [apply round_pos_nonneg, Hx|]. split; [|split].
    + assert (Hn : pow2 (-1022) <= x).
      { rewrite Ex. eapply Qle_trans; [|exact Hylo].
        change (1 # 9007199254740992) with (pow2 (-53)). apply pow2_le. lia. }
      pose proof (round_pos_rel_error x Hn) as Herr.
      rewrite Ex in Herr at 2 3. exact Herr.
    + intros c Hc Hcy. destruct (Z.eq_dec c 0%Z) as [->|Hc0].
      * apply round_pos_nonneg, Hx.
      * rewrite <- (round_pos_Z c) by lia.
        apply round_pos_mono; [apply inject_Z_pos; lia|]. rewrite Ex. exact Hcy.
    + intros c Hc Hcy.
      assert (Hcpos : (0 < c)%Z).
      { destruct (Z_lt_le_dec 0%Z c) as [H|H]; [exact H|exfalso].
        assert (inject_Z c <= 0) by (change 0 with (inject_Z 0); rewrite <- Zle_Qle; lia).
        lra. }
      rewrite <- (round_pos_Z c) by lia.
      apply round_pos_mono; [exact Hx|]. rewrite Ex. exact Hcy.
Qed.

End Quotients.

(** ** The average age and the gender ratio *)

Section Averages.

Lemma series_sum_bounds (s : list Z) (lo hi : Z) :
  Forall (fun x => lo <= x <= hi) s ->
  lo * Z.of_nat (length s) <= series_sum s <= hi * Z.of_nat (length s).
Proof.
  induction 1 as [|x s Hx _ IH]; [cbn; lia|].
  rewrite series_sum_cons. cbn [length]. lia.
Qed.

Lemma series_mean_quotient (s : list Z) :
  s <> [] -> 0 <= series_sum s <= 2 ^ 53 -> Z.of_nat (length s) <= 2 ^ 53 ->
  exists x : Q,
    series_mean s = round64 x /\
    (x == inject_Z (series_sum s) / inject_Z (Z.of_nat (length s)))%Q.
Proof.
  intros Hne Hs Hn.
  assert (Hpos : 0 < Z.of_nat (length s)) by (destruct s; [congruence|cbn; lia]).
  destruct (of_Z_exact (series_sum s) Hs) as (ps & Eps & Hps).
  destruct (of_Z_exact (Z.of_nat (length s))) as (pn & Epn & Hpn); [lia|].
  exists (ps / pn)%Q. split.
  - unfold series_mean. destruct s; [congruence|].
    rewrite Eps, Epn. cbn [fdiv].
    rewrite Qzerob_false; [reflexivity|]. rewrite Hpn. now apply inject_Z_pos.
  - now rewrite Hps, Hpn.
Qed.

End Averages.

(** X1. On a table with at least one row whose ages all lie between
    [lo >= 0] and [hi] (few enough rows for the sum of the ages to be a
    float), the average age is a finite float between [lo] and [hi], within
    [2^-53] of the exact mean in relative terms, and the metric shows it
    with one decimal and the word years. *)
Theorem average_age_between (df : Table) (lo hi : Z) :
  df <> [] ->
  0 <= lo ->
  Z.of_nat (length df) <= 2 ^ 53 ->
  hi * Z.of_nat (length df) <= 2 ^ 53 ->
  (forall r, r ∈ df -> lo <= age r <= hi) ->
  exists q : Q,
    series_mean (map age df) = FFin q /\
    (inject_Z lo <= q)%Q /\ (q <= inject_Z hi)%Q /\
    (Qabs (q - mean (map age df)) <= mean (map age df) * pow2 (-53))%Q /\
    average_age_metric df = Ok (format_fixed 1 (FFin q) +:+ " years").
Proof.
  intros Hne Hlo Hn Hhi Hall.
  assert (Hpos : 0 < Z.of_nat (length df)) by (destruct df; [congruence|cbn; lia]).
  assert (Hb : Forall (fun x => lo <= x <= hi) (map age df)).
  { apply Forall_fmap, Forall_forall. intros r Hr. now apply Hall. }
  pose proof (series_sum_bounds _ _ _ Hb) as Hs. rewrite length_map in Hs.
  assert (Hlohi : lo <= hi).
  { destruct df as [|r df]; [congruence|].
    specialize (Hall r (list_elem_of_here _ _)). lia. }
  assert (Hhi53 : hi <= 2 ^ 53) by nia.
  destruct (series_mean_quotient (map age df)) as (x & Em & Ex).
  { destruct df; [congruence|discriminate]. }
  { nia. }
  { now rewrite length_map. }
  rewrite length_map in Ex.
  destruct (quotient_float (series_sum (map age df)) (Z.of_nat (length df)) x)
    as (q & Eq & Hq0 & Herr & Hge & Hle); [nia|lia|exact Ex|].
  pose proof (inject_Z_pos _ Hpos) as Hnq.
  exists q. split; [now rewrite Em|]. split; [|split; [|split]].
  - apply Hge; [lia|].
    apply Qle_shift_div_l; [exact Hnq|].
    rewrite <- inject_Z_mult, <- Zle_Qle. lia.
  - apply Hle; [lia|].
    apply Qle_shift_div_r; [exact Hnq|].
    rewrite <- inject_Z_mult, <- Zle_Qle. lia.
  - unfold mean. rewrite length_map. exact Herr.
  - unfold average_age_metric, getitem. cbn [field String.eqb rbind].
    cbn -[series_mean format_fixed]. now rewrite Em, Eq.
Qed.

Lemma average_age_between_witness :
  patients <> [] /\
  (forall r, r ∈ patients -> 41 <= age r <= 67) /\
  exists q : Q,
    series_mean (map age patients) = FFin q /\
    (inject_Z 41 <= q)%Q /\ (q <= inject_Z 67)%Q /\
    average_age_metric patients = Ok "58.2 years".
Proof.
  assert (Hall : forall r, r ∈ patients -> 41 <= age r <= 67).
  { intros r Hr. apply list_elem_of_In in Hr. cbn in Hr.
    destruct Hr as [<-|[<-|[<-|[<-|[]]]]]; cbn; lia. }
  split; [discriminate|]. split; [exact Hall|].
  destruct (average_age_between patients 41 67) as (q & H1 & H2 & H3 & _ & H5);
    [discriminate|lia|cbn; lia|cbn; lia|exact Hall|].
  exists q. split; [exact H1|]. split; [exact H2|]. split; [exact H3|].
  vm_compute. reflexivity.
Defined.

(** X2. On a table of at most 2^53 rows with at least one row of sex 0,
    the gender ratio raises nothing: it is a finite float, within [2^-53]
    of males over females in relative terms, at least 1 when the men are at
    least as many as the women and at most 1 when they are at most as
    many; rows of any other sex value count on neither side.  The metric
    shows it with two decimals. *)
Theorem gender_ratio_value (df : Table) :
  Z.of_nat (length df) <= 2 ^ 53 ->
  (exists r, r ∈ df /\ sex r = 0) ->
  exists q : Q,
    gender_ratio df = Ok (FFin q) /\
    (0 <= q)%Q /\
    (Qabs (q - sex_count 1 df / sex_count 0 df)
     <= sex_count 1 df / sex_count 0 df * pow2 (-53))%Q /\
    ((with_sex 0 df <= with_sex 1 df)%nat -> (1 <= q)%Q) /\
    ((with_sex 1 df <= with_sex 0 df)%nat -> (q <= 1)%Q) /\
    gender_ratio_metric df = Ok (format_fixed 2 (FFin q)).
Proof.
  intros Hn (r0 & Hr0 & Hs0). unfold sex_count, with_sex.
  set (m := length (filter (fun r => sex r = 1) df)).
  set (f := length (filter (fun r => sex r = 0) df)).
  assert (Hm : (m <= length df)%nat) by apply length_filter.
  assert (Hf : (f <= length df)%nat) by apply length_filter.
  assert (Hf0 : (0 < f)%nat).
  { destruct (Nat.eq_dec f 0%nat) as [E|E]; [exfalso|lia].
    apply (filter_length_zero (fun r => sex r = 0)) in E.
    rewrite Forall_forall in E. now apply (E r0 Hr0). }
  destruct (quotient_float (Z.of_nat m) (Z.of_nat f)
              (inject_Z (Z.of_nat m) / inject_Z (Z.of_nat f))%Q)
    as (q & Eq & Hq0 & Herr & Hge & Hle); [lia|lia|reflexivity|].
  assert (Hfq : (0 < inject_Z (Z.of_nat f))%Q) by (apply inject_Z_pos; lia).
  assert (Eg : gender_ratio df = Ok (FFin q)).
  { rewrite gender_ratio_counts. fold m f. unfold py_truediv.
    destruct (Z.eqb_spec (Z.of_nat f) 0) as [E|_]; [lia|]. now rewrite Eq. }
  exists q. split; [exact Eg|]. split; [exact Hq0|]. split; [exact Herr|].
  split; [|split].
  - intros Hfm. apply (Hge 1); [lia|].
    apply Qle_shift_div_l; [exact Hfq|].
    rewrite Qmult_1_l, <- Zle_Qle. lia.
  - intros Hmf. apply (Hle 1); [lia|].
    apply Qle_shift_div_r; [exact Hfq|].
    rewrite Qmult_1_l, <- Zle_Qle. lia.
  - unfold gender_ratio_metric. now rewrite Eg.
Qed.

Lemma gender_ratio_value_witness :
  (exists r, r ∈ patients /\ sex r = 0) /\
  exists q : Q,
    gender_ratio patients = Ok (FFin q) /\ (1 <= q)%Q /\ (q <= 1)%Q /\
    gender_ratio_metric patients = Ok "1.00".
Proof.
  assert (Hf : exists r, r ∈ patients /\ sex r = 0).
  { exists (mkRow 41 0 1 130 204 172 1). split; [|reflexivity].
    apply list_elem_of_In. cbn. tauto. }
  split; [exact Hf|].
  destruct (gender_ratio_value patients) as (q & H1 & _ & _ & H4 & H5 & _);
    [cbn; lia|exact Hf|].
  exists q. split; [exact H1|].
  split; [apply H4; vm_compute; lia|]. split; [apply H5; vm_compute; lia|].
  vm_compute. reflexivity.
Defined.

(** ** Not a number *)

Section NotANumber.

Lemma round64_not_nan (x : Q) : round64 x <> FNaN.
Proof.
  unfold round64. destruct (Qcompare x 0); try discriminate;
    match goal with |- context [Qle_bool ?a ?b] => destruct (Qle_bool a b) end;
    discriminate.
Qed.

(** The mean of a column with at least one value is never NaN. *)
Lemma series_mean_nan (s : list Z) :
  Z.of_nat (length s) <= 2 ^ 53 -> (series_mean s = FNaN <-> s = []).
Proof.
  intros Hn. split; [|intros ->; reflexivity].
  destruct s as [|x s]; [reflexivity|]. intros H. exfalso. unfold series_mean in H.
  destruct (of_Z_exact (Z.of_nat (length (x :: s)))) as (pn & Epn & Hpn); [lia|].
  rewrite Epn in H.
  assert (Hz : Qzerob pn = false).
  { apply Qzerob_false. rewrite Hpn. apply inject_Z_pos. cbn [length]. lia. }
  pose proof (round64_not_nan (inject_Z (series_sum (x :: s)))) as Hsum.
  unfold of_Z in H. destruct (round64 (inject_Z (series_sum (x :: s)))) as [|sg|p];
    cbn [fdiv] in H; try congruence.
  rewrite Hz in H. now apply round64_not_nan in H.
Qed.

Lemma times_100_nan (m : float64) : fmul m (of_Z 100) = FNaN <-> m = FNaN.
Proof.
  destruct (of_Z_exact 100) as (c & Ec & Hc); [lia|]. rewrite Ec.
  assert (Hz : Qzerob c = false).
  { apply Qzerob_false. rewrite Hc. reflexivity. }
  destruct m as [|sg|p]; cbn [fmul]; rewrite ?Hz; split; try discriminate; try reflexivity.
  intros H. now apply round64_not_nan in H.
Qed.

End NotANumber.

(** X3. On a table of at most 2^53 rows, the prevalence and the average
    age are NaN exactly when the table has no row.  On the table without
    rows the metrics panel shows 0 patients, [nan%] and [nan years], and
    then stops with the ZeroDivisionError of the gender ratio. *)
Theorem metrics_on_empty_table :
  (forall df : Table,
      Z.of_nat (length df) <= 2 ^ 53 ->
      (prevalence df = Ok FNaN <-> df = []) /\
      (series_mean (map age df) = FNaN <-> df = [])) /\
  (forall (l : nat) (s : State),
      heap s !! l = Some (ODataFrame []) ->
      metrics_panel l s
      = (Raise ZeroDivisionError,
         set_out (out s ++ [EColumns 4;
                            EMetric "Total Patients" "0";
                            EMetric "Heart Disease Prevalence" "nan%";
                            EMetric "Average Age" "nan years"]) s)).
Proof.
  split.
  - intros df Hn. split.
    + unfold prevalence, getitem. cbn [field String.eqb rbind].
      cbn -[series_mean of_Z fmul].
      split.
      * intros H. injection H as H. apply (proj1 (times_100_nan _)) in H.
        assert (Hl : Z.of_nat (length (map target df)) <= 2 ^ 53) by now rewrite length_map.
        apply (proj1 (series_mean_nan _ Hl)) in H.
        now destruct df.
      * intros ->. reflexivity.
    + rewrite series_mean_nan by now rewrite length_map.
      split; [now destruct df|intros ->; reflexivity].
  - intros l s Hl. unfold metrics_panel.
    rewrite bind_emit, (bind_read_frame l []), bind_emit by exact Hl.
    rewrite (bind_read_frame l []) by exact Hl.
    change (prevalence_metric []) with (@Ok string "nan%").
    rewrite bind_lift_ok, bind_emit.
    rewrite (bind_read_frame l []) by exact Hl.
    change (average_age_metric []) with (@Ok string "nan years").
    rewrite bind_lift_ok, bind_emit.
    rewrite (bind_read_frame l []) by exact Hl.
    change (gender_ratio_metric []) with (@Raise string ZeroDivisionError).
    rewrite bind_lift_raise.
    unfold set_out. cbn [files reads cache heap out]. rewrite <- !app_assoc. reflexivity.
Qed.

Lemma metrics_on_empty_table_witness :
  (prevalence men = Ok FNaN <-> men = []) /\
  fst (metrics_panel 0 (mkState (only (GoodCsv [])) [] None [ODataFrame []] []))
  = Raise ZeroDivisionError.
Proof.
  split.
  - apply (proj1 metrics_on_empty_table men). cbn. lia.
  - now rewrite (proj2 metrics_on_empty_table 0%nat
                   (mkState (only (GoodCsv [])) [] None [ODataFrame []] []) eq_refl).
Defined.

(** ** Running the sections *)

Lemma bind_assoc {X Y Z : Type} (m : M X) (f : X -> M Y) (g : Y -> M Z) (s : State) :
  bind (bind m f) g s = bind m (fun a => bind (f a) g) s.
Proof. unfold bind. destruct (m s) as [[a|e] s']; reflexivity. Qed.

Section Runs.

Context {A B : Type}.

Lemma bind_ret_tt (k : unit -> M B) (s : State) : bind (ret tt) k s = k tt s.
Proof. reflexivity. Qed.

Lemma bind_ret (a : A) (k : A -> M B) (s : State) : bind (ret a) k s = k a s.
Proof. reflexivity. Qed.

Lemma bind_run (m : M A) (k : A -> M B) (a : A) (s s' : State) :
  m s = (Ok a, s') -> bind m k s = k a s'.
Proof. intros H. unfold bind. now rewrite H. Qed.

Lemma bind_fail (m : M A) (k : A -> M B) (e : PyExn) (s s' : State) :
  m s = (Raise e, s') -> bind m k s = (Raise e, s').
Proof. intros H. unfold bind. now rewrite H. Qed.

Lemma bind_read_figure (l : nat) (f : Figure) (k : Figure -> M B) (s : State) :
  heap s !! l = Some (OFigure f) -> bind (read_figure l) k s = k f s.
Proof. intros H. unfold bind, read_figure. now rewrite H. Qed.

Lemma bind_update_figure (l : nat) (f : Figure) (op : FigOp) (k : unit -> M B) (s : State) :
  heap s !! l = Some (OFigure f) ->
  bind (update_figure l op) k s
  = k tt (set_heap (<[l := OFigure (f ++ [op])]> (heap s)) s).
Proof.
  intros H. unfold update_figure. rewrite bind_assoc, (bind_read_figure l f) by exact H.
  reflexivity.
Qed.

End Runs.

Ltac norm_state :=
  cbn [heap set_heap set_out set_reads set_cache files reads cache out].

(** The table is where it was, below what was allocated since. *)
Ltac table_at Hl := norm_state; repeat apply lookup_app_l_Some; exact Hl.

(** The object allocated last. *)
Ltac last_object := norm_state; apply lookup_last.

Section SectionRuns.

Implicit Types (l : nat) (t : Table) (s : State).

Lemma distribution_section_run l t s :
  heap s !! l = Some (ODataFrame t) ->
  distribution_section l s
  = (Ok tt,
     set_out (out s ++ [ESubheader "Distribution of Patients";
                        EPlotlyChart (pie_figure t);
                        EPlotlyChart (age_histogram t);
                        EPlotlyChart (cp_histogram t)])
       (set_heap (heap s ++ [OFigure (pie_figure t);
                             OFigure (age_histogram t);
                             OFigure (cp_histogram t)]) s)).
Proof.
  intros Hl. unfold distribution_section.
  rewrite bind_emit, (bind_read_frame l t) by table_at Hl.
  change (getitem t "sex") with (Ok (map sex t)). rewrite bind_lift_ok. cbv zeta.
  rewrite bind_alloc. erewrite bind_read_figure by last_object.
  rewrite bind_emit, (bind_read_frame l t) by table_at Hl.
  rewrite bind_alloc. erewrite bind_read_figure by last_object.
  rewrite bind_emit, (bind_read_frame l t) by table_at Hl.
  rewrite bind_alloc. erewrite bind_read_figure by last_object.
  unfold emit, pie_figure, age_histogram, cp_histogram. norm_state.
  rewrite map_map, <- !app_assoc. reflexivity.
Qed.

(** The values of one half violin: a feature over the rows of one
    disease status. *)
Lemma violin_values t (v : Z) (feature : string) (column : Row -> Z) :
  field feature = Some column ->
  (tg <~ getitem t "target" ;;
   g <~ getitem_mask t (series_eq tg v) ;; getitem g feature)
  = Ok (map column (with_target v t)).
Proof.
  intros Hf. unfold getitem at 1. cbn [field String.eqb rbind].
  cbn -[series_eq getitem_mask getitem with_target].
  rewrite series_eq_map, getitem_mask_filter. cbn [rbind].
  unfold getitem. rewrite Hf. unfold with_target. do 2 f_equal.
  apply list_filter_iff. intros r. apply Z.eqb_eq.
Qed.

(** One turn of the loop adds the cell of its feature to the figure. *)
Lemma violin_pair_run l t (h : list Obj) (f : Figure) s (i : Z) (feature : string)
      (column : Row -> Z) (fig6 : nat) :
  heap s = h ++ [OFigure f] ->
  fig6 = length h ->
  h !! l = Some (ODataFrame t) ->
  field feature = Some column ->
  violin_pair l fig6 (i, feature) s
  = (Ok tt,
     set_heap (h ++ [OFigure (f ++ violin_cell t column (PyStr.title feature)
                                                (i / 2 + 1) (i mod 2 + 1))]) s).
Proof.
  intros Hh -> Hl Hf.
  assert (Hl' : heap s !! l = Some (ODataFrame t)).
  { rewrite Hh. now apply lookup_app_l_Some. }
  unfold violin_pair. cbv zeta. cbn [fst snd].
  rewrite (bind_read_frame l t) by exact Hl'.
  rewrite (violin_values t 0 feature column Hf), bind_lift_ok.
  erewrite bind_update_figure by (rewrite Hh; apply lookup_last).
  rewrite Hh, insert_last.
  rewrite (bind_read_frame l t) by (norm_state; now apply lookup_app_l_Some).
  rewrite (violin_values t 1 feature column Hf), bind_lift_ok.
  erewrite bind_update_figure by last_object.
  norm_state. rewrite insert_last.
  erewrite bind_update_figure by last_object.
  norm_state. rewrite insert_last.
  unfold update_figure.
  erewrite bind_read_figure by last_object.
  unfold store. norm_state. rewrite insert_last.
  unfold violin_cell, set_heap. norm_state. rewrite <- !app_assoc. reflexivity.
Qed.

Lemma relationship_section_run l t s :
  heap s !! l = Some (ODataFrame t) ->
  relationship_section l s
  = (Ok tt,
     set_out (out s ++ [ESubheader "Feature Relationships";
                        EPlotlyChart (scatter_figure t);
                        EPlotlyChart (heatmap_figure t);
                        EPlotlyChart (violin_figure t)])
       (set_heap (heap s ++ [OFigure (scatter_figure t);
                             OFigure (heatmap_figure t);
                             OFigure (violin_figure t)]) s)).
Proof.
  intros Hl. unfold relationship_section.
  rewrite bind_emit, (bind_read_frame l t) by table_at Hl.
  rewrite bind_alloc. erewrite bind_read_figure by last_object.
  rewrite bind_emit, (bind_read_frame l t) by table_at Hl.
  rewrite bind_alloc.
  erewrite bind_update_figure by last_object. norm_state. rewrite insert_last.
  erewrite bind_read_figure by last_object.
  rewrite bind_emit, bind_alloc. norm_state.
  unfold enumerate, features. cbn [enumerate_from for_each].
  do 4 (rewrite bind_assoc;
        erewrite bind_run
         by (eapply (violin_pair_run l t);
             [norm_state; reflexivity
             |rewrite !length_app; reflexivity
             |repeat apply lookup_app_l_Some; exact Hl
             |reflexivity]);
        norm_state).
  rewrite bind_ret_tt.
  erewrite bind_update_figure by last_object. norm_state. rewrite insert_last.
  erewrite bind_read_figure by last_object.
  unfold emit. norm_state.
  rewrite <- !app_assoc. reflexivity.
Qed.

Lemma metrics_panel_run l t s (p a r : string) :
  heap s !! l = Some (ODataFrame t) ->
  prevalence_metric t = Ok p ->
  average_age_metric t = Ok a ->
  gender_ratio_metric t = Ok r ->
  metrics_panel l s
  = (Ok tt,
     set_out (out s ++ [EColumns 4;
                        EMetric "Total Patients" (decimal (Z.of_nat (length t)));
                        EMetric "Heart Disease Prevalence" p;
                        EMetric "Average Age" a;
                        EMetric "Male to Female Ratio" r]) s).
Proof.
  intros Hl Hp Ha Hr. unfold metrics_panel.
  rewrite bind_emit, (bind_read_frame l t), bind_emit by table_at Hl.
  rewrite (bind_read_frame l t), Hp, bind_lift_ok, bind_emit by table_at Hl.
  rewrite (bind_read_frame l t), Ha, bind_lift_ok, bind_emit by table_at Hl.
  rewrite (bind_read_frame l t), Hr, bind_lift_ok by table_at Hl.
  unfold emit, set_out. norm_state. rewrite <- !app_assoc. reflexivity.
Qed.

Lemma metrics_panel_fail l t s (e : PyExn) :
  heap s !! l = Some (ODataFrame t) ->
  gender_ratio_metric t = Raise e ->
  fst (metrics_panel l s) = Raise e.
Proof.
  intros Hl Hr. destruct (proj1 prevalence_ok t) as [p Hp].
  destruct (proj2 prevalence_ok t) as [a Ha]. unfold metrics_panel.
  rewrite bind_emit, (bind_read_frame l t), bind_emit by table_at Hl.
  rewrite (bind_read_frame l t), Hp, bind_lift_ok, bind_emit by table_at Hl.
  rewrite (bind_read_frame l t), Ha, bind_lift_ok, bind_emit by table_at Hl.
  rewrite (bind_read_frame l t), Hr, bind_lift_raise by table_at Hl.
  reflexivity.
Qed.

Lemma insights_section_run l t s (sm : Summary) :
  heap s !! l = Some (ODataFrame t) ->
  summary t = Ok sm ->
  insights_section l s
  = (Ok tt,
     set_out (out s ++ [ESubheader "Statistical Insights"; ESummaryFrame sm])
       (set_heap (heap s ++ [OSummary sm]) s)).
Proof.
  intros Hl Hsm. destruct (grouped_rows t) as (rows & _ & E).
  assert (Es : summary t
               = set_index row_labels
                   {| index := map RowKey (unique_sorted (map target t));
                      columns := titles; data := rows |}).
  { unfold summary. rewrite E. reflexivity. }
  rewrite Hsm in Es.
  unfold insights_section.
  rewrite bind_emit, (bind_read_frame l t), E, bind_lift_ok, bind_alloc by exact Hl.
  norm_state. (erewrite bind_read_summary by last_object).
  cbn [columns]. change (rmap column_title _) with (Ok titles).
  rewrite bind_lift_ok. (erewrite bind_read_summary by last_object).
  change (set_columns titles _)
    with (Ok {| index := map RowKey (unique_sorted (map target t));
                columns := titles; data := rows |}).
  rewrite bind_lift_ok, bind_store. norm_state. rewrite insert_last. (erewrite bind_read_summary by last_object).
  rewrite <- Es, bind_lift_ok, bind_store. norm_state. rewrite insert_last. (erewrite bind_read_summary by last_object).
  unfold emit, set_out, set_heap. norm_state. rewrite <- !app_assoc. reflexivity.
Qed.

(** The slider on bounds in order and a value in order: it is shown
    with the bounds widened to the value, when these are safe. *)
Lemma slider_run (label : string) (lo hi a b : Z) (inp : Inputs) s :
  lo <= hi -> a <= b ->
  - (2 ^ 53 - 1) <= Z.min a lo -> Z.max b hi <= 2 ^ 53 - 1 ->
  slider label lo hi (a, b) inp s
  = (Ok (match age_slider inp with Some v => v | None => (a, b) end),
     set_out (out s ++ [ESlider label (Z.min a lo) (Z.max b hi) (a, b)]) s).
Proof.
  intros Hlh Hab Hmin Hmax. unfold slider. cbv zeta. cbn [fst snd].
  destruct (Z.ltb_spec b a) as [?|_]; [lia|]. cbn [fst snd].
  rewrite (Z.min_l lo hi), (Z.max_r lo hi) by lia.
  unfold validate_int_bounds, MIN_SAFE_INTEGER, MAX_SAFE_INTEGER.
  destruct (Z.ltb_spec (Z.min a lo) (- (2 ^ 53 - 1))) as [?|_]; [lia|].
  destruct (Z.ltb_spec (2 ^ 53 - 1) (Z.min a lo)) as [?|_]; [lia|].
  destruct (Z.ltb_spec (Z.max b hi) (- (2 ^ 53 - 1))) as [?|_]; [lia|].
  destruct (Z.ltb_spec (2 ^ 53 - 1) (Z.max b hi)) as [?|_]; [lia|].
  rewrite !bind_lift_ok, bind_emit. reflexivity.
Qed.

(** The slider refuses widened bounds that are not safe, and shows
    nothing. *)
Lemma slider_fail (label : string) (lo hi a b : Z) (inp : Inputs) s :
  lo <= hi -> a <= b ->
  Z.min a lo < - (2 ^ 53 - 1) \/ 2 ^ 53 - 1 < Z.max b hi ->
  slider label lo hi (a, b) inp s = (Raise StreamlitJSNumberBoundsError, s).
Proof.
  intros Hlh Hab Hout. unfold slider. cbv zeta. cbn [fst snd].
  destruct (Z.ltb_spec b a) as [?|_]; [lia|]. cbn [fst snd].
  rewrite (Z.min_l lo hi), (Z.max_r lo hi) by lia.
  unfold validate_int_bounds, MIN_SAFE_INTEGER, MAX_SAFE_INTEGER.
  destruct (Z.ltb_spec (Z.min a lo) (- (2 ^ 53 - 1))) as [?|?];
    [now rewrite bind_lift_raise|].
  destruct (Z.ltb_spec (2 ^ 53 - 1) (Z.min a lo)) as [?|?];
    [now rewrite bind_lift_raise|].
  rewrite bind_lift_ok.
  destruct (Z.ltb_spec (Z.max b hi) (- (2 ^ 53 - 1))) as [?|?];
    [now rewrite bind_lift_raise|].
  destruct (Z.ltb_spec (2 ^ 53 - 1) (Z.max b hi)) as [?|?];
    [now rewrite bind_lift_raise|].
  lia.
Qed.

(** The filter section on a table whose least and greatest age are
    safe. *)
Lemma filter_section_run l t s (inp : Inputs) (lo hi : Z) :
  heap s !! l = Some (ODataFrame t) ->
  slider_bounds t = Ok (lo, hi) ->
  lo <= hi -> - (2 ^ 53 - 1) <= lo -> hi <= 2 ^ 53 - 1 ->
  filter_section l inp s
  = (Ok tt,
     set_out
       (out s ++
        [ESubheader "Filter Data for Custom Analysis";
         ESlider "Select Age Range" (Z.min 30 lo) (Z.max 70 hi) (30, 70);
         ESelectbox "Select Gender" ["Both"; "Female"; "Male"];
         EWrite ("Filtered Data: "
                   +:+ decimal (Z.of_nat (length (shown inp t))) +:+ " patients");
         EDataFrame (shown inp t)])
       (set_heap (heap s ++ [ODataFrame (shown inp t)]) s)).
Proof.
  intros Hl Hb Hle Hlo Hhi. unfold filter_section, selectbox, shown, slider_value.
  rewrite bind_emit, (bind_read_frame l t), Hb, bind_lift_ok by table_at Hl.
  cbn [fst snd].
  erewrite bind_run by (apply slider_run; lia).
  rewrite bind_assoc, bind_emit, bind_ret.
  rewrite (bind_read_frame l t) by table_at Hl.
  destruct (age_slider inp) as [[a b]|];
    rewrite filtered_df_filter, bind_lift_ok, bind_alloc;
    (erewrite bind_read_frame by last_object);
    rewrite bind_emit; (erewrite bind_read_frame by last_object);
    unfold emit, set_out, set_heap; norm_state; rewrite <- !app_assoc; reflexivity.
Qed.

(** The filter section stops at the slider when an age is not safe. *)
Lemma filter_section_unsafe l t s (inp : Inputs) (lo hi : Z) :
  heap s !! l = Some (ODataFrame t) ->
  slider_bounds t = Ok (lo, hi) ->
  lo <= hi -> lo < - (2 ^ 53 - 1) \/ 2 ^ 53 - 1 < hi ->
  filter_section l inp s
  = (Raise StreamlitJSNumberBoundsError,
     set_out (out s ++ [ESubheader "Filter Data for Custom Analysis"]) s).
Proof.
  intros Hl Hb Hle Hout. unfold filter_section.
  rewrite bind_emit, (bind_read_frame l t), Hb, bind_lift_ok by table_at Hl.
  cbn [fst snd].
  erewrite bind_fail by (apply slider_fail; lia).
  reflexivity.
Qed.

Lemma filter_section_fail l t s (inp : Inputs) (e : PyExn) :
  heap s !! l = Some (ODataFrame t) ->
  slider_bounds t = Raise e ->
  fst (filter_section l inp s) = Raise e.
Proof.
  intros Hl Hb. unfold filter_section.
  rewrite bind_emit, (bind_read_frame l t), Hb, bind_lift_raise by table_at Hl.
  reflexivity.
Qed.

End SectionRuns.

(** ** The page as a whole *)

Section PageRuns.

Implicit Types (l : nat) (t : Table) (s : State).

Lemma footer_run s : footer s = (Ok tt, set_out (out s ++ footer_elements) s).
Proof.
  unfold footer. rewrite bind_emit. unfold emit, set_out. norm_state.
  rewrite <- app_assoc. reflexivity.
Qed.

Lemma fst_bind_fail {X Y : Type} (m : M X) (k : X -> M Y) (e : PyExn) s :
  fst (m s) = Raise e -> fst (bind m k s) = Raise e.
Proof. unfold bind. destruct (m s) as [[a|e'] s']; cbn; congruence. Qed.

(** The page up to the metrics. *)
Lemma page_sidebar l t s (inp : Inputs) :
  heap s !! l = Some (ODataFrame t) ->
  page l inp s
  = (metrics_panel l >>
     emit (ETabs ["Patient Distribution"; "Feature Relationships";
                  "Advanced Insights"]%string) >>
     distribution_section l >>
     relationship_section l >>
     insights_section l >>
     filter_section l inp >>
     footer)
      (set_out (out s ++ sidebar_elements inp t) s).
Proof.
  intros Hl. unfold page, checkbox, sidebar_elements.
  rewrite bind_emit, bind_assoc, bind_emit, bind_ret.
  destruct (show_raw_data inp).
  - rewrite bind_assoc, bind_emit, bind_assoc, (bind_read_frame l t), bind_emit
      by table_at Hl.
    unfold set_out. norm_state. rewrite <- !app_assoc. reflexivity.
  - rewrite bind_ret_tt. unfold set_out. norm_state. rewrite <- !app_assoc. reflexivity.
Qed.

Lemma page_run l t s (inp : Inputs) (p a r : string) (sm : Summary) (lo hi : Z) :
  heap s !! l = Some (ODataFrame t) ->
  prevalence_metric t = Ok p ->
  average_age_metric t = Ok a ->
  gender_ratio_metric t = Ok r ->
  summary t = Ok sm ->
  slider_bounds t = Ok (lo, hi) ->
  lo <= hi -> - (2 ^ 53 - 1) <= lo -> hi <= 2 ^ 53 - 1 ->
  page l inp s
  = (Ok tt,
     set_out (out s ++ sidebar_elements inp t ++ metric_elements t p a r
                    ++ tab_elements inp t sm lo hi ++ footer_elements)
       (set_heap (heap s ++ tail (run_objects inp t sm)) s)).
Proof.
  intros Hl Hp Ha Hr Hsm Hb Hle Hlo Hhi. rewrite (page_sidebar l t) by exact Hl.
  unfold set_out at 1. norm_state.
  erewrite bind_run by (apply (metrics_panel_run l t); [table_at Hl|eassumption..]).
  unfold set_out at 1. norm_state.
  rewrite bind_emit. unfold set_out at 1. norm_state.
  erewrite bind_run by (apply (distribution_section_run l t); table_at Hl).
  unfold set_out at 1, set_heap at 1. norm_state.
  erewrite bind_run by (apply (relationship_section_run l t); table_at Hl).
  unfold set_out at 1, set_heap at 1. norm_state.
  erewrite bind_run by (apply (insights_section_run l t); [table_at Hl|exact Hsm]).
  unfold set_out at 1, set_heap at 1. norm_state.
  erewrite bind_run
    by (apply (filter_section_run l t); [table_at Hl|exact Hb|assumption..]).
  unfold set_out at 1, set_heap at 1. norm_state.
  rewrite footer_run.
  unfold set_out, set_heap, metric_elements, tab_elements, run_objects. norm_state.
  cbn [tail]. rewrite <- !app_assoc. reflexivity.
Qed.

(** The page stops where the gender ratio fails. *)
Lemma page_fail_metrics l t s (inp : Inputs) (e : PyExn) :
  heap s !! l = Some (ODataFrame t) ->
  gender_ratio_metric t = Raise e ->
  fst (page l inp s) = Raise e.
Proof.
  intros Hl Hr. rewrite (page_sidebar l t) by exact Hl.
  apply fst_bind_fail. apply (metrics_panel_fail l t); [table_at Hl|exact Hr].
Qed.

(** The page stops where the summary fails. *)
Lemma page_fail_summary l t s (inp : Inputs) (r : string) (e : PyExn) :
  heap s !! l = Some (ODataFrame t) ->
  gender_ratio_metric t = Ok r ->
  summary t = Raise e ->
  fst (page l inp s) = Raise e.
Proof.
  intros Hl Hr Hsm. rewrite (page_sidebar l t) by exact Hl.
  destruct (proj1 prevalence_ok t) as [p Hp].
  destruct (proj2 prevalence_ok t) as [a Ha].
  unfold set_out at 1. norm_state.
  erewrite bind_run by (apply (metrics_panel_run l t); [table_at Hl|eassumption..]).
  unfold set_out at 1. norm_state.
  rewrite bind_emit. unfold set_out at 1. norm_state.
  erewrite bind_run by (apply (distribution_section_run l t); table_at Hl).
  unfold set_out at 1, set_heap at 1. norm_state.
  erewrite bind_run by (apply (relationship_section_run l t); table_at Hl).
  unfold set_out at 1, set_heap at 1. norm_state.
  apply fst_bind_fail.
  match goal with
  | |- fst (insights_section l ?s0) = _ =>
      destruct (insights_section_summary l t s0) as [H _]; [table_at Hl|]
  end.
  now rewrite H, Hsm.
Qed.

(** The page stops at the slider when an age is not safe. *)
Lemma page_fail_slider l t s (inp : Inputs) (r : string) (sm : Summary) (lo hi : Z) :
  heap s !! l = Some (ODataFrame t) ->
  gender_ratio_metric t = Ok r ->
  summary t = Ok sm ->
  slider_bounds t = Ok (lo, hi) ->
  lo <= hi -> lo < - (2 ^ 53 - 1) \/ 2 ^ 53 - 1 < hi ->
  fst (page l inp s) = Raise StreamlitJSNumberBoundsError.
Proof.
  intros Hl Hr Hsm Hb Hle Hout. rewrite (page_sidebar l t) by exact Hl.
  destruct (proj1 prevalence_ok t) as [p Hp].
  destruct (proj2 prevalence_ok t) as [a Ha].
  unfold set_out at 1. norm_state.
  erewrite bind_run by (apply (metrics_panel_run l t); [table_at Hl|eassumption..]).
  unfold set_out at 1. norm_state.
  rewrite bind_emit. unfold set_out at 1. norm_state.
  erewrite bind_run by (apply (distribution_section_run l t); table_at Hl).
  unfold set_out at 1, set_heap at 1. norm_state.
  erewrite bind_run by (apply (relationship_section_run l t); table_at Hl).
  unfold set_out at 1, set_heap at 1. norm_state.
  erewrite bind_run by (apply (insights_section_run l t); [table_at Hl|exact Hsm]).
  unfold set_out at 1, set_heap at 1. norm_state.
  apply fst_bind_fail.
  erewrite (filter_section_unsafe l t); [reflexivity|table_at Hl|exact Hb|exact Hle|exact Hout].
Qed.

End PageRuns.

(** ** Conditions of a complete run *)

Section Conditions.

Implicit Types (df : Table).

Lemma gender_ratio_finite df :
  Z.of_nat (length df) <= 2 ^ 53 ->
  (exists r, r ∈ df /\ sex r = 0) ->
  exists q : Q,
    gender_ratio df = Ok (FFin q) /\
    (0 <= q)%Q /\
    (Qabs (q - sex_count 1 df / sex_count 0 df)
     <= sex_count 1 df / sex_count 0 df * pow2 (-53))%Q /\
    (forall c : Z, 0 <= c <= 2 ^ 53 ->
                   (inject_Z c <= sex_count 1 df / sex_count 0 df)%Q -> (inject_Z c <= q)%Q) /\
    (forall c : Z, 0 <= c <= 2 ^ 53 ->
                   (sex_count 1 df / sex_count 0 df <= inject_Z c)%Q -> (q <= inject_Z c)%Q).
Proof.
  intros Hn (r0 & Hr0 & Hs0). unfold sex_count, with_sex.
  set (m := length (filter (fun r => sex r = 1) df)).
  set (f := length (filter (fun r => sex r = 0) df)).
  assert (Hm : (m <= length df)%nat) by apply length_filter.
  assert (Hf : (f <= length df)%nat) by apply length_filter.
  assert (Hf0 : (0 < f)%nat).
  { destruct (Nat.eq_dec f 0%nat) as [E|E]; [exfalso|lia].
    apply (filter_length_zero (fun r => sex r = 0)) in E.
    rewrite Forall_forall in E. now apply (E r0 Hr0). }
  destruct (quotient_float (Z.of_nat m) (Z.of_nat f)
              (inject_Z (Z.of_nat m) / inject_Z (Z.of_nat f))%Q)
    as (q & Eq & Hq0 & Herr & Hge & Hle); [lia|lia|reflexivity|].
  exists q. split; [|auto].
  rewrite gender_ratio_counts. fold m f. unfold py_truediv.
  destruct (Z.eqb_spec (Z.of_nat f) 0) as [E|_]; [lia|]. now rewrite Eq.
Qed.

Lemma slider_bounds_ok df :
  df <> [] ->
  exists lo hi : Z,
    slider_bounds df = Ok (lo, hi) /\ lo <= hi /\
    (forall r, r ∈ df -> lo <= age r <= hi) /\
    (exists r, r ∈ df /\ age r = lo) /\
    (exists r, r ∈ df /\ age r = hi).
Proof.
  intros Hne.
  assert (Hs : map age df <> []) by (destruct df; [congruence|discriminate]).
  destruct (series_min_spec _ Hs) as (lo & Elo & Ilo & Flo).
  destruct (series_max_spec _ Hs) as (hi & Ehi & Ihi & Fhi).
  exists lo, hi. rewrite Forall_forall in Flo, Fhi. split; [|split; [|split; [|split]]].
  - unfold slider_bounds, getitem. cbn [field String.eqb rbind].
    cbn -[series_min series_max]. now rewrite Elo, Ehi.
  - now apply Fhi.
  - intros r Hr. split; [apply Flo|apply Fhi]; apply list_elem_of_fmap; exists r; auto.
  - apply list_elem_of_fmap in Ilo as (r & E & Hr). exists r. auto.
  - apply list_elem_of_fmap in Ihi as (r & E & Hr). exists r. auto.
Qed.

(** The ages are safe exactly when the least and the greatest are. *)
Lemma safe_ages_bounds df (lo hi : Z) :
  (forall r, r ∈ df -> lo <= age r <= hi) ->
  (exists r, r ∈ df /\ age r = lo) ->
  (exists r, r ∈ df /\ age r = hi) ->
  safe_ages df <-> - (2 ^ 53 - 1) <= lo /\ hi <= 2 ^ 53 - 1.
Proof.
  intros Hall (rl & Hrl & El) (rh & Hrh & Eh). unfold safe_ages. rewrite Forall_forall.
  split.
  - intros Hs. pose proof (Hs rl Hrl). pose proof (Hs rh Hrh). lia.
  - intros [Hlo Hhi] r Hr. pose proof (Hall r Hr). lia.
Qed.

Lemma slider_bounds_empty : slider_bounds [] = Raise NaNToInteger.
Proof. reflexivity. Qed.

Lemma summary_by_count df (ks : list Z) :
  NoDup ks -> (forall k, k ∈ ks <-> k ∈ map target df) ->
  (length ks = 2%nat ->
   exists rows, length rows = 2%nat /\
     summary df = Ok {| index := row_labels; columns := titles; data := rows |}) /\
  (length ks <> 2%nat -> summary df = Raise (LengthMismatch (length ks) 2)).
Proof.
  intros Hnd Hks.
  pose proof (distinct_count (map target df) ks Hnd Hks) as Hlen.
  destruct (summary_before_index df) as (rows & Hrows & Es).
  apply Forall2_length in Hrows.
  unfold set_index in Es. cbn [index columns data] in Es.
  rewrite length_map, Hlen in Es. cbn [length row_labels] in Es.
  split; intros H2.
  - exists rows. split; [congruence|]. rewrite Es, H2. reflexivity.
  - rewrite Es. destruct (Nat.eqb_spec 2 (length ks)); [congruence|reflexivity].
Qed.

End Conditions.

Ltac solve_sizes :=
  unfold sizes_valid;
  repeat first [apply Forall_nil_2 | apply Forall_cons_2; [cbn; lia|]].

(** X4. On every table without a negative cholesterol value, the
    relationship section raises nothing and renders three charts: the scatter and the heatmap of the whole table,
    and the violin figure, whose 2 by 2 grid holds one cell per feature
    (age at 1,1; thalach at 1,2; chol at 2,1; trestbps at 2,2), each with
    the feature's values over the rows of target 0 on the negative side
    and over the rows of target 1 on the positive side.  The three figures
    are new objects; when the target column is binary the two sides of a
    cell together have one value per row of the table. *)
Theorem relationship_section_shows (l : nat) (t : Table) (s : State) :
  heap s !! l = Some (ODataFrame t) ->
  sizes_valid t ->
  relationship_section l s
  = (Ok tt,
     set_out (out s ++ [ESubheader "Feature Relationships";
                        EPlotlyChart (scatter_figure t);
                        EPlotlyChart (heatmap_figure t);
                        EPlotlyChart (violin_figure t)])
       (set_heap (heap s ++ [OFigure (scatter_figure t);
                             OFigure (heatmap_figure t);
                             OFigure (violin_figure t)]) s)) /\
  (binary target t ->
   forall column : Row -> Z,
     (length (map column (with_target 0 t)) + length (map column (with_target 1 t))
      = length t)%nat).
Proof.
  intros Hl _. split; [now apply relationship_section_run|].
  intros Hb column. rewrite !length_map. now apply binary_split.
Qed.

Lemma relationship_section_shows_witness :
  sizes_valid patients /\
  binary target patients /\
  fst (relationship_section 0 (mkState (only (GoodCsv patients)) [] None
                                       [ODataFrame patients] [])) = Ok tt /\
  (length (map chol (with_target 0 patients)) + length (map chol (with_target 1 patients))
   = 4)%nat.
Proof.
  assert (Hb : binary target patients) by solve_binary.
  assert (Hv : sizes_valid patients) by solve_sizes.
  destruct (relationship_section_shows 0 patients
              (mkState (only (GoodCsv patients)) [] None [ODataFrame patients] [])
              eq_refl Hv)
    as [H1 H2].
  split; [exact Hv|]. split; [exact Hb|]. split; [now rewrite H1|]. exact (H2 Hb chol).
Defined.

(** X5. A run on a file that parses to a table of at most 2^53 rows,
    none with a negative cholesterol value, ends in one of four ways,
    decided by the table alone.  Without a row of sex 0 it stops with
    ZeroDivisionError.  With such a row but a number of distinct target
    values other than two, it stops with the length mismatch of the row
    labels.  With such a row and exactly two distinct target values, it
    stops at the slider with the bounds error when some age is beyond
    2^53 - 1 in absolute value, and completes otherwise. *)
Theorem script_outcome (fs : string -> CsvFile) (t : Table) (inp : Inputs) (ks : list Z) :
  parse (fs "heart.csv") = Ok t ->
  Z.of_nat (length t) <= 2 ^ 53 ->
  sizes_valid t ->
  NoDup ks -> (forall k, k ∈ ks <-> k ∈ map target t) ->
  (Forall (fun r => sex r <> 0) t ->
   fst (script inp (start fs)) = Raise ZeroDivisionError) /\
  ((exists r, r ∈ t /\ sex r = 0) -> length ks <> 2%nat ->
   fst (script inp (start fs)) = Raise (LengthMismatch (length ks) 2)) /\
  ((exists r, r ∈ t /\ sex r = 0) -> length ks = 2%nat -> ~ safe_ages t ->
   fst (script inp (start fs)) = Raise StreamlitJSNumberBoundsError) /\
  ((exists r, r ∈ t /\ sex r = 0) -> length ks = 2%nat -> safe_ages t ->
   fst (script inp (start fs)) = Ok tt).
Proof.
  intros Hp Hn _ Hnd Hks.
  assert (Hrun : script inp (start fs)
                 = page 0 inp (mkState fs ["heart.csv"] (Some t) [ODataFrame t]
                                 [EPageConfig "Heart Disease Analysis" "wide";
                                  ETitle "Heart Disease Analysis - A New Perspective"])).
  { rewrite script_unfold. erewrite load_data_miss; [reflexivity..|exact Hp]. }
  rewrite Hrun.
  destruct (summary_by_count t ks Hnd Hks) as [Hyes Hno].
  assert (Hslider : (exists r, r ∈ t /\ sex r = 0) -> length ks = 2%nat ->
            exists (q : Q) (sm : Summary) (lo hi : Z),
              gender_ratio_metric t = Ok (format_fixed 2 (FFin q)) /\
              summary t = Ok sm /\ slider_bounds t = Ok (lo, hi) /\ lo <= hi /\
              (safe_ages t <-> - (2 ^ 53 - 1) <= lo /\ hi <= 2 ^ 53 - 1)).
  { intros Hf H2. destruct (gender_ratio_finite t Hn Hf) as (q & Eq & _).
    destruct (Hyes H2) as (rows & _ & Hsm).
    destruct (slider_bounds_ok t) as (lo & hi & Hb & Hle & Hall & Hlo & Hhi).
    { destruct Hf as (r & Hr & _). intros ->. now apply elem_of_nil in Hr. }
    exists q, {| index := row_labels; columns := titles; data := rows |}, lo, hi.
    split; [unfold gender_ratio_metric; now rewrite Eq|].
    split; [exact Hsm|]. split; [exact Hb|]. split; [exact Hle|].
    now apply safe_ages_bounds. }
  split; [|split; [|split]].
  - intros Hmen. apply (page_fail_metrics 0 t); [reflexivity|].
    unfold gender_ratio_metric.
    assert (E : gender_ratio t = Raise ZeroDivisionError).
    { rewrite gender_ratio_counts, py_truediv_zero.
      apply (filter_length_zero (fun r => sex r = 0)) in Hmen. lia. }
    now rewrite E.
  - intros Hf H2. destruct (gender_ratio_finite t Hn Hf) as (q & Eq & _).
    apply (page_fail_summary 0 t _ _ (format_fixed 2 (FFin q))); [reflexivity| |now apply Hno].
    unfold gender_ratio_metric. now rewrite Eq.
  - intros Hf H2 Hunsafe.
    destruct (Hslider Hf H2) as (q & sm & lo & hi & Hr & Hsm & Hb & Hle & Hsafe).
    apply (page_fail_slider 0 t _ _ (format_fixed 2 (FFin q)) sm lo hi); [reflexivity|exact Hr|exact Hsm|exact Hb|exact Hle|].
    destruct (Z_lt_dec lo (- (2 ^ 53 - 1))) as [?|?]; [now left|].
    destruct (Z_lt_dec (2 ^ 53 - 1) hi) as [?|?]; [now right|].
    exfalso. apply Hunsafe, Hsafe. lia.
  - intros Hf H2 Hs.
    destruct (Hslider Hf H2) as (q & sm & lo & hi & Hr & Hsm & Hb & Hle & Hsafe).
    apply (proj1 Hsafe) in Hs as [Hlo Hhi].
    destruct (proj1 prevalence_ok t) as [p Hpm].
    destruct (proj2 prevalence_ok t) as [a Ham].
    erewrite (page_run 0 t);
      [reflexivity|reflexivity|exact Hpm|exact Ham|exact Hr|exact Hsm|exact Hb
      |exact Hle|exact Hlo|exact Hhi].
Qed.

Lemma script_outcome_witness :
  parse (only (GoodCsv patients) "heart.csv") = Ok patients /\
  NoDup [0; 1] /\
  (exists r, r ∈ patients /\ sex r = 0) /\
  safe_ages patients /\
  fst (script untouched_widgets (start (only (GoodCsv patients)))) = Ok tt /\
  ~ safe_ages beyond_browser /\
  fst (script untouched_widgets (start (only (GoodCsv beyond_browser))))
  = Raise StreamlitJSNumberBoundsError.
Proof.
  assert (Hnd : NoDup [0; 1]).
  { apply NoDup_cons. split; [rewrite list_elem_of_singleton; lia|].
    apply NoDup_singleton. }
  assert (Hf : exists r, r ∈ patients /\ sex r = 0).
  { exists (mkRow 41 0 1 130 204 172 1). split; [|reflexivity].
    apply list_elem_of_In. cbn. tauto. }
  assert (Hs : safe_ages patients).
  { unfold safe_ages. repeat (apply Forall_cons_2; [cbn; lia|]). apply Forall_nil_2. }
  assert (Hf' : exists r, r ∈ beyond_browser /\ sex r = 0).
  { exists (mkRow (2 ^ 53 + 1) 0 0 120 200 150 0). split; [|reflexivity].
    apply list_elem_of_here. }
  assert (Hu : ~ safe_ages beyond_browser).
  { unfold safe_ages, beyond_browser. intros H. apply Forall_cons in H as [H _].
    cbn in H. lia. }
  split; [reflexivity|]. split; [exact Hnd|]. split; [exact Hf|]. split; [exact Hs|].
  split; [|split; [exact Hu|]].
  - destruct (script_outcome (only (GoodCsv patients)) patients untouched_widgets [0; 1])
      as (_ & _ & _ & H); [reflexivity|cbn; lia|solve_sizes|exact Hnd| |].
    + intros k. cbn. rewrite !elem_of_cons, !elem_of_nil. lia.
    + now apply H.
  - destruct (script_outcome (only (GoodCsv beyond_browser)) beyond_browser
                untouched_widgets [0; 1])
      as (_ & _ & H & _); [reflexivity|cbn; lia|solve_sizes|exact Hnd| |].
    + intros k. cbn. rewrite !elem_of_cons, !elem_of_nil. lia.
    + now apply H.
Defined.



(** X7. On a table with at least one row whose ages are safe, the filter
    section raises nothing.  It shows the slider from the lesser of 30 and
    the least age to the greater of 70 and the greatest age, so that the
    starting range (30, 70) lies within it; it shows the rows selected by
    the current range and gender, and the count it writes is the number of
    rows it shows.  The filtered table is a new object.  When some age is
    not safe, the section stops at the slider with the bounds error, and on
    a table without rows with the conversion of NaN to an integer; in both
    cases only its subheader has been shown. *)
Theorem filter_section_shows (l : nat) (t : Table) (s : State) (inp : Inputs) :
  heap s !! l = Some (ODataFrame t) ->
  (t = [] ->
   fst (filter_section l inp s) = Raise NaNToInteger /\
   out (snd (filter_section l inp s))
   = out s ++ [ESubheader "Filter Data for Custom Analysis"]) /\
  (t <> [] ->
   exists lo hi : Z,
     lo <= hi /\
     (forall r, r ∈ t -> lo <= age r <= hi) /\
     (exists r, r ∈ t /\ age r = lo) /\
     (exists r, r ∈ t /\ age r = hi) /\
     (~ safe_ages t ->
      filter_section l inp s
      = (Raise StreamlitJSNumberBoundsError,
         set_out (out s ++ [ESubheader "Filter Data for Custom Analysis"]) s)) /\
     (safe_ages t ->
      Z.min 30 lo <= 30 /\ 70 <= Z.max 70 hi /\
      filter_section l inp s
      = (Ok tt,
         set_out
           (out s ++
            [ESubheader "Filter Data for Custom Analysis";
             ESlider "Select Age Range" (Z.min 30 lo) (Z.max 70 hi) (30, 70);
             ESelectbox "Select Gender" ["Both"; "Female"; "Male"];
             EWrite ("Filtered Data: "
                       +:+ decimal (Z.of_nat (length (shown inp t))) +:+ " patients");
             EDataFrame (shown inp t)])
           (set_heap (heap s ++ [ODataFrame (shown inp t)]) s)))).
Proof.
  intros Hl. split.
  - intros ->. unfold filter_section.
    rewrite bind_emit, (bind_read_frame l []), slider_bounds_empty, bind_lift_raise
      by table_at Hl.
    split; reflexivity.
  - intros Hne.
    destruct (slider_bounds_ok t Hne) as (lo & hi & Hb & Hle & Hall & Hlo & Hhi).
    pose proof (safe_ages_bounds t lo hi Hall Hlo Hhi) as Hsafe.
    exists lo, hi. split; [exact Hle|]. split; [exact Hall|].
    split; [exact Hlo|]. split; [exact Hhi|]. split.
    + intros Hu. apply (filter_section_unsafe l t s inp lo hi Hl Hb Hle).
      destruct (Z_lt_dec lo (- (2 ^ 53 - 1))) as [?|?]; [now left|].
      destruct (Z_lt_dec (2 ^ 53 - 1) hi) as [?|?]; [now right|].
      exfalso. apply Hu, Hsafe. lia.
    + intros Hs. apply (proj1 Hsafe) in Hs as [Hslo Hshi].
      split; [lia|]. split; [lia|].
      now apply filter_section_run.
Qed.

Lemma filter_section_shows_witness :
  patients <> [] /\
  safe_ages patients /\
  out (snd (filter_section 0 (mkInputs false (Some (60, 70)) Male)
              (mkState (only (GoodCsv patients)) [] None [ODataFrame patients] [])))
  = [ESubheader "Filter Data for Custom Analysis";
     ESlider "Select Age Range" 30 70 (30, 70);
     ESelectbox "Select Gender" ["Both"; "Female"; "Male"];
     EWrite "Filtered Data: 2 patients";
     EDataFrame [mkRow 63 1 3 145 233 150 1; mkRow 67 1 0 160 286 108 0]].
Proof.
  assert (Hs : safe_ages patients).
  { unfold safe_ages. repeat (apply Forall_cons_2; [cbn; lia|]). apply Forall_nil_2. }
  split; [discriminate|]. split; [exact Hs|].
  destruct (proj2 (filter_section_shows 0 patients
                     (mkState (only (GoodCsv patients)) [] None [ODataFrame patients] [])
                     (mkInputs false (Some (60, 70)) Male) eq_refl))
    as (lo & hi & _ & _ & Hlo & Hhi & _ & H); [discriminate|].
  destruct (H Hs) as (_ & _ & E). rewrite E.
  assert (Hlo' : 41 <= lo).
  { destruct Hlo as (r & Hr & <-). unfold patients in Hr.
    rewrite !elem_of_cons, elem_of_nil in Hr.
    destruct Hr as [->|[->|[->|[->|[]]]]]; cbn; lia. }
  assert (Hhi' : hi <= 67).
  { destruct Hhi as (r & Hr & <-). unfold patients in Hr.
    rewrite !elem_of_cons, elem_of_nil in Hr.
    destruct Hr as [->|[->|[->|[->|[]]]]]; cbn; lia. }
  rewrite (Z.min_l 30 lo), (Z.max_l 70 hi) by lia. reflexivity.
Defined.

(** ** A failed load is tried again *)

(** X8. An exception of the loader is not cached.  If the file is
    missing or refused in one run and readable in the next run of the same
    process, the next run reads it again and works on its table, which is
    cached from then on: the file has been opened twice. *)
Theorem load_retried (fs fs' : string -> CsvFile) (e : PyExn) (t : Table)
        (inp inp' : Inputs) :
  parse (fs "heart.csv") = Raise e ->
  parse (fs' "heart.csv") = Ok t ->
  cache (snd (script inp (start fs))) = None /\
  heap (snd (script inp' (rerun (set_files fs' (snd (script inp (start fs)))))))
    !! 0%nat = Some (ODataFrame t) /\
  cache (snd (script inp' (rerun (set_files fs' (snd (script inp (start fs)))))))
  = Some t /\
  reads (snd (script inp' (rerun (set_files fs' (snd (script inp (start fs)))))))
  = ["heart.csv"; "heart.csv"].
Proof.
  intros He Ht.
  rewrite (script_fails_at_load inp (start fs) e eq_refl He). cbn [snd cache].
  split; [reflexivity|].
  match goal with
  | |- context [script inp' ?s0] =>
      destruct (script_loads inp' s0 t eq_refl) as (H1 & H2 & H3);
        [right; split; [reflexivity|exact Ht]|]
  end.
  rewrite H1, H2, H3. repeat split.
Qed.

Lemma load_retried_witness :
  parse (only NoFile "heart.csv") = Raise FileNotFoundError /\
  parse (only (GoodCsv patients) "heart.csv") = Ok patients /\
  reads (snd (script untouched_widgets
                (rerun (set_files (only (GoodCsv patients))
                          (snd (script untouched_widgets (start (only NoFile))))))))
  = ["heart.csv"; "heart.csv"].
Proof.
  split; [reflexivity|]. split; [reflexivity|].
  destruct (load_retried (only NoFile) (only (GoodCsv patients)) FileNotFoundError
              patients untouched_widgets untouched_widgets eq_refl eq_refl)
    as (_ & _ & _ & H).
  exact H.
Defined.

(** ** Groups *)

Section Groups.

Implicit Types (df : Table) (ks : list Z).

Lemma groups_cons_absent (r : Row) df ks :
  target r ∉ ks ->
  map (fun k => with_target k (r :: df)) ks = map (fun k => with_target k df) ks.
Proof.
  intros Hn. apply map_ext_in. intros k Hk. apply list_elem_of_In in Hk.
  unfold with_target. rewrite filter_cons_False; [reflexivity|].
  intros E. apply Hn. now rewrite E.
Qed.

Lemma groups_cons_present (r : Row) df ks :
  NoDup ks -> target r ∈ ks ->
  concat (map (fun k => with_target k (r :: df)) ks)
  ≡ₚ r :: concat (map (fun k => with_target k df) ks).
Proof.
  induction 1 as [|k ks Hk Hnd IH]; intros Hin.
  - now apply elem_of_nil in Hin.
  - cbn [map concat]. destruct (decide (target r = k)) as [E|E].
    + unfold with_target at 1. rewrite filter_cons_True by exact E.
      rewrite groups_cons_absent by (rewrite E; exact Hk). reflexivity.
    + unfold with_target at 1. rewrite filter_cons_False by exact E.
      apply elem_of_cons in Hin as [Hin|Hin]; [contradiction|].
      rewrite (IH Hin). fold (with_target k df).
      now rewrite Permutation_middle.
Qed.

(** The groups of the keys that occur, put end to end, are the table up
    to the order of the rows. *)
Lemma groups_cover df ks :
  NoDup ks -> (forall r, r ∈ df -> target r ∈ ks) ->
  concat (map (fun k => with_target k df) ks) ≡ₚ df.
Proof.
  intros Hnd. induction df as [|r df IH]; intros Hks.
  - clear. induction ks as [|k ks IH]; [reflexivity|exact IH].
  - rewrite groups_cons_present; [|exact Hnd|apply Hks, list_elem_of_here].
    rewrite IH; [reflexivity|]. intros r' Hr'. now apply Hks, list_elem_of_further.
Qed.

End Groups.

(** X9. Whatever the values of the target column, the grouping raises
    nothing and yields one group per distinct value, keys ascending; every
    group has at least one row and holds exactly the rows of its key, in
    table order; the groups put end to end are the table up to the order
    of the rows, so their sizes add up to the number of rows; and the frame
    aggregated from them has one row per group, indexed by the keys. *)
Theorem groupby_partitions (df : Table) :
  exists (groups : list (Z * Table)) (sm : Summary),
    groupby df "target" = Ok groups /\
    StronglySorted Z.lt (map fst groups) /\
    Forall (fun kg => snd kg <> [] /\ snd kg = with_target (fst kg) df) groups /\
    concat (map snd groups) ≡ₚ df /\
    length (concat (map snd groups)) = length df /\
    grouped df = Ok sm /\
    index sm = map (fun kg => RowKey (fst kg)) groups /\
    length (data sm) = length groups.
Proof.
  set (ks := unique_sorted (map target df)).
  destruct (grouped_rows df) as (rows & Hrows & Eg). fold ks in Hrows, Eg.
  eexists (map (fun k => (k, with_target k df)) ks), _.
  split; [apply groupby_target|].
  rewrite !map_map. cbn [fst snd].
  assert (Hcover : concat (map (fun k => with_target k df) ks) ≡ₚ df).
  { apply groups_cover.
    - apply sorted_NoDup, unique_sorted_sorted.
    - intros r Hr. apply unique_sorted_elem, list_elem_of_fmap. now exists r. }
  split; [|split; [|split; [|split; [|split; [|split]]]]].
  - rewrite map_id. apply unique_sorted_sorted.
  - apply Forall_fmap, Forall_forall. intros k Hk. cbn [fst snd]. split; [|reflexivity].
    apply unique_sorted_elem, list_elem_of_fmap in Hk as (r & -> & Hr).
    intros E. cbn [snd] in E. assert (Hin : r ∈ with_target (target r) df).
    { apply list_elem_of_filter. auto. }
    rewrite E in Hin. now apply elem_of_nil in Hin.
  - exact Hcover.
  - now rewrite Hcover.
  - exact Eg.
  - reflexivity.
  - cbn [data]. rewrite length_map. symmetry. now apply Forall2_length in Hrows.
Qed.

(** X10. Narrowing a selection can be done in two steps.  If a first
    filter uses a range that contains the range of a second one, and the
    same gender or Both, then the second filter applied to the result of
    the first returns what it returns on the table itself, and that is
    taken in order from the result of the first.  A range whose lower bound
    exceeds its upper bound selects nothing. *)
Theorem filter_narrows :
  (forall (df : Table) (g g' : Gender) (lo hi lo' hi' : Z),
      lo' <= lo -> hi <= hi' -> g' = Both \/ g' = g ->
      exists wide narrow : Table,
        filtered_df (gender_label g') (lo', hi') df = Ok wide /\
        filtered_df (gender_label g) (lo, hi) df = Ok narrow /\
        filtered_df (gender_label g) (lo, hi) wide = Ok narrow /\
        narrow `sublist_of` wide /\ wide `sublist_of` df) /\
  (forall (df : Table) (g : Gender) (lo hi : Z),
      hi < lo -> filtered_df (gender_label g) (lo, hi) df = Ok []).
Proof.
  split.
  - intros df g g' lo hi lo' hi' Hlo Hhi Hg. rewrite !filtered_df_filter.
    eexists _, _. split; [reflexivity|]. split; [reflexivity|].
    assert (Himp : forall r, in_selection g lo hi r -> in_selection g' lo' hi' r).
    { intros r (Ha & Hf & Hm). unfold in_selection.
      destruct Hg as [->| ->]; repeat split; try lia; try discriminate; assumption. }
    split; [|split].
    + rewrite filtered_df_filter, list_filter_filter. f_equal.
      apply list_filter_iff. intros r. split; [tauto|]. intros H. split; [exact H|auto].
    + now apply sublist_filter_weaken.
    + apply sublist_filter.
  - intros df g lo hi Hinv. rewrite filtered_df_filter. f_equal.
    induction df as [|r df IH]; [reflexivity|].
    rewrite filter_cons_False; [exact IH|]. unfold in_selection. lia.
Qed.

Lemma filter_narrows_witness :
  (30 <= 60 /\ 65 <= 70) /\
  exists wide narrow : Table,
    filtered_df (gender_label Both) (30, 70) patients = Ok wide /\
    filtered_df (gender_label Male) (60, 65) patients = Ok narrow /\
    filtered_df (gender_label Male) (60, 65) wide = Ok narrow /\
    filtered_df (gender_label Male) (65, 60) patients = Ok [].
Proof.
  split; [lia|].
  destruct (proj1 filter_narrows patients Male Both 60 65 30 70)
    as (wide & narrow & H1 & H2 & H3 & _); [lia|lia|now left|].
  exists wide, narrow. split; [exact H1|]. split; [exact H2|]. split; [exact H3|].
  apply (proj2 filter_narrows). lia.
Defined.

(** ** Column labels *)

Section Labels.

Lemma to_upper_not_underscore (c : ascii) :
  PyStr.is_lower c = true -> PyStr.to_upper c <> "_"%char.
Proof.
  destruct c as [[] [] [] [] [] [] [] []]; vm_compute; congruence.
Qed.

Lemma to_lower_not_underscore (c : ascii) :
  PyStr.is_upper c = true -> PyStr.to_lower c <> "_"%char.
Proof.
  destruct c as [[] [] [] [] [] [] [] []]; vm_compute; congruence.
Qed.

Lemma letters_not_underscore (c : ascii) :
  (PyStr.is_lower c = true \/ PyStr.is_upper c = true) -> c <> "_"%char.
Proof.
  intros [H|H] ->; vm_compute in H; discriminate.
Qed.

Lemma title_from_chars (b : bool) (s : string) :
  ("_"%char ∉ list_ascii_of_string s) ->
  ("_"%char ∉ list_ascii_of_string (PyStr.title_from b s)) /\
  String.length (PyStr.title_from b s) = String.length s.
Proof.
  revert b. induction s as [|c s IH]; intros b Hs; [split; [exact Hs|reflexivity]|].
  cbn [list_ascii_of_string] in Hs. apply not_elem_of_cons in Hs as [Hc Hs].
  cbn [PyStr.title_from].
  destruct (PyStr.is_lower c) eqn:El; [|destruct (PyStr.is_upper c) eqn:Eu].
  - destruct (IH true Hs) as [H1 H2]. cbn [list_ascii_of_string String.length].
    split; [|now rewrite H2]. apply not_elem_of_cons. split; [|exact H1].
    destruct b; [congruence|]. intros E. symmetry in E.
    now apply to_upper_not_underscore in E.
  - destruct (IH true Hs) as [H1 H2]. cbn [list_ascii_of_string String.length].
    split; [|now rewrite H2]. apply not_elem_of_cons. split; [|exact H1].
    destruct b; [|congruence]. intros E. symmetry in E.
    now apply to_lower_not_underscore in E.
  - destruct (IH false Hs) as [H1 H2]. cbn [list_ascii_of_string String.length].
    split; [|now rewrite H2]. apply not_elem_of_cons. split; [congruence|exact H1].
Qed.

Lemma replace_chars (s : string) :
  ("_"%char ∉ list_ascii_of_string (PyStr.replace "_" " " s)) /\
  String.length (PyStr.replace "_" " " s) = String.length s.
Proof.
  induction s as [|c s [IH1 IH2]]; [split; [apply not_elem_of_nil|reflexivity]|].
  cbn [PyStr.replace list_ascii_of_string String.length]. split; [|now rewrite IH2].
  apply not_elem_of_cons. split; [|exact IH1].
  destruct (Ascii.eqb_spec c "_"); [discriminate|congruence].
Qed.

Lemma length_append (a b : string) :
  String.length (a +:+ b) = (String.length a + String.length b)%nat.
Proof.
  induction a as [|c a IH]; [reflexivity|].
  change (String c a +:+ b) with (String c (a +:+ b)).
  cbn [String.length]. now rewrite IH.
Qed.

End Labels.

(** X11. The label made of a column name and a statistic name, both in
    ASCII, never contains an underscore, whatever the two names, and is as
    long as the two names and the one separator between them. *)
Theorem column_title_readable (a b : string) :
  PyStr.ascii_only a -> PyStr.ascii_only b ->
  exists label : string,
    column_title (ColPair a b) = Ok (ColName label) /\
    ("_"%char ∉ list_ascii_of_string label) /\
    String.length label = (String.length a + 1 + String.length b)%nat.
Proof.
  intros _ _. eexists. split; [reflexivity|].
  destruct (replace_chars (a +:+ "_" +:+ b)) as [H1 H2].
  destruct (title_from_chars false _ H1) as [H3 H4].
  split; [exact H3|]. unfold PyStr.title. rewrite H4, H2, !length_append. cbn. lia.
Qed.

Lemma column_title_readable_witness :
  PyStr.ascii_only "resting_bp" /\ PyStr.ascii_only "mean" /\
  exists label : string,
    column_title (ColPair "resting_bp" "mean") = Ok (ColName label) /\
    ("_"%char ∉ list_ascii_of_string label) /\
    String.length label = 15%nat.
Proof.
  assert (Ha : PyStr.ascii_only "resting_bp").
  { unfold PyStr.ascii_only. cbn [list_ascii_of_string].
    repeat first [apply Forall_nil_2
                 | apply Forall_cons_2; [apply Nat.ltb_lt; reflexivity|]]. }
  assert (Hb : PyStr.ascii_only "mean").
  { unfold PyStr.ascii_only. cbn [list_ascii_of_string].
    repeat first [apply Forall_nil_2
                 | apply Forall_cons_2; [apply Nat.ltb_lt; reflexivity|]]. }
  split; [exact Ha|]. split; [exact Hb|].
  destruct (column_title_readable "resting_bp" "mean" Ha Hb) as (label & H1 & H2 & H3).
  exists label. split; [exact H1|]. split; [exact H2|exact H3].
Defined.

(** ** The pie of genders *)

Section Pie.

Lemma sex_label_counts (t : Table) :
  length (filter (fun o => o = Some "Female"%string) (map (fun r => sex_label (sex r)) t))
  = with_sex 0 t /\
  length (filter (fun o => o = Some "Male"%string) (map (fun r => sex_label (sex r)) t))
  = with_sex 1 t /\
  length (filter (fun o => o = None) (map (fun r => sex_label (sex r)) t))
  = length (filter (fun r => sex r <> 0 /\ sex r <> 1) t).
Proof.
  unfold with_sex. induction t as [|r t (IH1 & IH2 & IH3)]; [repeat split|].
  cbn [map]. unfold sex_label at 1 3 5.
  destruct (Z.eqb_spec (sex r) 0) as [E0|E0]; [|destruct (Z.eqb_spec (sex r) 1) as [E1|E1]].
  - rewrite (filter_cons_True (fun o => o = Some "Female"%string)) by reflexivity.
    rewrite (filter_cons_False (fun o => o = Some "Male"%string)) by discriminate.
    rewrite (filter_cons_False (fun o => o = None)) by discriminate.
    rewrite (filter_cons_True (fun r => sex r = 0)) by exact E0.
    rewrite (filter_cons_False (fun r => sex r = 1)) by lia.
    rewrite (filter_cons_False (fun r => sex r <> 0 /\ sex r <> 1)) by tauto.
    cbn [length]. auto.
  - rewrite (filter_cons_False (fun o => o = Some "Female"%string)) by discriminate.
    rewrite (filter_cons_True (fun o => o = Some "Male"%string)) by reflexivity.
    rewrite (filter_cons_False (fun o => o = None)) by discriminate.
    rewrite (filter_cons_False (fun r => sex r = 0)) by exact E0.
    rewrite (filter_cons_True (fun r => sex r = 1)) by exact E1.
    rewrite (filter_cons_False (fun r => sex r <> 0 /\ sex r <> 1)) by tauto.
    cbn [length]. auto.
  - rewrite (filter_cons_False (fun o => o = Some "Female"%string)) by discriminate.
    rewrite (filter_cons_False (fun o => o = Some "Male"%string)) by discriminate.
    rewrite (filter_cons_True (fun o => o = None)) by reflexivity.
    rewrite (filter_cons_False (fun r => sex r = 0)) by exact E0.
    rewrite (filter_cons_False (fun r => sex r = 1)) by exact E1.
    rewrite (filter_cons_True (fun r => sex r <> 0 /\ sex r <> 1)) by tauto.
    cbn [length]. auto.
Qed.

End Pie.

(** X12. Whatever the table, the distribution section raises nothing
    and renders the pie and the two histograms, as three new objects.  The
    pie is drawn from one label per row: as many Female labels as rows of
    sex 0, as many Male labels as rows of sex 1, and no label for a row of
    any other sex value, which the pie therefore leaves out. *)
Theorem distribution_section_shows (l : nat) (t : Table) (s : State) :
  heap s !! l = Some (ODataFrame t) ->
  distribution_section l s
  = (Ok tt,
     set_out (out s ++ [ESubheader "Distribution of Patients";
                        EPlotlyChart (pie_figure t);
                        EPlotlyChart (age_histogram t);
                        EPlotlyChart (cp_histogram t)])
       (set_heap (heap s ++ [OFigure (pie_figure t);
                             OFigure (age_histogram t);
                             OFigure (cp_histogram t)]) s)) /\
  exists labels : list (option string),
    pie_figure t = [AddTrace (TPie labels) 1 1;
                    UpdateLayout [("title", "Gender Distribution")]%string] /\
    length labels = length t /\
    length (filter (fun o => o = Some "Female"%string) labels) = with_sex 0 t /\
    length (filter (fun o => o = Some "Male"%string) labels) = with_sex 1 t /\
    length (filter (fun o => o = None) labels)
    = length (filter (fun r => sex r <> 0 /\ sex r <> 1) t).
Proof.
  intros Hl. split; [now apply distribution_section_run|].
  eexists. split; [reflexivity|]. split; [apply length_map|].
  apply sex_label_counts.
Qed.

Lemma distribution_section_shows_witness :
  fst (distribution_section 0 (mkState (only (GoodCsv patients)) [] None
                                       [ODataFrame patients] [])) = Ok tt /\
  with_sex 0 patients = 2%nat.
Proof.
  destruct (distribution_section_shows 0 patients
              (mkState (only (GoodCsv patients)) [] None [ODataFrame patients] []) eq_refl)
    as [H _].
  split; [now rewrite H|reflexivity].
Defined.
